(** * cod_umiditate_sol.ino: soil moisture and object temperature node

    A shallow embedding of the RAK4630 sketch [cod_umiditate_sol.ino] and the
    properties of its payload encoding, sensor handling and join supervision.

    The sketch talks to hardware and to the LoRaWAN stack. Every call whose
    answer comes from outside the sketch (an ADC sample, a sensor reading, the
    clock, the join status) is answered by an environment [Env]; every call,
    with its arguments and its answer, is recorded in a trace of [event]s.
    C integers are [Z] with the wrap-around of their width written out, and
    C [float] is IEEE-754 binary32 as specified by [SpecFloat]. *)

From Stdlib Require Import ZArith List String Bool Lia QArith Qround.
From Stdlib Require Import Floats.SpecFloat.
Import ListNotations.

Local Open Scope Z_scope.

(** ** Machine integers of the nRF52840 (ILP32) *)

Module CInt.

Definition wrap_unsigned (bits z : Z) : Z := z mod 2 ^ bits.

Definition wrap_signed (bits z : Z) : Z :=
  (z + 2 ^ (bits - 1)) mod 2 ^ bits - 2 ^ (bits - 1).

Definition to_uint8 : Z -> Z := wrap_unsigned 8.
Definition to_uint16 : Z -> Z := wrap_unsigned 16.
Definition to_uint32 : Z -> Z := wrap_unsigned 32.
Definition to_int16 : Z -> Z := wrap_signed 16.
Definition to_int32 : Z -> Z := wrap_signed 32.

(** Reading a big-endian byte pair back, unsigned and two's complement. *)
Definition decode_u16 (hi lo : Z) : Z := hi * 256 + lo.
Definition decode_s16 (hi lo : Z) : Z := to_int16 (hi * 256 + lo).

End CInt.

(** ** C [float]: IEEE-754 binary32 *)

Module F32.

Definition float : Type := spec_float.

Definition prec : Z := 24.
Definition emax : Z := 128.

(** Conversion of an integer to [float] (round to nearest even). *)
Definition of_int (z : Z) : float := binary_normalize prec emax z 0 false.

Definition mul (x y : float) : float := SFmul prec emax x y.

(** [x < y]; false as soon as one side is NaN. *)
Definition ltb (x y : float) : bool := SFltb x y.

Definition isnan (x : float) : bool :=
  match x with
  | S754_nan => true
  | _ => false
  end.

Definition valid (x : float) : bool := valid_binary prec emax x.

(** Conversion to an integer discards the fractional part (truncation
    toward zero); the integer is then narrowed to the destination type by
    the caller. Infinities and NaN have no integral part. *)
Definition trunc (x : float) : Z :=
  match x with
  | S754_finite s m e => cond_Zopp s (Z.shiftl (Zpos m) e)
  | _ => 0
  end.

(** The rational number a float stands for (0 for infinities and NaN). *)
Definition to_Q (x : float) : Q :=
  match x with
  | S754_finite s m e =>
      if 0 <=? e then inject_Z (cond_Zopp s (Zpos m * 2 ^ e))
      else Qmake (cond_Zopp s (Zpos m)) (Z.to_pos (2 ^ (- e)))
  | _ => 0%Q
  end.

Definition is_finite (x : float) : bool :=
  match x with
  | S754_finite _ _ _ | S754_zero _ => true
  | _ => false
  end.

End F32.

(** Rounding a rational to the nearest integer (halves go up). *)
Definition Qnearest (q : Q) : Z := Qfloor (q + (1 # 2))%Q.

(** ** The Arduino core *)

Module Arduino.

(** [long map(long x, long in_min, long in_max, long out_min, long out_max)]
    of the Arduino core (WMath.cpp):
    [(x - in_min) * (out_max - out_min) / (in_max - in_min) + out_min],
    in 32-bit [long] arithmetic with C's truncating division. *)
Definition map (x in_min in_max out_min out_max : Z) : Z :=
  CInt.to_int32
    (CInt.to_int32
       (CInt.to_int32 (CInt.to_int32 (x - in_min) * CInt.to_int32 (out_max - out_min))
        ÷ CInt.to_int32 (in_max - in_min))
     + out_min).

(** The macro
    [constrain(amt,low,high) ((amt)<(low)?(low):((amt)>(high)?(high):(amt)))]
    at a [float] amount and [int] bounds: the comparisons and the result are
    in [float]. *)
Definition constrain (amt : F32.float) (low high : Z) : F32.float :=
  if F32.ltb amt (F32.of_int low) then F32.of_int low
  else if F32.ltb (F32.of_int high) amt then F32.of_int high
  else amt.

End Arduino.

(** ** Hardware and stack vocabulary *)

Inductive pin : Type := WB_IO3 | WB_A1 | WB_IO4.

Definition SOIL_POWER_PIN : pin := WB_IO3.
Definition SOIL_SENSOR_PIN : pin := WB_A1.
Definition MLX_POWER_PIN : pin := WB_IO4.

Inductive level : Type := LOW | HIGH.
Inductive pin_mode : Type := INPUT | OUTPUT.

(** [MLX90632::status] of the sensor driver. *)
Inductive mlx_status : Type :=
| SENSOR_SUCCESS
| SENSOR_ID_ERROR
| SENSOR_I2C_ERROR
| SENSOR_INTERNAL_ERROR
| SENSOR_GENERIC_ERROR
| SENSOR_TIMEOUT_ERROR.

Definition mlx_status_is_success (s : mlx_status) : bool :=
  match s with
  | SENSOR_SUCCESS => true
  | _ => false
  end.

(** [lmh_error_status]: success, or one of the stack's error codes. *)
Inductive lmh_error_status : Type :=
| LMH_SUCCESS
| LMH_failure (code : Z).

Definition lmh_is_success (s : lmh_error_status) : bool :=
  match s with
  | LMH_SUCCESS => true
  | LMH_failure _ => false
  end.

Definition lmh_code (s : lmh_error_status) : Z :=
  match s with
  | LMH_SUCCESS => 0
  | LMH_failure c => c
  end.

Inductive lmh_confirm : Type := LMH_UNCONFIRMED_MSG | LMH_CONFIRMED_MSG.
Inductive DeviceClass_t : Type := CLASS_A | CLASS_B | CLASS_C.

(** [lmh_app_data_t]: the buffer is the array the pointer designates. *)
Record lmh_app_data_t : Type := {
  buffer : list Z;
  buffsize : Z;
  port : Z;
  rssi : Z;
  snr : Z
}.

Definition nodeDeviceEUI : list Z :=
  [0xAC; 0x1F; 0x09; 0xFF; 0xFE; 0x18; 0x49; 0x2C].
Definition nodeAppEUI : list Z :=
  [0x00; 0x00; 0x00; 0x00; 0x00; 0x00; 0x00; 0x00].
Definition nodeAppKey : list Z :=
  [0x1D; 0xBF; 0xC9; 0xE5; 0x42; 0x23; 0xA2; 0x9E;
   0x96; 0x26; 0x17; 0xC6; 0x7B; 0x9C; 0x5B; 0x4C].

Definition SENSOR_INTERVAL : Z := 60000.
Definition JOIN_RETRY_INTERVAL : Z := 120000.

(** ** Observable events *)

Inductive serial_item : Type :=
| Str (s : string)
| Int (z : Z)
| Flt (f : F32.float)
| Hex (z : Z).

Inductive event : Type :=
| SerialBegin (baud : Z)
| Serial (item : serial_item) (newline : bool)
| PinMode (p : pin) (m : pin_mode)
| DigitalWrite (p : pin) (l : level)
| Delay (ms : Z)
| WireBegin
| WireSetClock (hz : Z)
| AnalogRead (p : pin) (value : Z)
| MlxBegin (addr : Z) (ok : bool) (st : mlx_status)
| MlxGetObjectTemp (value : F32.float)
| LoraRak4630Init (result : Z)
| LmhInit (result : lmh_error_status)
| LmhSetDevEui (eui : list Z)
| LmhSetAppEui (eui : list Z)
| LmhSetAppKey (key : list Z)
| LmhJoin
| LmhJoinStatusGet (joined : bool)
| LmhClassRequest (c : DeviceClass_t)
| LmhSend (data : lmh_app_data_t) (confirm : lmh_confirm) (result : lmh_error_status)
| Millis (t : Z)
| RadioIrqProcess
| BoardGetBatteryLevel (value : Z).

(** ** The environment: what the outside answers

    Answers that can differ from call to call are indexed by the number of
    environment queries made so far ([tick]). *)

Record Env : Type := {
  compiler_version : string;
  Serial_ready : nat -> bool;
  analogRead_value : nat -> Z;
  mlx_begin_result : nat -> bool * mlx_status;
  mlx_getObjectTemp_value : nat -> F32.float;
  lora_rak4630_init_result : Z;
  lmh_init_result : lmh_error_status;
  lmh_join_status : nat -> bool;
  lmh_send_result : nat -> lmh_error_status;
  millis_value : nat -> Z;
  BoardGetBatteryLevel_value : nat -> Z
}.

(** ** Program state *)

Record Globals : Type := {
  mlxSensorAvailable : bool;
  lastSensorRead : Z;
  lastJoinAttempt : Z;
  joinInProgress : bool;
  joinAttempts : Z;
  lastStatusPrint : Z
}.

(** The initialisers of the sketch's globals. *)
Definition initial_globals : Globals := {|
  mlxSensorAvailable := false;
  lastSensorRead := 0;
  lastJoinAttempt := 0;
  joinInProgress := false;
  joinAttempts := 0;
  lastStatusPrint := 0
|}.

Definition set_mlxSensorAvailable (b : bool) (g : Globals) : Globals :=
  {| mlxSensorAvailable := b;
     lastSensorRead := lastSensorRead g;
     lastJoinAttempt := lastJoinAttempt g;
     joinInProgress := joinInProgress g;
     joinAttempts := joinAttempts g;
     lastStatusPrint := lastStatusPrint g |}.

Definition set_lastSensorRead (t : Z) (g : Globals) : Globals :=
  {| mlxSensorAvailable := mlxSensorAvailable g;
     lastSensorRead := t;
     lastJoinAttempt := lastJoinAttempt g;
     joinInProgress := joinInProgress g;
     joinAttempts := joinAttempts g;
     lastStatusPrint := lastStatusPrint g |}.

Definition set_lastJoinAttempt (t : Z) (g : Globals) : Globals :=
  {| mlxSensorAvailable := mlxSensorAvailable g;
     lastSensorRead := lastSensorRead g;
     lastJoinAttempt := t;
     joinInProgress := joinInProgress g;
     joinAttempts := joinAttempts g;
     lastStatusPrint := lastStatusPrint g |}.

Definition set_joinInProgress (b : bool) (g : Globals) : Globals :=
  {| mlxSensorAvailable := mlxSensorAvailable g;
     lastSensorRead := lastSensorRead g;
     lastJoinAttempt := lastJoinAttempt g;
     joinInProgress := b;
     joinAttempts := joinAttempts g;
     lastStatusPrint := lastStatusPrint g |}.

Definition set_joinAttempts (n : Z) (g : Globals) : Globals :=
  {| mlxSensorAvailable := mlxSensorAvailable g;
     lastSensorRead := lastSensorRead g;
     lastJoinAttempt := lastJoinAttempt g;
     joinInProgress := joinInProgress g;
     joinAttempts := n;
     lastStatusPrint := lastStatusPrint g |}.

Definition set_lastStatusPrint (t : Z) (g : Globals) : Globals :=
  {| mlxSensorAvailable := mlxSensorAvailable g;
     lastSensorRead := lastSensorRead g;
     lastJoinAttempt := lastJoinAttempt g;
     joinInProgress := joinInProgress g;
     joinAttempts := joinAttempts g;
     lastStatusPrint := t |}.

(** The world: the globals, the number of environment queries made, and the
    events so far, newest first. *)
Record World : Type := {
  globals : Globals;
  tick : nat;
  trace : list event
}.

Definition initial_world : World :=
  {| globals := initial_globals; tick := O; trace := [] |}.

(** The events of a world in the order they happened. *)
Definition events (w : World) : list event := rev (trace w).

(** ** The monad of sketch code

    A computation either returns ([Done]) or is still inside an unbounded
    loop when its fuel is used up ([Spin]). *)

Inductive outcome (A : Type) : Type :=
| Done (a : A) (w : World)
| Spin (w : World).

Arguments Done {A} a w.
Arguments Spin {A} w.

Definition M (A : Type) : Type := Env -> World -> outcome A.

Definition ret {A} (a : A) : M A := fun _ w => Done a w.

Definition bind {A B} (m : M A) (k : A -> M B) : M B :=
  fun env w =>
    match m env w with
    | Done a w' => k a env w'
    | Spin w' => Spin w'
    end.

Declare Scope prog_scope.
Delimit Scope prog_scope with prog.
Bind Scope prog_scope with M.

Notation "x <- m ;; k" := (bind m (fun x => k))
  (at level 61, m at next level, right associativity) : prog_scope.
Notation "m ;; k" := (bind m (fun _ => k))
  (at level 61, right associativity) : prog_scope.

Local Open Scope prog_scope.

Definition emit (e : event) : M unit :=
  fun _ w =>
    Done tt {| globals := globals w; tick := tick w; trace := e :: trace w |}.

(** Ask the environment; the query counter advances. *)
Definition query {X} (answer : Env -> nat -> X) : M X :=
  fun env w =>
    Done (answer env (tick w))
         {| globals := globals w; tick := S (tick w); trace := trace w |}.

Definition constant {X} (answer : Env -> X) : M X :=
  fun env w => Done (answer env) w.

Definition gets {X} (field : Globals -> X) : M X :=
  fun _ w => Done (field (globals w)) w.

Definition modify (f : Globals -> Globals) : M unit :=
  fun _ w =>
    Done tt {| globals := f (globals w); tick := tick w; trace := trace w |}.

Definition when (c : bool) (body : M unit) : M unit :=
  if c then body else ret tt.

(** C's short-circuit [&&] on conditions that may call functions. *)
Definition and_then (a b : M bool) : M bool :=
  x <- a ;; if x then b else ret false.

(** [for (int i = start; ...; i++)] running [n] times. *)
Fixpoint for_ (n : nat) (i : Z) (body : Z -> M unit) : M unit :=
  match n with
  | O => ret tt
  | S n' => body i ;; for_ n' (i + 1) body
  end.

(** The same with a local variable updated by the body. *)
Fixpoint for_acc {S : Type} (n : nat) (i : Z) (body : Z -> S -> M S) (s : S) : M S :=
  match n with
  | O => ret s
  | Datatypes.S n' => s' <- body i s ;; for_acc n' (i + 1) body s'
  end.

(** [while (cond) body], at most [fuel] iterations before [Spin]. *)
Fixpoint while_ (fuel : nat) (cond : M bool) (body : M unit) : M unit :=
  match fuel with
  | O => fun _ w => Spin w
  | S fuel' =>
      c <- cond ;;
      if c then body ;; while_ fuel' cond body else ret tt
  end.

Definition forever (fuel : nat) (body : M unit) : M unit :=
  while_ fuel (ret true) body.

(** ** Calls into the Arduino core, the sensor driver and the LoRaWAN stack *)

Definition LF : string := String (Ascii.ascii_of_nat 10) EmptyString.

Definition Serial_begin (baud : Z) : M unit := emit (SerialBegin baud).
Definition Serial_operator_bool : M bool := query Serial_ready.
Definition print (s : string) : M unit := emit (Serial (Str s) false).
Definition println (s : string) : M unit := emit (Serial (Str s) true).
Definition print_int (z : Z) : M unit := emit (Serial (Int z) false).
Definition println_int (z : Z) : M unit := emit (Serial (Int z) true).
Definition print_float (f : F32.float) : M unit := emit (Serial (Flt f) false).
Definition print_hex (z : Z) : M unit := emit (Serial (Hex z) false).
Definition println_hex (z : Z) : M unit := emit (Serial (Hex z) true).

Definition pinMode (p : pin) (m : pin_mode) : M unit := emit (PinMode p m).
Definition digitalWrite (p : pin) (l : level) : M unit := emit (DigitalWrite p l).
Definition delay (ms : Z) : M unit := emit (Delay ms).
Definition Wire_begin : M unit := emit WireBegin.
Definition Wire_setClock (hz : Z) : M unit := emit (WireSetClock hz).

(** [uint32_t analogRead(uint32_t pin)] *)
Definition analogRead (p : pin) : M Z :=
  v <- query analogRead_value ;;
  let v := CInt.to_uint32 v in
  emit (AnalogRead p v) ;;
  ret v.

(** [unsigned long millis()] *)
Definition millis : M Z :=
  t <- query millis_value ;;
  let t := CInt.to_uint32 t in
  emit (Millis t) ;;
  ret t.

(** [bool MLX90632::begin(uint8_t addr, TwoWire &wire, status &returnError)] *)
Definition mlx_begin (addr : Z) : M (bool * mlx_status) :=
  r <- query mlx_begin_result ;;
  emit (MlxBegin addr (fst r) (snd r)) ;;
  ret r.

(** [float MLX90632::getObjectTemp()] *)
Definition mlx_getObjectTemp : M F32.float :=
  t <- query mlx_getObjectTemp_value ;;
  emit (MlxGetObjectTemp t) ;;
  ret t.

(** [uint8_t BoardGetBatteryLevel(void)], the first entry of [lmh_callback_t] *)
Definition BoardGetBatteryLevel_call : M Z :=
  v <- query BoardGetBatteryLevel_value ;;
  let v := CInt.to_uint8 v in
  emit (BoardGetBatteryLevel v) ;;
  ret v.

Definition lora_rak4630_init : M Z :=
  r <- constant lora_rak4630_init_result ;;
  emit (LoraRak4630Init r) ;;
  ret r.

Definition lmh_init : M lmh_error_status :=
  r <- constant lmh_init_result ;;
  emit (LmhInit r) ;;
  ret r.

Definition lmh_setDevEui (eui : list Z) : M unit := emit (LmhSetDevEui eui).
Definition lmh_setAppEui (eui : list Z) : M unit := emit (LmhSetAppEui eui).
Definition lmh_setAppKey (key : list Z) : M unit := emit (LmhSetAppKey key).
Definition lmh_join : M unit := emit LmhJoin.
Definition lmh_class_request (c : DeviceClass_t) : M unit := emit (LmhClassRequest c).
Definition Radio_IrqProcess : M unit := emit RadioIrqProcess.

Definition lmh_join_status_get : M bool :=
  b <- query lmh_join_status ;;
  emit (LmhJoinStatusGet b) ;;
  ret b.

Definition lmh_send (data : lmh_app_data_t) (confirm : lmh_confirm) : M lmh_error_status :=
  r <- query lmh_send_result ;;
  emit (LmhSend data confirm r) ;;
  ret r.

(** The loop that prints the first [n] bytes of an array in hexadecimal
    (lines 346-350 and 413-417). *)
Definition print_hex_bytes (n : nat) (data : list Z) : M unit :=
  for_ n 0
    (fun i =>
       let b := nth (Z.to_nat i) data 0 in
       when (b <? 16) (print "0") ;;
       print_hex b ;;
       print " ").

(** ** send_lora_frame *)

(** Lines 291-292: the averaged raw reading rescaled by [map] (dry 3000,
    wet 1300), stored in a [float] and passed through [constrain]. *)
Definition soil_moisture_of_raw (soilRaw : Z) : F32.float :=
  let soilMoisture := F32.of_int (Arduino.map soilRaw 3000 1300 0 100) in
  Arduino.constrain soilMoisture 0 100.

(** Lines 332-334: the three casts. *)
Definition soilValue_of (soilMoisture : F32.float) : Z :=
  CInt.to_uint16 (F32.trunc (F32.mul soilMoisture (F32.of_int 100))).
Definition tempValue_of (objectTemp : F32.float) : Z :=
  CInt.to_int16 (F32.trunc (F32.mul objectTemp (F32.of_int 100))).
Definition battValue_of (batteryLevel : F32.float) : Z :=
  CInt.to_uint16 (F32.trunc (F32.mul batteryLevel (F32.of_int 100))).

(** Lines 331-341: the six bytes of [data]. *)
Definition payload_bytes (soilMoisture objectTemp batteryLevel : F32.float) : list Z :=
  let soilValue := soilValue_of soilMoisture in
  let tempValue := tempValue_of objectTemp in
  let battValue := battValue_of batteryLevel in
  [ CInt.to_uint8 (Z.land (Z.shiftr soilValue 8) 0xFF);
    CInt.to_uint8 (Z.land soilValue 0xFF);
    CInt.to_uint8 (Z.land (Z.shiftr tempValue 8) 0xFF);
    CInt.to_uint8 (Z.land tempValue 0xFF);
    CInt.to_uint8 (Z.land (Z.shiftr battValue 8) 0xFF);
    CInt.to_uint8 (Z.land battValue 0xFF) ].

(** [float objectTemp = 25.0;] *)
Definition default_objectTemp : F32.float := F32.of_int 25.

(** Line 311: [!isnan(temp) && temp > -40 && temp < 85]. *)
Definition temp_accepted (temp : F32.float) : bool :=
  negb (F32.isnan temp) && F32.ltb (F32.of_int (-40)) temp && F32.ltb temp (F32.of_int 85).

Definition send_lora_frame : M unit :=
  println (LF ++ "--- Sending Sensor Data ---") ;;
  println "Reading soil moisture sensor (RAK12023)..." ;;
  digitalWrite SOIL_POWER_PIN HIGH ;;
  delay 1000 ;;
  soilSum <- for_acc 5 0
    (fun _ soilSum =>
       v <- analogRead SOIL_SENSOR_PIN ;;
       delay 100 ;;
       ret (CInt.to_int32 (soilSum + v))) 0 ;;
  let soilRaw := CInt.to_int32 (soilSum ÷ 5) in
  let soilMoisture := soil_moisture_of_raw soilRaw in
  digitalWrite SOIL_POWER_PIN LOW ;;
  print "Soil: " ;;
  print_float soilMoisture ;;
  print "% (raw: " ;;
  print_int soilRaw ;;
  println ")" ;;
  available <- gets mlxSensorAvailable ;;
  objectTemp <-
    (if available then
       println "Reading temperature sensor..." ;;
       digitalWrite MLX_POWER_PIN LOW ;;
       delay 500 ;;
       temp <- mlx_getObjectTemp ;;
       objectTemp <-
         (if temp_accepted temp then
            print "Temperature: " ;;
            print_float temp ;;
            println "°C" ;;
            ret temp
          else
            println "Temperature: Invalid reading, using default" ;;
            ret default_objectTemp) ;;
       digitalWrite MLX_POWER_PIN HIGH ;;
       ret objectTemp
     else
       println "Temperature: Using default 25.0°C (sensor not available)" ;;
       ret default_objectTemp) ;;
  level <- BoardGetBatteryLevel_call ;;
  let batteryLevel := F32.of_int level in
  print "Battery: " ;;
  print_float batteryLevel ;;
  println "V" ;;
  let data := payload_bytes soilMoisture objectTemp batteryLevel in
  let m_lora_app_data :=
    {| buffer := data; buffsize := 6; port := 2; rssi := 0; snr := 0 |} in
  print "Payload: " ;;
  print_hex_bytes 6 data ;;
  println "" ;;
  println "Sending LoRaWAN packet..." ;;
  error <- lmh_send m_lora_app_data LMH_UNCONFIRMED_MSG ;;
  if lmh_is_success error then
    println "LoRaWAN packet sent successfully!"
  else
    print "Send failed with error: " ;;
    println_int (lmh_code error).

(** ** The join callbacks *)

Definition lorawan_has_joined_handler : M unit :=
  println (LF ++ "🎉 SUCCESS: OTAA JOIN COMPLETED! 🎉") ;;
  println "Device is now connected to TTN" ;;
  print "Join attempt #" ;;
  (n <- gets joinAttempts ;; print_int n) ;;
  println " succeeded" ;;
  println "Will start sending sensor data every 60 seconds" ;;
  modify (set_joinInProgress false) ;;
  lmh_class_request CLASS_A ;;
  t <- millis ;;
  modify (set_lastSensorRead (CInt.to_uint32 (t - SENSOR_INTERVAL))).

Definition lorawan_join_failed_handler : M unit :=
  println (LF ++ "❌ JOIN FAILED ❌") ;;
  print "Join attempt #" ;;
  (n <- gets joinAttempts ;; print_int n) ;;
  println " failed" ;;
  println (LF ++ "Troubleshooting checklist:") ;;
  println "1. Check if LoRaWAN gateway is in range and online" ;;
  println "2. Verify TTN application credentials match exactly" ;;
  println "3. Confirm gateway is connected to TTN" ;;
  println "4. Check antenna connection" ;;
  println "5. Verify frequency plan is EU868" ;;
  println "6. Check Device EUI in TTN console" ;;
  modify (set_joinInProgress false) ;;
  print "Will retry in " ;;
  print_int (JOIN_RETRY_INTERVAL ÷ 1000) ;;
  println " seconds...".

Definition lorawan_rx_handler (app_data : lmh_app_data_t) : M unit :=
  println (LF ++ "📡 DOWNLINK RECEIVED 📡") ;;
  print "Port: " ;;
  print_int (port app_data) ;;
  print ", Size: " ;;
  print_int (buffsize app_data) ;;
  print ", RSSI: " ;;
  print_int (rssi app_data) ;;
  print ", SNR: " ;;
  println_int (snr app_data) ;;
  when (0 <? buffsize app_data)
    (print "Data: " ;;
     print_hex_bytes (Z.to_nat (buffsize app_data)) (buffer app_data) ;;
     println "").

Definition class_name (c : DeviceClass_t) : string :=
  match c with
  | CLASS_A => "A"
  | CLASS_B => "B"
  | CLASS_C => "C"
  end.

Definition lorawan_confirm_class_handler (c : DeviceClass_t) : M unit :=
  print "Device class confirmed: " ;;
  println (class_name c).

Definition lorawan_unconfirm_class_handler (c : DeviceClass_t) : M unit :=
  print "Device class switch failed, staying in: " ;;
  println (class_name c).

(** [g_lora_callbacks]: the handlers the stack calls back. *)
Inductive stack_callback : Type :=
| on_rx (app_data : lmh_app_data_t)
| on_has_joined
| on_confirm_class (c : DeviceClass_t)
| on_join_failed.

Definition g_lora_callbacks (cb : stack_callback) : M unit :=
  match cb with
  | on_rx app_data => lorawan_rx_handler app_data
  | on_has_joined => lorawan_has_joined_handler
  | on_confirm_class c => lorawan_confirm_class_handler c
  | on_join_failed => lorawan_join_failed_handler
  end.

(** ** setup *)

(** Lines 102-113: the loop over [addresses]; its result is the value of
    [sensorSuccess] when the loop is left. *)
Fixpoint setup_probe_addresses (n : nat) (addr : Z) (addresses : list Z) : M bool :=
  match n with
  | O => ret false
  | S n' =>
      r <- mlx_begin (nth (Z.to_nat addr) addresses 0) ;;
      if fst r && mlx_status_is_success (snd r) then
        print "SUCCESS at address 0x" ;;
        println_hex (nth (Z.to_nat addr) addresses 0) ;;
        modify (set_mlxSensorAvailable true) ;;
        ret true
      else
        setup_probe_addresses n' (addr + 1) addresses
  end.

(** Lines 94-119: the loop over [attempt]. *)
Fixpoint setup_probe_attempts (n : nat) (attempt : Z) : M unit :=
  match n with
  | O => ret tt
  | S n' =>
      print "   Attempt " ;;
      print_int (attempt + 1) ;;
      print "/3: " ;;
      let addresses := [0x3A; 0x3B] in
      sensorSuccess <- setup_probe_addresses 2 0 addresses ;;
      if sensorSuccess then ret tt
      else
        println "Failed" ;;
        delay 500 ;;
        setup_probe_attempts n' (attempt + 1)
  end.

(** The three loops that print a credential. *)
Definition print_credential (bytes : list Z) : M unit :=
  for_ 8 0
    (fun i =>
       let b := nth (Z.to_nat i) bytes 0 in
       when (b <? 16) (print "0") ;;
       print_hex b ;;
       when (i <? 7) (print ":")).

(** Lines 57-60: the serial port. *)
Definition setup_serial (fuel : nat) : M unit :=
  Serial_begin 115200 ;;
  while_ fuel (ready <- Serial_operator_bool ;; ret (negb ready)) (delay 10).

(** Lines 62-135: GPIO, I2C and the temperature sensor. *)
Definition setup_sensors : M unit :=
  println (LF ++ "=== RAK4630 TTN Sensor Node Debug Version ===") ;;
  println "Starting initialization..." ;;
  print "Board: RAK4630, Firmware: " ;;
  (v <- constant compiler_version ;; println v) ;;
  println (LF ++ "1. Initializing GPIO...") ;;
  pinMode SOIL_POWER_PIN OUTPUT ;;
  digitalWrite SOIL_POWER_PIN LOW ;;
  pinMode SOIL_SENSOR_PIN INPUT ;;
  pinMode MLX_POWER_PIN OUTPUT ;;
  digitalWrite MLX_POWER_PIN HIGH ;;
  println "   GPIO initialized successfully" ;;
  println (LF ++ "2. Initializing I2C...") ;;
  Wire_begin ;;
  Wire_setClock 100000 ;;
  println "   I2C initialized at 100kHz" ;;
  println (LF ++ "3. Testing MLX90632 temperature sensor...") ;;
  println "   Powering on sensor..." ;;
  digitalWrite MLX_POWER_PIN LOW ;;
  delay 1000 ;;
  println "   Attempting sensor initialization..." ;;
  setup_probe_attempts 3 0 ;;
  available <- gets mlxSensorAvailable ;;
  (if available then
     testTemp <- mlx_getObjectTemp ;;
     if negb (F32.isnan testTemp)
        && F32.ltb (F32.of_int (-50)) testTemp
        && F32.ltb testTemp (F32.of_int 150)
     then
       print "   Test reading: " ;;
       print_float testTemp ;;
       println "°C"
     else
       println "   Test reading: Invalid, but sensor detected"
   else
     println "   MLX90632 sensor: NOT FOUND (will use default temperature)") ;;
  digitalWrite MLX_POWER_PIN HIGH.

(** Lines 170-227: credentials and the first join request. *)
Definition setup_join : M unit :=
  println (LF ++ "6. Setting LoRaWAN credentials...") ;;
  lmh_setDevEui nodeDeviceEUI ;;
  lmh_setAppEui nodeAppEUI ;;
  lmh_setAppKey nodeAppKey ;;
  println "   Device EUI: " ;;
  print "   " ;;
  print_credential nodeDeviceEUI ;;
  println "" ;;
  println "   App EUI: " ;;
  print "   " ;;
  print_credential nodeAppEUI ;;
  println "" ;;
  println "   App Key (first 8 bytes): " ;;
  print "   " ;;
  print_credential nodeAppKey ;;
  println "..." ;;
  println (LF ++ "7. Starting OTAA join procedure...") ;;
  println "   Region: EU868" ;;
  println "   Class: A" ;;
  println "   Data Rate: DR0 (SF12/125kHz)" ;;
  println "   TX Power: 14 dBm" ;;
  (available <- gets mlxSensorAvailable ;;
   println ("   MLX Sensor: " ++ (if available then "Available" else "Not Available"))) ;;
  println "   Please wait for join result..." ;;
  modify (set_joinInProgress true) ;;
  modify (set_joinAttempts 1) ;;
  (t <- millis ;; modify (set_lastJoinAttempt t)) ;;
  println "   Sending join request..." ;;
  lmh_join ;;
  println (LF ++ "=== Setup Complete - Waiting for Network Join ===") ;;
  println "If join takes too long, check:" ;;
  println "- LoRaWAN gateway in range and online" ;;
  println "- TTN application credentials are correct" ;;
  println "- Gateway connected to TTN" ;;
  println "- Frequency plan is EU868" ;;
  println "- Antenna properly connected" ;;
  println "- Device EUI matches TTN exactly".

Definition halt_message_lora : string := "   Halted due to LoRa hardware failure".
Definition halt_message_stack : string := "   Halted due to LoRaWAN stack failure".

(** Lines 137-168: the radio chip and the LoRaWAN stack; each failure
    branch ends in a [while(1)]. *)
Definition setup_radio (fuel : nat) : M unit :=
  println (LF ++ "4. Initializing LoRa hardware...") ;;
  println "   This may take a few seconds..." ;;
  loraInitResult <- lora_rak4630_init ;;
  (if loraInitResult =? 0 then
     println "   LoRa chip: OK"
   else
     print "   LoRa chip: FAILED with code " ;;
     println_int loraInitResult ;;
     println "   CRITICAL ERROR: Check antenna connection!" ;;
     println "   System will halt here." ;;
     forever fuel
       (println halt_message_lora ;;
        delay 10000)) ;;
  println (LF ++ "5. Initializing LoRaWAN stack...") ;;
  stackResult <- lmh_init ;;
  (if lmh_is_success stackResult then
     println "   LoRaWAN stack: OK"
   else
     print "   LoRaWAN stack: FAILED with error " ;;
     println_int (lmh_code stackResult) ;;
     println "   CRITICAL ERROR: LoRaWAN stack initialization failed" ;;
     forever fuel
       (println halt_message_stack ;;
        delay 10000)).

Definition setup (fuel : nat) : M unit :=
  setup_serial fuel ;;
  setup_sensors ;;
  setup_radio fuel ;;
  setup_join.

(** ** loop *)

(** Lines 234-247: the join retry. *)
Definition loop_join_retry : M unit :=
  retry <-
    and_then (joined <- lmh_join_status_get ;; ret (negb joined))
      (and_then (inProgress <- gets joinInProgress ;; ret (negb inProgress))
         (now <- millis ;;
          last <- gets lastJoinAttempt ;;
          ret (JOIN_RETRY_INTERVAL <? CInt.to_uint32 (now - last)))) ;;
  when retry
    ((n <- gets joinAttempts ;; modify (set_joinAttempts (CInt.to_int32 (n + 1)))) ;;
     print (LF ++ "--- Join Retry Attempt #") ;;
     (n <- gets joinAttempts ;; print_int n) ;;
     println " ---" ;;
     println "Previous join failed, retrying..." ;;
     modify (set_joinInProgress true) ;;
     (t <- millis ;; modify (set_lastJoinAttempt t)) ;;
     lmh_join).

(** Lines 249-253: the send cadence. *)
Definition loop_send : M unit :=
  due <-
    and_then lmh_join_status_get
      (now <- millis ;;
       last <- gets lastSensorRead ;;
       ret (SENSOR_INTERVAL <=? CInt.to_uint32 (now - last))) ;;
  when due
    (send_lora_frame ;;
     t <- millis ;;
     modify (set_lastSensorRead t)).

(** Lines 255-267: the periodic status line. *)
Definition loop_status : M unit :=
  status <-
    (now <- millis ;;
     last <- gets lastStatusPrint ;;
     ret (30000 <? CInt.to_uint32 (now - last))) ;;
  when status
    (print (LF ++ "[STATUS] Uptime: ") ;;
     (now <- millis ;; print_int (now ÷ 1000)) ;;
     print "s, Joined: " ;;
     (joined <- lmh_join_status_get ;; print (if joined then "YES" else "NO")) ;;
     print ", Join attempts: " ;;
     (n <- gets joinAttempts ;; print_int n) ;;
     print ", MLX sensor: " ;;
     (available <- gets mlxSensorAvailable ;;
      println (if available then "Available" else "Not Available")) ;;
     t <- millis ;;
     modify (set_lastStatusPrint t)).

Definition loop : M unit :=
  Radio_IrqProcess ;;
  loop_join_retry ;;
  loop_send ;;
  loop_status ;;
  delay 100.

(** The Arduino core's [main]: [setup()] once, then [loop()] for ever. *)
Definition sketch (fuel : nat) : M unit :=
  setup fuel ;;
  forever fuel loop.

(** ** Observations on traces *)

Definition world_of {A} (o : outcome A) : World :=
  match o with
  | Done _ w => w
  | Spin w => w
  end.

Definition is_serial (e : event) : bool :=
  match e with
  | Serial _ _ => true
  | _ => false
  end.

(** The calls into hardware and stack, without the diagnostic text. *)
Definition hw (l : list event) : list event :=
  filter (fun e => negb (is_serial e)) l.

Definition is_analog_read (e : event) : bool :=
  match e with
  | AnalogRead _ _ => true
  | _ => false
  end.

Definition is_temp_read (e : event) : bool :=
  match e with
  | MlxGetObjectTemp _ => true
  | _ => false
  end.

Definition is_send (e : event) : bool :=
  match e with
  | LmhSend _ _ _ => true
  | _ => false
  end.

Definition is_join (e : event) : bool :=
  match e with
  | LmhJoin => true
  | _ => false
  end.

Definition is_probe (e : event) : bool :=
  match e with
  | MlxBegin _ _ _ => true
  | _ => false
  end.

(** Events that only the main loop or a transmission produce. *)
Definition is_loop_or_radio_traffic (e : event) : bool :=
  match e with
  | RadioIrqProcess | LmhJoin | LmhSend _ _ _ | LmhJoinStatusGet _ => true
  | _ => false
  end.

(** The number of times the line [msg] was printed. *)
Definition is_line (msg : string) (e : event) : bool :=
  match e with
  | Serial (Str s) true => String.eqb s msg
  | _ => false
  end.

Definition lines_printed (msg : string) (l : list event) : nat :=
  List.length (filter (is_line msg) l).

(** The answers a call of [send_lora_frame] gets when it starts at
    query [t] with globals [g], and what it computes from them. *)
Definition frame_sample (env : Env) (t i : nat) : Z :=
  CInt.to_uint32 (analogRead_value env (i + t)%nat).

Definition frame_soilRaw (env : Env) (t : nat) : Z :=
  let soilSum :=
    CInt.to_int32 (CInt.to_int32 (CInt.to_int32 (CInt.to_int32 (CInt.to_int32
      (0 + frame_sample env t 0) + frame_sample env t 1) + frame_sample env t 2)
      + frame_sample env t 3) + frame_sample env t 4) in
  CInt.to_int32 (soilSum ÷ 5).

Definition frame_temp (env : Env) (t : nat) : F32.float :=
  mlx_getObjectTemp_value env (5 + t)%nat.

Definition frame_objectTemp (env : Env) (g : Globals) (t : nat) : F32.float :=
  if mlxSensorAvailable g && temp_accepted (frame_temp env t)
  then frame_temp env t else default_objectTemp.

Definition frame_battery_tick (g : Globals) (t : nat) : nat :=
  if mlxSensorAvailable g then (6 + t)%nat else (5 + t)%nat.

Definition frame_battery (env : Env) (g : Globals) (t : nat) : Z :=
  CInt.to_uint8 (BoardGetBatteryLevel_value env (frame_battery_tick g t)).

Definition frame_app_data (env : Env) (g : Globals) (t : nat) : lmh_app_data_t :=
  {| buffer := payload_bytes (soil_moisture_of_raw (frame_soilRaw env t))
                             (frame_objectTemp env g t)
                             (F32.of_int (frame_battery env g t));
     buffsize := 6; port := 2; rssi := 0; snr := 0 |}.

Definition frame_hw (env : Env) (g : Globals) (t : nat) : list event :=
  [ DigitalWrite SOIL_POWER_PIN HIGH; Delay 1000;
    AnalogRead SOIL_SENSOR_PIN (frame_sample env t 0); Delay 100;
    AnalogRead SOIL_SENSOR_PIN (frame_sample env t 1); Delay 100;
    AnalogRead SOIL_SENSOR_PIN (frame_sample env t 2); Delay 100;
    AnalogRead SOIL_SENSOR_PIN (frame_sample env t 3); Delay 100;
    AnalogRead SOIL_SENSOR_PIN (frame_sample env t 4); Delay 100;
    DigitalWrite SOIL_POWER_PIN LOW ]
  ++ (if mlxSensorAvailable g
      then [ DigitalWrite MLX_POWER_PIN LOW; Delay 500;
             MlxGetObjectTemp (frame_temp env t);
             DigitalWrite MLX_POWER_PIN HIGH ]
      else [])
  ++ [ BoardGetBatteryLevel (frame_battery env g t);
       LmhSend (frame_app_data env g t) LMH_UNCONFIRMED_MSG
               (lmh_send_result env (S (frame_battery_tick g t))) ].

(** ** Vocabulary of the proofs *)

Definition b2z (b : bool) : Z := if b then 1 else 0.

(** After [k] one-bit shifts of [M], the record holds the quotient and the
    rounding bit; what was shifted out below the rounding bit is [rest]. *)
Definition shr_inv (M k : Z) (r : shr_record) : Prop :=
  0 <= shr_m r /\
  exists rest, 2 * M = (2 * shr_m r + b2z (shr_r r)) * 2 ^ k + rest /\ 0 <= rest < 2 ^ k.

Definition float_eqb (x y : F32.float) : bool :=
  match x, y with
  | S754_zero s, S754_zero s' => Bool.eqb s s'
  | S754_infinity s, S754_infinity s' => Bool.eqb s s'
  | S754_nan, S754_nan => true
  | S754_finite s m e, S754_finite s' m' e' => Bool.eqb s s' && Pos.eqb m m' && Z.eqb e e'
  | _, _ => false
  end.

(** The integers [lo], [lo + 1], ..., [lo + n - 1]. *)
Definition Zrange (lo : Z) (n : nat) : list Z :=
  List.map (fun i => lo + Z.of_nat i) (seq 0 n).

(** [p] returns, changes neither globals nor query counter, and only prints. *)
Definition quiet (p : M unit) : Prop :=
  forall env w, exists evs,
    p env w = Done tt {| globals := globals w; tick := tick w; trace := evs ++ trace w |}
    /\ hw evs = [].

(** Whatever [p] does, the events it adds all satisfy [P]. *)
Definition emits_only {A} (P : event -> Prop) (p : M A) : Prop :=
  forall env w, exists new,
    trace (world_of (p env w)) = new ++ trace w /\ Forall P new.

(** [p] returns whatever the environment answers. *)
Definition terminates {A} (p : M A) : Prop :=
  forall env w, exists a w', p env w = Done a w'.

(** The shape every uplink must have. *)
Definition uplink_shape (e : event) : Prop :=
  match e with
  | LmhSend data confirm _ =>
      confirm = LMH_UNCONFIRMED_MSG /\ buffsize data = 6 /\ port data = 2
      /\ List.length (buffer data) = 6%nat
  | _ => True
  end.

(** ** Assumptions on the environment *)

(** Every ADC sample is a non-negative number of at most 24 bits (the SAADC
    of the nRF52840 delivers at most 14). *)
Definition adc_in_range (env : Env) : Prop :=
  forall n, 0 <= analogRead_value env n < 2 ^ 24.

(** Every temperature the driver returns is a binary32 value. *)
Definition temperatures_valid (env : Env) : Prop :=
  forall n, F32.valid (mlx_getObjectTemp_value env n) = true.

(** An environment to run the sketch in: the serial port is ready at the
    third poll, the sensor answers at its second address, the radio works. *)
Definition example_env : Env := {|
  compiler_version := "9.3.1";
  Serial_ready := fun n => Nat.leb 2 n;
  analogRead_value := fun n => 2000 + Z.of_nat (Nat.min n 4);
  mlx_begin_result := fun n => (Nat.leb 4 n, SENSOR_SUCCESS);
  mlx_getObjectTemp_value := fun _ => S754_finite false 11141119 (-17);
  lora_rak4630_init_result := 0;
  lmh_init_result := LMH_SUCCESS;
  lmh_join_status := fun _ => true;
  lmh_send_result := fun _ => LMH_SUCCESS;
  millis_value := fun n => 1000 * Z.of_nat n;
  BoardGetBatteryLevel_value := fun _ => 254
|}.

(** ** The probing schedule, as the specification words it

    Two candidate addresses, 0x3A then 0x3B, tried in up to three rounds;
    probing stops after the first probe that reports success. *)

Definition probe_round : list Z := [0x3A; 0x3B].

Definition probe_candidates : list Z := probe_round ++ probe_round ++ probe_round.

(** A probe reports success when [begin] returns true with status
    [SENSOR_SUCCESS]. *)
Definition probe_reports_success (r : bool * mlx_status) : bool :=
  fst r && mlx_status_is_success (snd r).

Definition probe_event_succeeded (e : event) : bool :=
  match e with
  | MlxBegin _ ok st => probe_reports_success (ok, st)
  | _ => false
  end.

(** The probes made when the answers are those the environment gives from
    query [t] on. *)
Fixpoint probes_until_success (candidates : list Z) (env : Env) (t : nat) : list event :=
  match candidates with
  | [] => []
  | addr :: rest =>
      let r := mlx_begin_result env t in
      MlxBegin addr (fst r) (snd r)
      :: (if probe_reports_success r then [] else probes_until_success rest env (S t))
  end.

Definition probe_address (e : event) : Z :=
  match e with
  | MlxBegin addr _ _ => addr
  | _ => 0
  end.

(** The events of [fuel] rounds of a halting loop, newest first. *)
Fixpoint halt_trace (msg : string) (fuel : nat) : list event :=
  match fuel with
  | O => []
  | S fuel' => halt_trace msg fuel' ++ [Delay 10000; Serial (Str msg) true]
  end.

(** The halting line that belongs to the failure the environment produces. *)
Definition halt_message (env : Env) : string :=
  if lora_rak4630_init_result env =? 0 then halt_message_stack else halt_message_lora.

(** The condition of lines 235-236 when [loop] starts in world [w]. *)
Definition retry_due (env : Env) (w : World) : bool :=
  negb (lmh_join_status env (tick w))
  && negb (joinInProgress (globals w))
  && (JOIN_RETRY_INTERVAL
      <? CInt.to_uint32 (CInt.to_uint32 (millis_value env (S (tick w)))
                         - lastJoinAttempt (globals w))).

(** An environment whose radio chip fails to initialise. *)
Definition failing_env : Env := {|
  compiler_version := compiler_version example_env;
  Serial_ready := Serial_ready example_env;
  analogRead_value := analogRead_value example_env;
  mlx_begin_result := mlx_begin_result example_env;
  mlx_getObjectTemp_value := mlx_getObjectTemp_value example_env;
  lora_rak4630_init_result := -1;
  lmh_init_result := lmh_init_result example_env;
  lmh_join_status := lmh_join_status example_env;
  lmh_send_result := lmh_send_result example_env;
  millis_value := millis_value example_env;
  BoardGetBatteryLevel_value := BoardGetBatteryLevel_value example_env
|}.

(** Whatever [p] does, the value of [f] on the globals is the same after. *)
Definition keeps {A X} (f : Globals -> X) (p : M A) : Prop :=
  forall env w, f (globals (world_of (p env w))) = f (globals w).

(** ** Further observations *)

Definition is_digital_write (e : event) : bool :=
  match e with
  | DigitalWrite _ _ => true
  | _ => false
  end.

Definition is_delay (e : event) : bool :=
  match e with
  | Delay _ => true
  | _ => false
  end.

Definition is_battery_read (e : event) : bool :=
  match e with
  | BoardGetBatteryLevel _ => true
  | _ => false
  end.

Definition is_irq (e : event) : bool :=
  match e with
  | RadioIrqProcess => true
  | _ => false
  end.

(** The condition of line 250 when lines 249-253 start at query [t] with
    globals [g]. *)
Definition send_due (env : Env) (g : Globals) (t : nat) : bool :=
  lmh_join_status env t
  && (SENSOR_INTERVAL
      <=? CInt.to_uint32 (CInt.to_uint32 (millis_value env (S t)) - lastSensorRead g)).

(** An environment in which the network is never joined. *)
Definition offline_env : Env := {|
  compiler_version := compiler_version example_env;
  Serial_ready := Serial_ready example_env;
  analogRead_value := analogRead_value example_env;
  mlx_begin_result := mlx_begin_result example_env;
  mlx_getObjectTemp_value := mlx_getObjectTemp_value example_env;
  lora_rak4630_init_result := lora_rak4630_init_result example_env;
  lmh_init_result := lmh_init_result example_env;
  lmh_join_status := fun _ => false;
  lmh_send_result := lmh_send_result example_env;
  millis_value := millis_value example_env;
  BoardGetBatteryLevel_value := BoardGetBatteryLevel_value example_env
|}.

(** An environment without a serial monitor: [Serial] never becomes ready. *)
Definition headless_env : Env := {|
  compiler_version := compiler_version example_env;
  Serial_ready := fun _ => false;
  analogRead_value := analogRead_value example_env;
  mlx_begin_result := mlx_begin_result example_env;
  mlx_getObjectTemp_value := mlx_getObjectTemp_value example_env;
  lora_rak4630_init_result := lora_rak4630_init_result example_env;
  lmh_init_result := lmh_init_result example_env;
  lmh_join_status := lmh_join_status example_env;
  lmh_send_result := lmh_send_result example_env;
  millis_value := millis_value example_env;
  BoardGetBatteryLevel_value := BoardGetBatteryLevel_value example_env
|}.

(** The events of [fuel] rounds of the wait for the serial port, newest
    first. *)
Fixpoint serial_wait_trace (fuel : nat) : list event :=
  match fuel with
  | O => []
  | S fuel' => serial_wait_trace fuel' ++ [Delay 10]
  end.

(** Power switching and traffic on the temperature sensor's bus. *)
Definition is_sensor_activity (e : event) : bool :=
  is_digital_write e || is_probe e || is_temp_read e.

Definition is_clock_read (e : event) : bool :=
  match e with
  | Millis _ => true
  | _ => false
  end.

(** Calls into the radio driver or the LoRaWAN stack. *)
Definition is_radio_request (e : event) : bool :=
  match e with
  | LoraRak4630Init _ | LmhInit _
  | LmhSetDevEui _ | LmhSetAppEui _ | LmhSetAppKey _
  | LmhJoin | LmhJoinStatusGet _ | LmhClassRequest _ | LmhSend _ _ _
  | RadioIrqProcess => true
  | _ => false
  end.

(** * Proofs *)

(** ** binary32: rounding, comparison and truncation *)

Lemma digits2_pos_bounds (p : positive) :
  2 ^ (Zpos (digits2_pos p) - 1) <= Zpos p < 2 ^ Zpos (digits2_pos p).
Proof.
  induction p as [p IH | p IH | ]; cbn [digits2_pos].
  - rewrite Pos2Z.inj_succ.
    replace (Z.succ (Zpos (digits2_pos p)) - 1) with (Z.succ (Zpos (digits2_pos p) - 1)) by lia.
    rewrite !Z.pow_succ_r by lia. lia.
  - rewrite Pos2Z.inj_succ.
    replace (Z.succ (Zpos (digits2_pos p)) - 1) with (Z.succ (Zpos (digits2_pos p) - 1)) by lia.
    rewrite !Z.pow_succ_r by lia. lia.
  - cbn. lia.
Qed.

Lemma shr_inv_init M : 0 <= M -> shr_inv M 0 (shr_record_of_loc M loc_Exact).
Proof.
  intros HM. split; [exact HM|]. exists 0. cbn [shr_record_of_loc shr_m shr_r b2z]. 
  rewrite Z.pow_0_r. lia.
Qed.

Lemma shr_inv_step M k r : 0 <= k -> shr_inv M k r -> shr_inv M (k + 1) (shr_1 r).
Proof.
  intros Hk [Hm [rest [E Hr]]].
  destruct r as [m rb sb]. cbn [shr_m shr_r] in *.
  assert (P : 2 ^ (k + 1) = 2 * 2 ^ k) by (rewrite Z.pow_add_r, Z.pow_1_r by lia; lia).
  assert (0 < 2 ^ k) by (apply Z.pow_pos_nonneg; lia).
  unfold shr_inv. rewrite P.
  destruct m as [ | [p | p | ] | p ]; try lia; cbn [shr_1 shr_m shr_r b2z];
    (split; [lia|]); exists (b2z rb * 2 ^ k + rest); destruct rb; cbn [b2z orb] in *; lia.
Qed.

Lemma shr_inv_iter M p : forall k r,
  0 <= k -> shr_inv M k r -> shr_inv M (k + Zpos p) (iter_pos shr_1 p r).
Proof.
  induction p as [p IH | p IH | ]; intros k r Hk H; cbn [iter_pos].
  - replace (k + Zpos p~1) with (k + 1 + Zpos p + Zpos p) by lia.
    apply IH; [lia|]. apply IH; [lia|]. apply shr_inv_step; assumption.
  - replace (k + Zpos p~0) with (k + Zpos p + Zpos p) by lia.
    apply IH; [lia|]. apply IH; assumption.
  - apply shr_inv_step; assumption.
Qed.

Lemma shr_inv_shr M r e n :
  shr_inv M 0 r ->
  shr_inv M (Z.max 0 n) (fst (shr r e n)) /\ snd (shr r e n) = e + Z.max 0 n.
Proof.
  intros H. destruct n as [ | p | p ]; cbn [shr fst snd].
  - rewrite Z.max_l by lia. split; [assumption | lia].
  - rewrite Z.max_r by lia. split; [|lia].
    apply (shr_inv_iter M p 0 r); [lia | assumption].
  - rewrite Z.max_l by lia. split; [assumption | lia].
Qed.

Lemma round_nearest_even_bounds r :
  shr_m r <= round_nearest_even (shr_m r) (loc_of_shr_record r) <= shr_m r + b2z (shr_r r).
Proof.
  destruct r as [m [|] [|]]; cbn [shr_m shr_r loc_of_shr_record round_nearest_even b2z];
    try destruct (Z.even m); lia.
Qed.

Lemma binary_round_aux_upper s (M : positive) E :
  exists m2 K,
    0 <= m2 /\
    Z.max 0 (fexp F32.prec F32.emax (Zpos (digits2_pos M) + E) - E) <= K /\
    2 * m2 * 2 ^ K
      <= 2 * Zpos M + 2 ^ Z.max 0 (fexp F32.prec F32.emax (Zpos (digits2_pos M) + E) - E) /\
    binary_round_aux F32.prec F32.emax s (Zpos M) E loc_Exact =
      match m2 with
      | Z0 => S754_zero s
      | Zpos p =>
          if E + K <=? F32.emax - F32.prec then S754_finite s p (E + K)
          else S754_infinity s
      | Zneg _ => S754_nan
      end.
Proof.
  unfold binary_round_aux, shr_fexp. cbn [Zdigits2].
  set (n1 := fexp F32.prec F32.emax (Zpos (digits2_pos M) + E) - E).
  destruct (shr_inv_shr (Zpos M) (shr_record_of_loc (Zpos M) loc_Exact) E n1
              (shr_inv_init _ (Pos2Z.is_nonneg M))) as [I1 E1].
  destruct (shr (shr_record_of_loc (Zpos M) loc_Exact) E n1) as [r1 e1].
  cbn [fst snd] in I1, E1.
  pose proof (round_nearest_even_bounds r1) as HR.
  set (R := round_nearest_even (shr_m r1) (loc_of_shr_record r1)) in *.
  destruct I1 as [Hm1 [rest1 [Eq1 Hrest1]]].
  set (n2 := fexp F32.prec F32.emax (Zdigits2 R + e1) - e1).
  assert (HR0 : 0 <= R) by lia.
  destruct (shr_inv_shr R (shr_record_of_loc R loc_Exact) e1 n2 (shr_inv_init _ HR0))
    as [I2 E2].
  destruct (shr (shr_record_of_loc R loc_Exact) e1 n2) as [r2 e2].
  cbn [fst snd] in I2, E2.
  destruct I2 as [Hm2 [rest2 [Eq2 Hrest2]]].
  exists (shr_m r2), (Z.max 0 n1 + Z.max 0 n2).
  assert (P1 : 0 < 2 ^ Z.max 0 n1) by (apply Z.pow_pos_nonneg; lia).
  assert (P2 : 0 < 2 ^ Z.max 0 n2) by (apply Z.pow_pos_nonneg; lia).
  repeat split.
  - exact Hm2.
  - lia.
  - rewrite Z.pow_add_r by lia.
    assert (B : 0 <= b2z (shr_r r1) <= 1) by (destruct (shr_r r1); cbn; lia).
    assert (B2 : 0 <= b2z (shr_r r2)) by (destruct (shr_r r2); cbn; lia).
    assert (S2 : 2 * shr_m r2 * 2 ^ Z.max 0 n2 <= 2 * R) by nia.
    assert (S1 : 2 * R * 2 ^ Z.max 0 n1 <= 2 * Zpos M + 2 ^ Z.max 0 n1) by nia.
    nia.
  - subst e2 e1. rewrite Z.add_assoc. reflexivity.
Qed.

Lemma valid_finite_bounds s m e :
  F32.valid (S754_finite s m e) = true ->
  Zpos m < 2 ^ 24 /\ -149 <= e <= 104.
Proof.
  unfold F32.valid, valid_binary, bounded, canonical_mantissa, fexp, emin, F32.prec, F32.emax.
  intros H. apply andb_true_iff in H. destruct H as [H1 H2].
  apply Z.eqb_eq in H1. apply Z.leb_le in H2.
  pose proof (digits2_pos_bounds m) as [_ D].
  assert (Zpos (digits2_pos m) <= 24) by lia.
  split; [|lia].
  eapply Z.lt_le_trans; [exact D|]. apply Z.pow_le_mono_r; lia.
Qed.

Lemma pow2_lt_inv a b : 0 <= b -> 2 ^ a < 2 ^ b -> a < b.
Proof.
  intros Hb H. destruct (Z_lt_le_dec a b) as [L | L]; [exact L|].
  exfalso. assert (2 ^ b <= 2 ^ a) by (apply Z.pow_le_mono_r; lia). lia.
Qed.

Lemma mul_100_trunc_bound s m e B :
  F32.valid (S754_finite s m e) = true ->
  e <= 17 -> 0 < B <= 2 ^ 14 ->
  2 * (Zpos m * 13107200) + 2 ^ 24 < 2 * B * 2 ^ (17 - e) ->
  exists v,
    F32.trunc (F32.mul (S754_finite s m e) (F32.of_int 100)) = cond_Zopp s v /\
    0 <= v < B.
Proof.
  intros V He HB Hlt.
  destruct (valid_finite_bounds _ _ _ V) as [Hm Hexp].
  change (F32.of_int 100) with (S754_finite false 13107200 (-17)).
  unfold F32.mul. cbn [SFmul]. rewrite xorb_false_r.
  destruct (binary_round_aux_upper s (m * 13107200) (e + -17)) as (m2 & K & Hm2 & HK & Hle & ->).
  set (k1 := Z.max 0 (fexp F32.prec F32.emax (Zpos (digits2_pos (m * 13107200)) + (e + -17))
                      - (e + -17))) in *.
  assert (Hk1 : 0 <= k1 <= 24).
  { subst k1. unfold fexp, emin, F32.prec, F32.emax.
    pose proof (digits2_pos_bounds (m * 13107200)) as [D _].
    assert (Zpos (digits2_pos (m * 13107200)) - 1 < 48).
    { apply pow2_lt_inv; [lia|]. eapply Z.le_lt_trans; [exact D|].
      rewrite Pos2Z.inj_mul. change (2 ^ 48) with (2 ^ 24 * 2 ^ 24).
      change (2 ^ 24) with 16777216 in *. nia. }
    lia. }
  assert (P24 : 2 ^ k1 <= 2 ^ 24) by (apply Z.pow_le_mono_r; lia).
  rewrite Pos2Z.inj_mul in Hle.
  set (n := 17 - e) in *.
  assert (Hn : 0 <= n) by (subst n; lia).
  assert (Pn : 0 < 2 ^ n) by (apply Z.pow_pos_nonneg; lia).
  assert (PK : 0 < 2 ^ K) by (apply Z.pow_pos_nonneg; lia).
  assert (Hval : m2 * 2 ^ K < B * 2 ^ n) by lia.
  replace (e + -17 + K) with (K - n) by (subst n; lia).
  destruct m2 as [ | p | p ]; [ | | lia ].
  - exists 0. destruct s; cbn; lia.
  - assert (HKn : K - n < 14).
    { assert (2 ^ K < 2 ^ (n + 14)).
      { rewrite Z.pow_add_r by lia. change (2 ^ 14) with 16384 in *. nia. }
      apply pow2_lt_inv in H; lia. }
    replace (K - n <=? F32.emax - F32.prec) with true
      by (symmetry; apply Z.leb_le; unfold F32.emax, F32.prec; lia).
    cbn [F32.trunc]. exists (Z.shiftl (Zpos p) (K - n)). split; [reflexivity|].
    destruct (Z_le_gt_dec n K) as [L | L].
    + rewrite Z.shiftl_mul_pow2 by lia.
      assert (Q : 2 ^ K = 2 ^ (K - n) * 2 ^ n)
        by (rewrite <- Z.pow_add_r by lia; f_equal; lia).
      assert (0 < 2 ^ (K - n)) by (apply Z.pow_pos_nonneg; lia).
      rewrite Q in Hval. nia.
    + rewrite Z.shiftl_div_pow2 by lia.
      replace (- (K - n)) with (n - K) by lia.
      assert (Q : 2 ^ n = 2 ^ (n - K) * 2 ^ K)
        by (rewrite <- Z.pow_add_r by lia; f_equal; lia).
      assert (0 < 2 ^ (n - K)) by (apply Z.pow_pos_nonneg; lia).
      split; [apply Z.div_pos; lia|].
      apply Z.div_lt_upper_bound; [lia|]. rewrite Q in Hval. nia.
Qed.

Lemma ltb_finite_pos m1 e1 m2 e2 :
  F32.ltb (S754_finite false m1 e1) (S754_finite false m2 e2) = true <->
  e1 < e2 \/ (e1 = e2 /\ Zpos m1 < Zpos m2).
Proof.
  unfold F32.ltb, SFltb. cbn [SFcompare].
  change (Pos.compare_cont Eq m1 m2) with (Pos.compare m1 m2).
  destruct (Z.compare_spec e1 e2) as [E | E | E].
  - destruct (Pos.compare_spec m1 m2) as [C | C | C]; split; intros H;
      try discriminate; try lia; try reflexivity.
  - split; [lia | reflexivity].
  - split; [discriminate | lia].
Qed.

Lemma ltb_finite_neg m1 e1 m2 e2 :
  F32.ltb (S754_finite true m1 e1) (S754_finite true m2 e2) = true <->
  e2 < e1 \/ (e2 = e1 /\ Zpos m2 < Zpos m1).
Proof.
  unfold F32.ltb, SFltb. cbn [SFcompare].
  change (Pos.compare_cont Eq m1 m2) with (Pos.compare m1 m2).
  destruct (Z.compare_spec e1 e2) as [E | E | E].
  - destruct (Pos.compare_spec m1 m2) as [C | C | C]; cbn [CompOpp]; split; intros H;
      try discriminate; try lia; try reflexivity.
  - split; [discriminate | lia].
  - split; [lia | reflexivity].
Qed.

Lemma ltb_85_inv m e :
  F32.ltb (S754_finite false m e) (F32.of_int 85) = true <->
  e < -17 \/ (e = -17 /\ Zpos m < 11141120).
Proof.
  change (F32.of_int 85) with (S754_finite false 11141120 (-17)).
  apply ltb_finite_pos.
Qed.

Lemma ltb_m40_inv m e :
  F32.ltb (F32.of_int (-40)) (S754_finite true m e) = true <->
  e < -18 \/ (e = -18 /\ Zpos m < 10485760).
Proof.
  change (F32.of_int (-40)) with (S754_finite true 10485760 (-18)).
  apply ltb_finite_neg.
Qed.

Lemma temp_accepted_trunc_range t :
  F32.valid t = true ->
  temp_accepted t = true ->
  -4000 < F32.trunc (F32.mul t (F32.of_int 100)) < 8500.
Proof.
  intros V A. unfold temp_accepted in A.
  apply andb_true_iff in A. destruct A as [A H85].
  apply andb_true_iff in A. destruct A as [Hnan H40].
  destruct t as [s | s | | s m e]; try discriminate.
  - change (F32.of_int 100) with (S754_finite false 13107200 (-17)). cbn. lia.
  - destruct s; discriminate.
  - destruct (valid_finite_bounds _ _ _ V) as [Hm He].
    destruct s.
    + apply ltb_m40_inv in H40.
      destruct (mul_100_trunc_bound true m e 4000 V) as (v & -> & Hv).
      * lia.
      * change (2 ^ 14) with 16384. lia.
      * destruct H40 as [L | [-> L]].
        -- assert (2 ^ 36 <= 2 ^ (17 - e)) by (apply Z.pow_le_mono_r; lia).
           change (2 ^ 36) with 68719476736 in *. change (2 ^ 24) with 16777216 in *. lia.
        -- change (2 ^ (17 - -18)) with 34359738368. change (2 ^ 24) with 16777216. lia.
      * cbn [cond_Zopp]. lia.
    + apply ltb_85_inv in H85.
      destruct (mul_100_trunc_bound false m e 8500 V) as (v & -> & Hv).
      * lia.
      * change (2 ^ 14) with 16384. lia.
      * destruct H85 as [L | [-> L]].
        -- assert (2 ^ 35 <= 2 ^ (17 - e)) by (apply Z.pow_le_mono_r; lia).
           change (2 ^ 35) with 34359738368 in *. change (2 ^ 24) with 16777216 in *. lia.
        -- change (2 ^ (17 - -17)) with 17179869184. change (2 ^ 24) with 16777216. lia.
      * cbn [cond_Zopp]. lia.
Qed.

Lemma valid_normal s m e :
  F32.valid (S754_finite s m e) = true -> -149 < e -> 2 ^ 23 <= Zpos m.
Proof.
  unfold F32.valid, valid_binary, bounded, canonical_mantissa, fexp, emin, F32.prec, F32.emax.
  intros H He. apply andb_true_iff in H. destruct H as [H1 _].
  apply Z.eqb_eq in H1.
  pose proof (digits2_pos_bounds m) as [D _].
  replace (Zpos (digits2_pos m) - 1) with 23 in D by lia. exact D.
Qed.

Lemma to_Q_pos_lt_85 m e :
  F32.valid (S754_finite false m e) = true ->
  (F32.to_Q (S754_finite false m e) < 85)%Q <->
  e < -17 \/ (e = -17 /\ Zpos m < 11141120).
Proof.
  intros V. destruct (valid_finite_bounds _ _ _ V) as [Hm He].
  change (2 ^ 24) with 16777216 in Hm.
  unfold F32.to_Q, Qlt. cbn [cond_Zopp].
  destruct (Z.leb_spec 0 e) as [L | L]; cbn [Qnum Qden inject_Z].
  - pose proof (valid_normal _ _ _ V ltac:(lia)) as N. change (2 ^ 23) with 8388608 in N.
    assert (P1 : 1 <= 2 ^ e) by (apply (Z.pow_le_mono_r 2 0 e); lia).
    split; intros H; [nia | lia].
  - rewrite Z2Pos.id by (apply Z.pow_pos_nonneg; lia).
    destruct (Z.lt_total e (-17)) as [E | [E | E]].
    + assert (P2 : 2 ^ 18 <= 2 ^ (- e)) by (apply Z.pow_le_mono_r; lia).
      change (2 ^ 18) with 262144 in *. split; intros _; [lia | nia].
    + subst e. change (2 ^ (- -17)) with 131072. split; intros; lia.
    + pose proof (valid_normal _ _ _ V ltac:(lia)) as N. change (2 ^ 23) with 8388608 in N.
      assert (P3 : 2 ^ (- e) <= 2 ^ 16) by (apply Z.pow_le_mono_r; lia).
      change (2 ^ 16) with 65536 in *. split; intros H; [nia | lia].
Qed.

Lemma to_Q_neg_gt_m40 m e :
  F32.valid (S754_finite true m e) = true ->
  (-40 < F32.to_Q (S754_finite true m e))%Q <->
  e < -18 \/ (e = -18 /\ Zpos m < 10485760).
Proof.
  intros V. destruct (valid_finite_bounds _ _ _ V) as [Hm He].
  change (2 ^ 24) with 16777216 in Hm.
  unfold F32.to_Q, Qlt. cbn [cond_Zopp].
  destruct (Z.leb_spec 0 e) as [L | L]; cbn [Qnum Qden inject_Z].
  - pose proof (valid_normal _ _ _ V ltac:(lia)) as N. change (2 ^ 23) with 8388608 in N.
    assert (P1 : 1 <= 2 ^ e) by (apply (Z.pow_le_mono_r 2 0 e); lia).
    split; intros H; [nia | lia].
  - rewrite Z2Pos.id by (apply Z.pow_pos_nonneg; lia).
    destruct (Z.lt_total e (-18)) as [E | [E | E]].
    + assert (P2 : 2 ^ 19 <= 2 ^ (- e)) by (apply Z.pow_le_mono_r; lia).
      change (2 ^ 19) with 524288 in *. split; intros _; [lia | nia].
    + subst e. change (2 ^ (- -18)) with 262144. split; intros; lia.
    + pose proof (valid_normal _ _ _ V ltac:(lia)) as N. change (2 ^ 23) with 8388608 in N.
      assert (P3 : 2 ^ (- e) <= 2 ^ 17) by (apply Z.pow_le_mono_r; lia).
      change (2 ^ 17) with 131072 in *. split; intros H; [nia | lia].
Qed.

Lemma to_Q_sign_pos m e : (0 < F32.to_Q (S754_finite false m e))%Q.
Proof.
  unfold F32.to_Q, Qlt. cbn [cond_Zopp].
  destruct (Z.leb_spec 0 e); cbn [Qnum Qden inject_Z].
  - assert (0 < 2 ^ e) by (apply Z.pow_pos_nonneg; lia). nia.
  - lia.
Qed.

Lemma to_Q_sign_neg m e : (F32.to_Q (S754_finite true m e) < 0)%Q.
Proof.
  unfold F32.to_Q, Qlt. cbn [cond_Zopp].
  destruct (Z.leb_spec 0 e); cbn [Qnum Qden inject_Z].
  - assert (0 < 2 ^ e) by (apply Z.pow_pos_nonneg; lia). nia.
  - lia.
Qed.

(** The acceptance test of line 311 is the open band (-40, 85) on the
    number the float stands for. *)
Lemma temp_accepted_iff t :
  F32.valid t = true ->
  temp_accepted t = true <->
  F32.is_finite t = true /\ (-40 < F32.to_Q t)%Q /\ (F32.to_Q t < 85)%Q.
Proof.
  intros V. unfold temp_accepted.
  destruct t as [s | s | | s m e].
  - split; [intros _ | intros _; destruct s; reflexivity].
    split; [reflexivity|]. cbn. split; reflexivity.
  - split; [destruct s; discriminate | intros [F _]; discriminate].
  - split; [discriminate | intros [F _]; discriminate].
  - destruct s.
    + cbn [F32.isnan negb andb F32.is_finite].
      pose proof (to_Q_sign_neg m e) as Sg.
      assert (L : F32.ltb (S754_finite true m e) (F32.of_int 85) = true) by reflexivity.
      rewrite L, andb_true_r.
      split.
      * intros H. split; [reflexivity|]. split.
        -- apply to_Q_neg_gt_m40; [assumption|]. apply ltb_m40_inv. assumption.
        -- eapply Qlt_trans; [exact Sg | reflexivity].
      * intros (_ & H & _). apply ltb_m40_inv. apply to_Q_neg_gt_m40 in H; assumption.
    + cbn [F32.isnan negb andb F32.is_finite].
      pose proof (to_Q_sign_pos m e) as Sg.
      assert (L : F32.ltb (F32.of_int (-40)) (S754_finite false m e) = true) by reflexivity.
      rewrite L. cbn [andb].
      split.
      * intros H. split; [reflexivity|]. split.
        -- eapply Qlt_trans; [|exact Sg]. reflexivity.
        -- apply to_Q_pos_lt_85; [assumption|]. apply ltb_85_inv. assumption.
      * intros (_ & _ & H). apply ltb_85_inv. apply to_Q_pos_lt_85 in H; assumption.
Qed.

Lemma digits2_pos_iter_xO p k :
  Zpos (digits2_pos (Pos.iter xO p k)) = Zpos (digits2_pos p) + Zpos k.
Proof.
  induction k as [ | k IH] using Pos.peano_ind.
  - cbn [Pos.iter digits2_pos]. lia.
  - rewrite Pos.iter_succ. cbn [digits2_pos]. lia.
Qed.

Lemma binary_round_aux_canonical s m e :
  fexp F32.prec F32.emax (Zpos (digits2_pos m) + e) = e ->
  e <= F32.emax - F32.prec ->
  binary_round_aux F32.prec F32.emax s (Zpos m) e loc_Exact = S754_finite s m e.
Proof.
  intros C L. unfold binary_round_aux, shr_fexp. cbn [Zdigits2].
  rewrite C, Z.sub_diag. cbn [shr shr_record_of_loc shr_m loc_of_shr_record round_nearest_even].
  cbn [Zdigits2]. rewrite C, Z.sub_diag. cbn [shr shr_record_of_loc shr_m].
  apply Z.leb_le in L. rewrite L. reflexivity.
Qed.

Lemma of_int_neg_small p :
  Zpos p < 2 ^ 24 ->
  exists m e, F32.of_int (Zneg p) = S754_finite true m e.
Proof.
  intros Hp. unfold F32.of_int, binary_normalize, binary_round.
  pose proof (digits2_pos_bounds p) as [D _].
  assert (Hd : Zpos (digits2_pos p) <= 24).
  { assert (Zpos (digits2_pos p) - 1 < 24); [|lia].
    apply pow2_lt_inv; lia. }
  assert (F : fexp F32.prec F32.emax (Zpos (digits2_pos p) + 0) = Zpos (digits2_pos p) - 24).
  { unfold fexp, emin, F32.prec, F32.emax. lia. }
  rewrite F. unfold shl_align.
  destruct (Zpos (digits2_pos p) - 24 - 0) as [ | k | k ] eqn:K.
  - rewrite binary_round_aux_canonical; [eauto | | unfold F32.emax, F32.prec; lia].
    unfold fexp, emin, F32.prec, F32.emax. lia.
  - lia.
  - rewrite binary_round_aux_canonical; [eauto | | unfold F32.emax, F32.prec; lia].
    rewrite digits2_pos_iter_xO. unfold fexp, emin, F32.prec, F32.emax. lia.
Qed.

(** ** Traces *)

Lemma hw_app l1 l2 : hw (l1 ++ l2) = hw l1 ++ hw l2.
Proof. apply filter_app. Qed.

Lemma hw_rev l : hw (rev l) = rev (hw l).
Proof.
  unfold hw. induction l as [ | a l IH]; [reflexivity|].
  cbn [rev filter]. rewrite filter_app, IH. cbn [filter].
  destruct (negb (is_serial a)); cbn [rev app].
  - reflexivity.
  - rewrite app_nil_r. reflexivity.
Qed.

Lemma hw_cons_serial item nl l : hw (Serial item nl :: l) = hw l.
Proof. reflexivity. Qed.

Lemma hw_quiet evs l : hw evs = [] -> hw (evs ++ l) = hw l.
Proof. intros Q. rewrite hw_app, Q. reflexivity. Qed.

(** From the stored trace (newest first) to the events in order. *)
Lemma hw_events_of_trace (w w' : World) (new : list event) :
  hw (trace w') = rev new ++ hw (trace w) ->
  hw (events w') = hw (events w) ++ new.
Proof.
  intros H. unfold events. rewrite !hw_rev, H, rev_app_distr, rev_involutive. reflexivity.
Qed.

Lemma events_of_trace (w w' : World) (new : list event) :
  trace w' = new ++ trace w -> events w' = events w ++ rev new.
Proof. intros H. unfold events. rewrite H, rev_app_distr. reflexivity. Qed.

Ltac hw_norm :=
  repeat first
    [ rewrite hw_cons_serial
    | rewrite hw_quiet by assumption
    | progress cbn [hw filter is_serial negb] ].

(** ** Code that only prints *)

Lemma quiet_ret : quiet (ret tt).
Proof. intros env [g t tr]. exists []. split; reflexivity. Qed.

Lemma quiet_serial item nl : quiet (emit (Serial item nl)).
Proof. intros env w. exists [Serial item nl]. split; reflexivity. Qed.

Lemma quiet_seq p q : quiet p -> quiet q -> quiet (p ;; q).
Proof.
  intros Hp Hq env w. destruct (Hp env w) as (e1 & E1 & S1).
  unfold bind. rewrite E1.
  destruct (Hq env {| globals := globals w; tick := tick w; trace := e1 ++ trace w |})
    as (e2 & E2 & S2).
  rewrite E2. cbn [globals tick trace]. exists (e2 ++ e1). split.
  - rewrite app_assoc. reflexivity.
  - rewrite hw_app, S1, S2. reflexivity.
Qed.

Lemma quiet_when c p : quiet p -> quiet (when c p).
Proof. intros Hp. destruct c; [exact Hp | apply quiet_ret]. Qed.

Lemma quiet_for_ body : (forall i, quiet (body i)) -> forall n i, quiet (for_ n i body).
Proof.
  intros Hb n. induction n as [ | n IH]; intros i; cbn [for_].
  - apply quiet_ret.
  - apply quiet_seq; [apply Hb | apply IH].
Qed.

Lemma quiet_print_hex_bytes n data : quiet (print_hex_bytes n data).
Proof.
  unfold print_hex_bytes. apply quiet_for_. intros i. cbv zeta.
  repeat first [apply quiet_seq | apply quiet_when | apply quiet_serial].
Qed.

Lemma quiet_print_credential bytes : quiet (print_credential bytes).
Proof.
  unfold print_credential. apply quiet_for_. intros i. cbv zeta.
  repeat first [apply quiet_seq | apply quiet_when | apply quiet_serial].
Qed.

(** ** Events a piece of code can add *)

Section EmitsOnly.

Variable P : event -> Prop.

Lemma emits_only_ret {A} (a : A) : emits_only P (ret a).
Proof. intros env w. exists []. split; [reflexivity | constructor]. Qed.

Lemma emits_only_emit e : P e -> emits_only P (emit e).
Proof. intros H env w. exists [e]. split; [reflexivity | repeat constructor; exact H]. Qed.

Lemma emits_only_query {X} (f : Env -> nat -> X) : emits_only P (query f).
Proof. intros env w. exists []. split; [reflexivity | constructor]. Qed.

Lemma emits_only_constant {X} (f : Env -> X) : emits_only P (constant f).
Proof. intros env w. exists []. split; [reflexivity | constructor]. Qed.

Lemma emits_only_gets {X} (f : Globals -> X) : emits_only P (gets f).
Proof. intros env w. exists []. split; [reflexivity | constructor]. Qed.

Lemma emits_only_modify f : emits_only P (modify f).
Proof. intros env w. exists []. split; [reflexivity | constructor]. Qed.

Lemma emits_only_bind {A B} (m : M A) (k : A -> M B) :
  emits_only P m -> (forall a, emits_only P (k a)) -> emits_only P (bind m k).
Proof.
  intros Hm Hk env w. destruct (Hm env w) as (n1 & E1 & F1).
  unfold bind. destruct (m env w) as [a w1 | w1]; cbn [world_of] in E1.
  - destruct (Hk a env w1) as (n2 & E2 & F2).
    exists (n2 ++ n1). split.
    + rewrite E2, E1, app_assoc. reflexivity.
    + apply Forall_app. split; assumption.
  - exists n1. split; assumption.
Qed.

Lemma emits_only_when c p : emits_only P p -> emits_only P (when c p).
Proof. intros H. destruct c; [exact H | apply emits_only_ret]. Qed.

Lemma emits_only_and_then a b :
  emits_only P a -> emits_only P b -> emits_only P (and_then a b).
Proof.
  intros Ha Hb. unfold and_then. apply emits_only_bind; [exact Ha|].
  intros [|]; [exact Hb | apply emits_only_ret].
Qed.

Lemma emits_only_for_ body :
  (forall i, emits_only P (body i)) -> forall n i, emits_only P (for_ n i body).
Proof.
  intros Hb n. induction n as [ | n IH]; intros i; cbn [for_].
  - apply emits_only_ret.
  - apply emits_only_bind; [apply Hb | intros _; apply IH].
Qed.

Lemma emits_only_for_acc {S} (body : Z -> S -> M S) :
  (forall i s, emits_only P (body i s)) -> forall n i s, emits_only P (for_acc n i body s).
Proof.
  intros Hb n. induction n as [ | n IH]; intros i s; cbn [for_acc].
  - apply emits_only_ret.
  - apply emits_only_bind; [apply Hb | intros s'; apply IH].
Qed.

Lemma emits_only_while_ cond body :
  emits_only P cond -> emits_only P body -> forall fuel, emits_only P (while_ fuel cond body).
Proof.
  intros Hc Hb fuel. induction fuel as [ | fuel IH]; cbn [while_].
  - intros env w. exists []. split; [reflexivity | constructor].
  - apply emits_only_bind; [exact Hc|].
    intros [|]; [ | apply emits_only_ret].
    apply emits_only_bind; [exact Hb | intros _; exact IH].
Qed.

Lemma emits_only_quiet p :
  (forall item nl, P (Serial item nl)) -> quiet p -> emits_only P p.
Proof.
  intros HP Hq env w. destruct (Hq env w) as (evs & E & Hhw).
  exists evs. rewrite E. split; [reflexivity|].
  clear E. induction evs as [ | e evs IH]; [constructor|].
  destruct e; try discriminate Hhw. constructor; [apply HP | apply IH; exact Hhw].
Qed.

End EmitsOnly.

(** ** Code without unbounded loops returns *)

Lemma terminates_ret {A} (a : A) : terminates (ret a).
Proof. intros env w. eexists _, _. reflexivity. Qed.

Lemma terminates_emit e : terminates (emit e).
Proof. intros env w. eexists _, _. reflexivity. Qed.

Lemma terminates_query {X} (f : Env -> nat -> X) : terminates (query f).
Proof. intros env w. eexists _, _. reflexivity. Qed.

Lemma terminates_constant {X} (f : Env -> X) : terminates (constant f).
Proof. intros env w. eexists _, _. reflexivity. Qed.

Lemma terminates_gets {X} (f : Globals -> X) : terminates (gets f).
Proof. intros env w. eexists _, _. reflexivity. Qed.

Lemma terminates_modify f : terminates (modify f).
Proof. intros env w. eexists _, _. reflexivity. Qed.

Lemma terminates_bind {A B} (m : M A) (k : A -> M B) :
  terminates m -> (forall a, terminates (k a)) -> terminates (bind m k).
Proof.
  intros Hm Hk env w. destruct (Hm env w) as (a & w1 & E1).
  unfold bind. rewrite E1. apply Hk.
Qed.

Lemma terminates_when c p : terminates p -> terminates (when c p).
Proof. intros H. destruct c; [exact H | apply terminates_ret]. Qed.

Lemma terminates_and_then a b : terminates a -> terminates b -> terminates (and_then a b).
Proof.
  intros Ha Hb. unfold and_then. apply terminates_bind; [exact Ha|].
  intros [|]; [exact Hb | apply terminates_ret].
Qed.

Lemma terminates_for_ body :
  (forall i, terminates (body i)) -> forall n i, terminates (for_ n i body).
Proof.
  intros Hb n. induction n as [ | n IH]; intros i; cbn [for_].
  - apply terminates_ret.
  - apply terminates_bind; [apply Hb | intros _; apply IH].
Qed.

Lemma terminates_for_acc {S} (body : Z -> S -> M S) :
  (forall i s, terminates (body i s)) -> forall n i s, terminates (for_acc n i body s).
Proof.
  intros Hb n. induction n as [ | n IH]; intros i s; cbn [for_acc].
  - apply terminates_ret.
  - apply terminates_bind; [apply Hb | intros s'; apply IH].
Qed.

(** Structural proof search over the text of a program. *)
Ltac unfold_calls :=
  unfold println, print, print_int, println_int, print_float, print_hex, println_hex,
    Serial_begin, Serial_operator_bool, pinMode, digitalWrite, delay, Wire_begin,
    Wire_setClock, analogRead, millis, mlx_begin, mlx_getObjectTemp,
    BoardGetBatteryLevel_call, lora_rak4630_init, lmh_init, lmh_setDevEui, lmh_setAppEui,
    lmh_setAppKey, lmh_join, lmh_class_request, Radio_IrqProcess, lmh_join_status_get,
    lmh_send, print_hex_bytes, print_credential.

Ltac emits_only_step :=
  lazymatch goal with
  | |- emits_only _ (ret _) => apply emits_only_ret
  | |- emits_only _ (emit _) =>
      apply emits_only_emit; first [reflexivity | exact I | repeat split; reflexivity]
  | |- emits_only _ (query _) => apply emits_only_query
  | |- emits_only _ (constant _) => apply emits_only_constant
  | |- emits_only _ (gets _) => apply emits_only_gets
  | |- emits_only _ (modify _) => apply emits_only_modify
  | |- emits_only _ (when _ _) => apply emits_only_when
  | |- emits_only _ (and_then _ _) => apply emits_only_and_then
  | |- emits_only _ (for_ _ _ _) => apply emits_only_for_; intros ?
  | |- emits_only _ (for_acc _ _ _ _) => apply emits_only_for_acc; intros ? ?
  | |- emits_only _ (bind _ _) => apply emits_only_bind; [ | intros ?]
  | |- emits_only _ (if ?c then _ else _) => destruct c
  | |- emits_only _ (let _ := _ in _) => cbv zeta
  | |- emits_only _ (match ?c with _ => _ end) => destruct c
  | |- emits_only _ _ => progress unfold_calls
  end.

Ltac emits_only_auto := unfold_calls; repeat emits_only_step.

Ltac terminates_step :=
  lazymatch goal with
  | |- terminates (ret _) => apply terminates_ret
  | |- terminates (emit _) => apply terminates_emit
  | |- terminates (query _) => apply terminates_query
  | |- terminates (constant _) => apply terminates_constant
  | |- terminates (gets _) => apply terminates_gets
  | |- terminates (modify _) => apply terminates_modify
  | |- terminates (when _ _) => apply terminates_when
  | |- terminates (and_then _ _) => apply terminates_and_then
  | |- terminates (for_ _ _ _) => apply terminates_for_; intros ?
  | |- terminates (for_acc _ _ _ _) => apply terminates_for_acc; intros ? ?
  | |- terminates (bind _ _) => apply terminates_bind; [ | intros ?]
  | |- terminates (if ?c then _ else _) => destruct c
  | |- terminates (let _ := _ in _) => cbv zeta
  | |- terminates (match ?c with _ => _ end) => destruct c
  | |- terminates _ => progress unfold_calls
  end.

Ltac terminates_auto := unfold_calls; repeat terminates_step.

Lemma terminates_send_lora_frame : terminates send_lora_frame.
Proof. unfold send_lora_frame. terminates_auto. Qed.

Lemma terminates_setup_sensors : terminates setup_sensors.
Proof.
  unfold setup_sensors. cbn [setup_probe_attempts setup_probe_addresses]. terminates_auto.
Qed.

Lemma terminates_setup_join : terminates setup_join.
Proof. unfold setup_join. terminates_auto. Qed.

Lemma terminates_loop : terminates loop.
Proof.
  unfold loop, loop_join_retry, loop_send, loop_status, send_lora_frame. terminates_auto.
Qed.

(** ** Globals a piece of code leaves alone *)

Section Keeps.

Context {X : Type}.
Variable f : Globals -> X.

Lemma keeps_ret {A} (a : A) : keeps f (ret a).
Proof. intros env w. reflexivity. Qed.

Lemma keeps_emit e : keeps f (emit e).
Proof. intros env w. reflexivity. Qed.

Lemma keeps_query {Y} (q : Env -> nat -> Y) : keeps f (query q).
Proof. intros env w. reflexivity. Qed.

Lemma keeps_constant {Y} (q : Env -> Y) : keeps f (constant q).
Proof. intros env w. reflexivity. Qed.

Lemma keeps_gets {Y} (q : Globals -> Y) : keeps f (gets q).
Proof. intros env w. reflexivity. Qed.

Lemma keeps_modify u : (forall g, f (u g) = f g) -> keeps f (modify u).
Proof. intros H env w. apply H. Qed.

Lemma keeps_bind {A B} (m : M A) (k : A -> M B) :
  keeps f m -> (forall a, keeps f (k a)) -> keeps f (bind m k).
Proof.
  intros Hm Hk env w. specialize (Hm env w). unfold bind.
  destruct (m env w) as [a w1 | w1]; cbn [world_of] in *.
  - rewrite (Hk a env w1). exact Hm.
  - exact Hm.
Qed.

Lemma keeps_when c p : keeps f p -> keeps f (when c p).
Proof. intros H. destruct c; [exact H | apply keeps_ret]. Qed.

Lemma keeps_and_then a b : keeps f a -> keeps f b -> keeps f (and_then a b).
Proof.
  intros Ha Hb. unfold and_then. apply keeps_bind; [exact Ha | ].
  intros [|]; [exact Hb | apply keeps_ret].
Qed.

Lemma keeps_for_ body : (forall i, keeps f (body i)) -> forall n i, keeps f (for_ n i body).
Proof.
  intros Hb n. induction n as [ | n IH]; intros i; cbn [for_].
  - apply keeps_ret.
  - apply keeps_bind; [apply Hb | intros _; apply IH].
Qed.

Lemma keeps_for_acc {S} (body : Z -> S -> M S) :
  (forall i s, keeps f (body i s)) -> forall n i s, keeps f (for_acc n i body s).
Proof.
  intros Hb n. induction n as [ | n IH]; intros i s; cbn [for_acc].
  - apply keeps_ret.
  - apply keeps_bind; [apply Hb | intros s'; apply IH].
Qed.

Lemma keeps_while_ cond body :
  keeps f cond -> keeps f body -> forall fuel, keeps f (while_ fuel cond body).
Proof.
  intros Hc Hb fuel. induction fuel as [ | fuel IH]; cbn [while_].
  - intros env w. reflexivity.
  - apply keeps_bind; [exact Hc | ].
    intros [|]; [ | apply keeps_ret].
    apply keeps_bind; [exact Hb | intros _; exact IH].
Qed.

End Keeps.

Ltac keeps_step :=
  lazymatch goal with
  | |- keeps _ (ret _) => apply keeps_ret
  | |- keeps _ (emit _) => apply keeps_emit
  | |- keeps _ (query _) => apply keeps_query
  | |- keeps _ (constant _) => apply keeps_constant
  | |- keeps _ (gets _) => apply keeps_gets
  | |- keeps _ (modify _) => apply keeps_modify; intros ?; reflexivity
  | |- keeps _ (when _ _) => apply keeps_when
  | |- keeps _ (and_then _ _) => apply keeps_and_then
  | |- keeps _ (for_ _ _ _) => apply keeps_for_; intros ?
  | |- keeps _ (for_acc _ _ _ _) => apply keeps_for_acc; intros ? ?
  | |- keeps _ (while_ _ _ _) => apply keeps_while_
  | |- keeps _ (bind _ _) => apply keeps_bind; [ | intros ?]
  | |- keeps _ (if ?c then _ else _) => destruct c
  | |- keeps _ (let _ := _ in _) => cbv zeta
  | |- keeps _ (match ?c with _ => _ end) => destruct c
  | |- keeps _ _ => progress unfold_calls
  end.

Ltac keeps_auto := unfold_calls; repeat keeps_step.

Lemma bind_done {A B} (m : M A) (k : A -> M B) env w a w' :
  m env w = Done a w' -> bind m k env w = k a env w'.
Proof. intros E. unfold bind. rewrite E. reflexivity. Qed.

(** ** Machine integers and the byte pairs of the payload *)

Lemma to_int32_small z : - 2 ^ 31 <= z < 2 ^ 31 -> CInt.to_int32 z = z.
Proof.
  intros H. unfold CInt.to_int32, CInt.wrap_signed.
  change (2 ^ (32 - 1)) with (2 ^ 31). change (2 ^ 32) with (2 * 2 ^ 31).
  rewrite Z.mod_small by lia. lia.
Qed.

Lemma to_int16_small z : - 32768 <= z < 32768 -> CInt.to_int16 z = z.
Proof.
  intros H. unfold CInt.to_int16, CInt.wrap_signed.
  change (2 ^ (16 - 1)) with 32768. change (2 ^ 16) with 65536.
  rewrite Z.mod_small by lia. lia.
Qed.

Lemma to_uint32_small z : 0 <= z < 2 ^ 32 -> CInt.to_uint32 z = z.
Proof. intros H. apply Z.mod_small. exact H. Qed.

Lemma to_uint16_small z : 0 <= z < 65536 -> CInt.to_uint16 z = z.
Proof. intros H. apply Z.mod_small. exact H. Qed.

Lemma to_uint8_small z : 0 <= z < 256 -> CInt.to_uint8 z = z.
Proof. intros H. apply Z.mod_small. exact H. Qed.

Lemma to_uint16_range z : 0 <= CInt.to_uint16 z < 65536.
Proof. apply Z.mod_pos_bound. reflexivity. Qed.

Lemma to_uint8_range z : 0 <= CInt.to_uint8 z < 256.
Proof. apply Z.mod_pos_bound. reflexivity. Qed.

Lemma to_uint32_range z : 0 <= CInt.to_uint32 z < 2 ^ 32.
Proof. apply Z.mod_pos_bound. reflexivity. Qed.

Lemma to_int16_range z : - 32768 <= CInt.to_int16 z < 32768.
Proof.
  unfold CInt.to_int16, CInt.wrap_signed.
  change (2 ^ (16 - 1)) with 32768. change (2 ^ 16) with 65536.
  pose proof (Z.mod_pos_bound (z + 32768) 65536 eq_refl). lia.
Qed.

(** [(v >> 8) & 0xFF] and [v & 0xFF] stored into [uint8_t]. *)
Lemma high_byte v : CInt.to_uint8 (Z.land (Z.shiftr v 8) 0xFF) = (v / 256) mod 256.
Proof.
  change 0xFF with (Z.ones 8). rewrite Z.land_ones by lia.
  rewrite Z.shiftr_div_pow2 by lia. change (2 ^ 8) with 256.
  unfold CInt.to_uint8, CInt.wrap_unsigned. change (2 ^ 8) with 256.
  apply Z.mod_mod. lia.
Qed.

Lemma low_byte v : CInt.to_uint8 (Z.land v 0xFF) = v mod 256.
Proof.
  change 0xFF with (Z.ones 8). rewrite Z.land_ones by lia. change (2 ^ 8) with 256.
  unfold CInt.to_uint8, CInt.wrap_unsigned. change (2 ^ 8) with 256.
  apply Z.mod_mod. lia.
Qed.

Lemma decode_u16_bytes v :
  0 <= v < 65536 -> CInt.decode_u16 ((v / 256) mod 256) (v mod 256) = v.
Proof.
  intros H. unfold CInt.decode_u16.
  rewrite (Z.mod_small (v / 256)) by (split; [apply Z.div_pos | apply Z.div_lt_upper_bound]; lia).
  pose proof (Z.div_mod v 256 ltac:(lia)). lia.
Qed.

Lemma decode_s16_bytes v :
  - 32768 <= v < 32768 -> CInt.decode_s16 ((v / 256) mod 256) (v mod 256) = v.
Proof.
  intros H. unfold CInt.decode_s16, CInt.to_int16, CInt.wrap_signed.
  change (2 ^ (16 - 1)) with 32768. change (2 ^ 16) with 65536.
  Z.div_mod_to_equations. lia.
Qed.

(** The six bytes are three big-endian pairs: soil, temperature, battery. *)
Lemma payload_bytes_fields sm ot bl :
  exists b0 b1 b2 b3 b4 b5,
    payload_bytes sm ot bl = [b0; b1; b2; b3; b4; b5]
    /\ Forall (fun b => 0 <= b < 256) [b0; b1; b2; b3; b4; b5]
    /\ CInt.decode_u16 b0 b1 = soilValue_of sm
    /\ CInt.decode_s16 b2 b3 = tempValue_of ot
    /\ CInt.decode_u16 b4 b5 = battValue_of bl.
Proof.
  unfold payload_bytes. cbv zeta. rewrite !high_byte, !low_byte.
  do 6 eexists. split; [reflexivity|]. split.
  - repeat constructor; apply Z.mod_pos_bound; lia.
  - split; [ | split].
    + apply decode_u16_bytes, to_uint16_range.
    + apply decode_s16_bytes, to_int16_range.
    + apply decode_u16_bytes, to_uint16_range.
Qed.

(** ** Checking a finite range of integers by evaluation *)

Lemma Zrange_forallb (P : Z -> bool) lo n :
  forallb P (Zrange lo n) = true ->
  forall z, lo <= z < lo + Z.of_nat n -> P z = true.
Proof.
  intros H z Hz. rewrite forallb_forall in H. apply H.
  unfold Zrange. apply in_map_iff. exists (Z.to_nat (z - lo)). split; [lia|].
  apply in_seq. lia.
Qed.

Lemma float_eqb_eq x y : float_eqb x y = true -> x = y.
Proof.
  destruct x as [s | s | | s m e], y as [s' | s' | | s' m' e']; cbn [float_eqb];
    intros H; try discriminate; try reflexivity.
  - apply eqb_prop in H. congruence.
  - apply eqb_prop in H. congruence.
  - apply andb_true_iff in H. destruct H as [H He].
    apply andb_true_iff in H. destruct H as [Hs Hm].
    apply eqb_prop in Hs. apply Pos.eqb_eq in Hm. apply Z.eqb_eq in He. congruence.
Qed.

(** ** Soil moisture: rescaling and its encoding *)

Lemma map_soil raw :
  0 <= raw < 2 ^ 24 ->
  Arduino.map raw 3000 1300 0 100 = ((raw - 3000) * 100) ÷ (-1700).
Proof.
  intros H. change (2 ^ 24) with 16777216 in H. unfold Arduino.map.
  change (CInt.to_int32 (100 - 0)) with 100.
  change (CInt.to_int32 (1300 - 3000)) with (-1700).
  assert (P31 : 2 ^ 31 = 2147483648) by reflexivity.
  rewrite (to_int32_small (raw - 3000)) by lia.
  rewrite (to_int32_small ((raw - 3000) * 100)) by lia.
  rewrite Z.add_0_r.
  assert (B : - 2 ^ 31 <= ((raw - 3000) * 100) ÷ -1700 < 2 ^ 31)
    by (rewrite P31; Z.to_euclidean_division_equations; lia).
  rewrite !(to_int32_small _ B). reflexivity.
Qed.

Lemma constrain_percent_checked z :
  0 <= z < 177 ->
  Arduino.constrain (F32.of_int z) 0 100 = F32.of_int (Z.min z 100).
Proof.
  intros H. apply float_eqb_eq.
  apply (Zrange_forallb
           (fun z => float_eqb (Arduino.constrain (F32.of_int z) 0 100)
                               (F32.of_int (Z.min z 100))) 0 177);
    [vm_compute; reflexivity | lia].
Qed.

Lemma constrain_negative z :
  - 2 ^ 24 < z < 0 -> Arduino.constrain (F32.of_int z) 0 100 = F32.of_int 0.
Proof.
  intros H. destruct z as [ | p | p]; try lia.
  destruct (of_int_neg_small p ltac:(lia)) as (m & e & ->).
  reflexivity.
Qed.

(** The three regimes of the calibration: dry, wet, in between. *)
Lemma soil_moisture_regimes raw :
  0 <= raw < 2 ^ 24 ->
  (3000 <= raw -> soil_moisture_of_raw raw = F32.of_int 0)
  /\ (raw <= 1300 -> soil_moisture_of_raw raw = F32.of_int 100)
  /\ (1300 < raw < 3000 ->
      soil_moisture_of_raw raw = F32.of_int ((3000 - raw) * 100 / 1700)
      /\ 0 <= (3000 - raw) * 100 / 1700 < 100).
Proof.
  intros H. unfold soil_moisture_of_raw. cbv zeta. rewrite (map_soil raw H).
  change (2 ^ 24) with 16777216 in H.
  repeat split.
  - intros Hd.
    destruct (Z.eq_dec (((raw - 3000) * 100) ÷ -1700) 0) as [-> | N].
    + apply (constrain_percent_checked 0). lia.
    + apply constrain_negative. change (2 ^ 24) with 16777216.
      Z.to_euclidean_division_equations. lia.
  - intros Hw.
    assert (E : exists z, ((raw - 3000) * 100) ÷ -1700 = z /\ 100 <= z < 177).
    { eexists. split; [reflexivity|]. Z.to_euclidean_division_equations. lia. }
    destruct E as (z & -> & Hz).
    rewrite constrain_percent_checked by lia. f_equal. lia.
  - replace (((raw - 3000) * 100) ÷ -1700) with ((3000 - raw) * 100 / 1700)
      by (Z.to_euclidean_division_equations; lia).
    rewrite constrain_percent_checked by (Z.to_euclidean_division_equations; lia).
    f_equal. Z.to_euclidean_division_equations; lia.
  - Z.to_euclidean_division_equations; lia.
  - Z.to_euclidean_division_equations; lia.
Qed.

(** A raw reading in range yields a whole percentage between 0 and 100. *)
Lemma soil_moisture_whole raw :
  0 <= raw < 2 ^ 24 ->
  exists p, 0 <= p <= 100 /\ soil_moisture_of_raw raw = F32.of_int p.
Proof.
  intros H. destruct (soil_moisture_regimes raw H) as (Hd & Hw & Hm).
  destruct (Z_le_gt_dec 3000 raw) as [L | L]; [exists 0; split; [lia | auto] | ].
  destruct (Z_le_gt_dec raw 1300) as [L' | L']; [exists 100; split; [lia | auto] | ].
  destruct (Hm ltac:(lia)) as [E B]. eexists. split; [ | exact E]. lia.
Qed.

Lemma percent_checked p :
  0 <= p <= 100 ->
  soilValue_of (F32.of_int p) = 100 * p
  /\ (F32.to_Q (F32.of_int p) == inject_Z p)%Q.
Proof.
  intros H.
  pose proof (Zrange_forallb
    (fun p => (soilValue_of (F32.of_int p) =? 100 * p)
              && Qeq_bool (F32.to_Q (F32.of_int p)) (inject_Z p)) 0 101) as C.
  specialize (C ltac:(vm_compute; reflexivity) p ltac:(lia)). cbv beta in C.
  apply andb_true_iff in C. destruct C as [C1 C2].
  split; [apply Z.eqb_eq, C1 | apply Qeq_bool_iff, C2].
Qed.

Lemma battery_checked b :
  0 <= b < 256 -> battValue_of (F32.of_int b) = 100 * b.
Proof.
  intros H. apply Z.eqb_eq.
  apply (Zrange_forallb (fun b => battValue_of (F32.of_int b) =? 100 * b) 0 256);
    [vm_compute; reflexivity | lia].
Qed.

Lemma Qnearest_whole z : Qnearest (inject_Z z) = z.
Proof.
  unfold Qnearest, Qfloor, Qplus, inject_Z. cbn [Qnum Qden].
  rewrite !Z.mul_1_r. change (Zpos (1 * 2)) with 2.
  Z.div_mod_to_equations. lia.
Qed.

(** ** One call of send_lora_frame *)

Ltac step_print_hex_bytes :=
  match goal with
  | |- context [print_hex_bytes ?n ?d ?e ?w] =>
      let evs := fresh "evs" in
      let E := fresh "E" in
      let Q := fresh "Q" in
      destruct (quiet_print_hex_bytes n d e w) as (evs & E & Q); rewrite E; clear E
  end.

Lemma send_lora_frame_trace env g t tr :
  exists tr',
    send_lora_frame env {| globals := g; tick := t; trace := tr |}
    = Done tt {| globals := g; tick := S (S (frame_battery_tick g t)); trace := tr' |}
    /\ hw tr' = rev (frame_hw env g t) ++ hw tr.
Proof.
  unfold send_lora_frame, frame_hw, frame_app_data, frame_battery, frame_battery_tick,
    frame_objectTemp, frame_temp, frame_soilRaw, frame_sample.
  cbv beta iota zeta delta [bind ret emit query gets modify println print print_int
    println_int print_float digitalWrite delay analogRead for_acc mlx_getObjectTemp
    BoardGetBatteryLevel_call lmh_send globals tick trace Nat.add].
  destruct (mlxSensorAvailable g); cbn [andb];
    [ destruct (temp_accepted (mlx_getObjectTemp_value env (S (S (S (S (S t))))))) | ];
    step_print_hex_bytes;
    cbv beta iota zeta delta [globals tick trace];
    destruct (lmh_is_success _);
    (eexists; split; [reflexivity | ]);
    hw_norm; reflexivity.
Qed.

(** The frame returns; it leaves the globals alone and adds exactly the
    calls of [frame_hw]. *)
Lemma send_lora_frame_run env w :
  exists w',
    send_lora_frame env w = Done tt w'
    /\ globals w' = globals w
    /\ tick w' = S (S (frame_battery_tick (globals w) (tick w)))
    /\ hw (events w') = hw (events w) ++ frame_hw env (globals w) (tick w).
Proof.
  destruct w as [g t tr].
  destruct (send_lora_frame_trace env g t tr) as (tr' & E & H).
  eexists. split; [exact E|]. cbn [globals tick].
  split; [reflexivity|]. split; [reflexivity|].
  apply hw_events_of_trace. cbn [trace]. exact H.
Qed.

(** With samples in range nothing wraps: the raw value is the average. *)
Lemma frame_soilRaw_average env t :
  (forall n, 0 <= analogRead_value env n < 2 ^ 24) ->
  (forall i, frame_sample env t i = analogRead_value env (i + t)%nat)
  /\ frame_soilRaw env t
     = (analogRead_value env (0 + t)%nat + analogRead_value env (1 + t)%nat
        + analogRead_value env (2 + t)%nat + analogRead_value env (3 + t)%nat
        + analogRead_value env (4 + t)%nat) / 5
  /\ 0 <= frame_soilRaw env t < 2 ^ 24.
Proof.
  intros H.
  assert (S : forall i, frame_sample env t i = analogRead_value env (i + t)%nat).
  { intros i. unfold frame_sample. apply to_uint32_small.
    specialize (H (i + t)%nat). change (2 ^ 24) with 16777216 in H.
    change (2 ^ 32) with 4294967296. lia. }
  split; [exact S|].
  unfold frame_soilRaw. cbv zeta. rewrite !S.
  pose proof (H (0 + t)%nat) as H0. pose proof (H (1 + t)%nat) as H1.
  pose proof (H (2 + t)%nat) as H2. pose proof (H (3 + t)%nat) as H3.
  pose proof (H (4 + t)%nat) as H4.
  change (2 ^ 24) with 16777216 in *.
  assert (P31 : 2 ^ 31 = 2147483648) by reflexivity.
  rewrite (to_int32_small (0 + _)) by lia.
  rewrite (to_int32_small (0 + _ + _)) by lia.
  rewrite (to_int32_small (0 + _ + _ + _)) by lia.
  rewrite (to_int32_small (0 + _ + _ + _ + _)) by lia.
  rewrite (to_int32_small (0 + _ + _ + _ + _ + _)) by lia.
  rewrite Z.add_0_l.
  rewrite Z.quot_div_nonneg by lia.
  rewrite to_int32_small by (rewrite P31; Z.div_mod_to_equations; lia).
  split; [reflexivity|]. Z.div_mod_to_equations; lia.
Qed.

Lemma tempValue_default : tempValue_of default_objectTemp = 2500.
Proof. vm_compute. reflexivity. Qed.

Lemma tempValue_accepted t :
  F32.valid t = true -> temp_accepted t = true ->
  tempValue_of t = F32.trunc (F32.mul t (F32.of_int 100))
  /\ -4000 < tempValue_of t < 8500.
Proof.
  intros V A. pose proof (temp_accepted_trunc_range t V A) as R.
  unfold tempValue_of. rewrite to_int16_small by lia. split; [reflexivity | exact R].
Qed.

Lemma frame_hw_shape env g t :
  exists rest,
    frame_hw env g t
    = [ DigitalWrite SOIL_POWER_PIN HIGH; Delay 1000;
        AnalogRead SOIL_SENSOR_PIN (frame_sample env t 0); Delay 100;
        AnalogRead SOIL_SENSOR_PIN (frame_sample env t 1); Delay 100;
        AnalogRead SOIL_SENSOR_PIN (frame_sample env t 2); Delay 100;
        AnalogRead SOIL_SENSOR_PIN (frame_sample env t 3); Delay 100;
        AnalogRead SOIL_SENSOR_PIN (frame_sample env t 4); Delay 100;
        DigitalWrite SOIL_POWER_PIN LOW ]
      ++ rest
      ++ [ LmhSend (frame_app_data env g t) LMH_UNCONFIRMED_MSG
                   (lmh_send_result env (S (frame_battery_tick g t))) ]
    /\ filter is_analog_read rest = []
    /\ filter is_send rest = []
    /\ filter is_temp_read rest
       = if mlxSensorAvailable g then [MlxGetObjectTemp (frame_temp env t)] else [].
Proof.
  exists ((if mlxSensorAvailable g
           then [ DigitalWrite MLX_POWER_PIN LOW; Delay 500;
                  MlxGetObjectTemp (frame_temp env t);
                  DigitalWrite MLX_POWER_PIN HIGH ]
           else [])
          ++ [BoardGetBatteryLevel (frame_battery env g t)]).
  unfold frame_hw. destruct (mlxSensorAvailable g); repeat split; reflexivity.
Qed.

Lemma frame_fields env g t :
  exists b0 b1 b2 b3 b4 b5,
    buffer (frame_app_data env g t) = [b0; b1; b2; b3; b4; b5]
    /\ Forall (fun b => 0 <= b < 256) [b0; b1; b2; b3; b4; b5]
    /\ CInt.decode_u16 b0 b1 = soilValue_of (soil_moisture_of_raw (frame_soilRaw env t))
    /\ CInt.decode_s16 b2 b3 = tempValue_of (frame_objectTemp env g t)
    /\ CInt.decode_u16 b4 b5 = battValue_of (F32.of_int (frame_battery env g t)).
Proof. apply payload_bytes_fields. Qed.

(** What is sent by one call, in the form most claims need. *)
Lemma send_lora_frame_sends env w :
  exists w' pre,
    send_lora_frame env w = Done tt w'
    /\ hw (events w')
       = hw (events w) ++ pre
         ++ [ LmhSend (frame_app_data env (globals w) (tick w)) LMH_UNCONFIRMED_MSG
                      (lmh_send_result env (S (frame_battery_tick (globals w) (tick w)))) ]
    /\ filter is_send pre = []
    /\ filter is_temp_read pre
       = if mlxSensorAvailable (globals w)
         then [MlxGetObjectTemp (frame_temp env (tick w))] else [].
Proof.
  destruct (send_lora_frame_run env w) as (w' & E & _ & _ & H).
  destruct (frame_hw_shape env (globals w) (tick w)) as (rest & S & _ & Hs & Ht).
  exists w'.
  match type of S with _ = ?block ++ rest ++ _ => exists (block ++ rest) end.
  split; [exact E|]. split.
  - rewrite H, S. rewrite <- (app_assoc _ rest). reflexivity.
  - split.
    + rewrite filter_app, Hs. reflexivity.
    + rewrite filter_app, Ht. reflexivity.
Qed.

(** ** The claims about the payload *)

(** C1. The first two bytes of the transmitted payload are the high and the
    low byte of the soil moisture percentage times 100, rounded to the
    nearest integer: the percentage lies in [0,100] and is a whole number
    (the rescaling is integer arithmetic), so the conversion to [uint16_t]
    loses nothing. *)
Theorem C1_soil_bytes_encode_hundredths (env : Env) (w : World) :
  adc_in_range env ->
  exists w' pre frame result,
    send_lora_frame env w = Done tt w'
    /\ hw (events w') = hw (events w) ++ pre ++ [LmhSend frame LMH_UNCONFIRMED_MSG result]
    /\ let soilMoisture := soil_moisture_of_raw (frame_soilRaw env (tick w)) in
       let hundredths := Qnearest (F32.to_Q soilMoisture * 100) in
       (0 <= F32.to_Q soilMoisture)%Q /\ (F32.to_Q soilMoisture <= 100)%Q
       /\ 0 <= hundredths <= 10000
       /\ nth 0 (buffer frame) 0 = hundredths / 256
       /\ nth 1 (buffer frame) 0 = hundredths mod 256.
Proof.
  intros Hadc.
  destruct (send_lora_frame_sends env w) as (w' & pre & E & H & _ & _).
  exists w', pre. eexists _, _. split; [exact E|]. split; [exact H|].
  cbv zeta.
  destruct (frame_soilRaw_average env (tick w) Hadc) as (_ & _ & Hraw).
  destruct (soil_moisture_whole _ Hraw) as (p & Hp & Ep).
  destruct (percent_checked p Hp) as [Ev Eq].
  rewrite Ep.
  assert (N : Qnearest (F32.to_Q (F32.of_int p) * 100) = 100 * p).
  { unfold Qnearest. rewrite Eq.
    assert (Q1 : (inject_Z p * 100 + (1 # 2) == inject_Z (100 * p) + (1 # 2))%Q).
    { rewrite inject_Z_mult. ring. }
    rewrite Q1. apply Qnearest_whole. }
  rewrite N. rewrite Eq.
  split; [ | split; [ | split; [lia | ] ] ].
  - change 0%Q with (inject_Z 0). rewrite <- Zle_Qle. lia.
  - change 100%Q with (inject_Z 100). rewrite <- Zle_Qle. lia.
  - cbn [buffer frame_app_data]. unfold payload_bytes. cbv zeta. cbn [nth].
    rewrite high_byte, low_byte, Ep, Ev.
    split; [ | reflexivity].
    apply Z.mod_small. split; [apply Z.div_pos | apply Z.div_lt_upper_bound]; lia.
Qed.

Lemma adc_in_range_example : adc_in_range example_env.
Proof. intros n. cbn [example_env analogRead_value]. change (2 ^ 24) with 16777216. lia. Defined.

Lemma temperatures_valid_example : temperatures_valid example_env.
Proof. intros n. reflexivity. Defined.

Lemma C1_soil_bytes_encode_hundredths_witness :
  adc_in_range example_env
  /\ exists w' pre frame result,
       send_lora_frame example_env initial_world = Done tt w'
       /\ hw (events w') = hw (events initial_world) ++ pre
                           ++ [LmhSend frame LMH_UNCONFIRMED_MSG result].
Proof.
  split; [exact adc_in_range_example | ].
  destruct (C1_soil_bytes_encode_hundredths example_env initial_world adc_in_range_example)
    as (w' & pre & frame & result & E & H & _).
  exists w', pre, frame, result. split; assumption.
Defined.

(** C2. Every uplink the sketch hands to the stack has the same shape: six
    bytes, port 2, unconfirmed. The six bytes are three big-endian pairs, in
    this order: the soil value (unsigned), the temperature value (two's
    complement) and the battery value (unsigned). *)
Theorem C2_uplink_layout :
  (forall fuel, emits_only uplink_shape (sketch fuel))
  /\ (forall cb, emits_only uplink_shape (g_lora_callbacks cb))
  /\ forall env w,
       exists w' pre frame result b0 b1 b2 b3 b4 b5,
         send_lora_frame env w = Done tt w'
         /\ hw (events w')
            = hw (events w) ++ pre ++ [LmhSend frame LMH_UNCONFIRMED_MSG result]
         /\ filter is_send pre = []
         /\ buffsize frame = 6 /\ port frame = 2
         /\ buffer frame = [b0; b1; b2; b3; b4; b5]
         /\ Forall (fun b => 0 <= b < 256) [b0; b1; b2; b3; b4; b5]
         /\ CInt.decode_u16 b0 b1
            = soilValue_of (soil_moisture_of_raw (frame_soilRaw env (tick w)))
         /\ CInt.decode_s16 b2 b3
            = tempValue_of (frame_objectTemp env (globals w) (tick w))
         /\ CInt.decode_u16 b4 b5
            = battValue_of (F32.of_int (frame_battery env (globals w) (tick w))).
Proof.
  split; [ | split].
  - intros fuel. unfold sketch, forever, setup.
    apply emits_only_bind; [ | intros _].
    + apply emits_only_bind; [ | intros _].
      * unfold setup_serial. apply emits_only_bind; [emits_only_auto | intros _].
        apply emits_only_while_; emits_only_auto.
      * apply emits_only_bind; [ | intros _].
        -- unfold setup_sensors. cbn [setup_probe_attempts setup_probe_addresses].
           emits_only_auto.
        -- apply emits_only_bind; [ | intros _].
           ++ unfold setup_radio, forever.
              repeat first
                [ apply emits_only_while_
                | emits_only_step ].
           ++ unfold setup_join. emits_only_auto.
    + apply emits_only_while_; [emits_only_auto | ].
      unfold loop, loop_join_retry, loop_send, loop_status, send_lora_frame.
      emits_only_auto.
  - intros cb. destruct cb; cbn [g_lora_callbacks];
      unfold lorawan_rx_handler, lorawan_has_joined_handler,
        lorawan_confirm_class_handler, lorawan_join_failed_handler;
      emits_only_auto.
  - intros env w.
    destruct (send_lora_frame_sends env w) as (w' & pre & E & H & Hs & _).
    destruct (frame_fields env (globals w) (tick w))
      as (b0 & b1 & b2 & b3 & b4 & b5 & Eb & Hb & F1 & F2 & F3).
    exists w', pre. eexists _, _. exists b0, b1, b2, b3, b4, b5.
    repeat (split; [eassumption || reflexivity | ]). exact F3.
Qed.

(** C3. An averaged raw reading at or above the dry point 3000 gives 0 %, one
    at or below the wet point 1300 gives 100 %, and one strictly between
    gives the point of the line through (3000, 0) and (1300, 100), which
    [map] computes in integers: the whole percent [p] with
    [p <= 100 * (3000 - raw) / 1700 < p + 1]. The result never leaves
    [0,100]. *)
Theorem C3_soil_calibration (soilRaw : Z) :
  0 <= soilRaw < 2 ^ 24 ->
  let soilMoisture := soil_moisture_of_raw soilRaw in
  (3000 <= soilRaw -> soilMoisture = F32.of_int 0)
  /\ (soilRaw <= 1300 -> soilMoisture = F32.of_int 100)
  /\ (1300 < soilRaw < 3000 ->
      exists p, soilMoisture = F32.of_int p
                /\ 0 <= p < 100
                /\ 1700 * p <= 100 * (3000 - soilRaw) < 1700 * (p + 1))
  /\ (0 <= F32.to_Q soilMoisture)%Q /\ (F32.to_Q soilMoisture <= 100)%Q.
Proof.
  intros H. cbv zeta.
  destruct (soil_moisture_regimes soilRaw H) as (Hd & Hw & Hm).
  split; [exact Hd | ]. split; [exact Hw | ]. split.
  - intros B. destruct (Hm B) as [E R].
    exists ((3000 - soilRaw) * 100 / 1700). split; [exact E | ]. split; [exact R | ].
    Z.div_mod_to_equations. lia.
  - destruct (soil_moisture_whole soilRaw H) as (p & Hp & ->).
    destruct (percent_checked p Hp) as [_ Eq]. rewrite Eq.
    change 0%Q with (inject_Z 0). change 100%Q with (inject_Z 100).
    rewrite <- !Zle_Qle. lia.
Qed.

Lemma C3_soil_calibration_witness :
  0 <= 2150 < 2 ^ 24
  /\ exists p, soil_moisture_of_raw 2150 = F32.of_int p
               /\ 0 <= p < 100
               /\ 1700 * p <= 100 * (3000 - 2150) < 1700 * (p + 1).
Proof.
  assert (H : 0 <= 2150 < 2 ^ 24) by (change (2 ^ 24) with 16777216; lia).
  split; [exact H | ].
  destruct (C3_soil_calibration 2150 H) as (_ & _ & Hm & _).
  apply Hm. lia.
Defined.

(** C4. Each call of [send_lora_frame] sends the default 25.0 degrees (2500
    hundredths) when the sensor is marked unavailable (it is then not read
    at all), or when the reading is NaN, infinite, at most -40 or at least
    85; otherwise it sends the reading, in hundredths of a degree. *)
Theorem C4_temperature_fallback (env : Env) (w : World) :
  temperatures_valid env ->
  exists w' pre frame result,
    send_lora_frame env w = Done tt w'
    /\ hw (events w') = hw (events w) ++ pre ++ [LmhSend frame LMH_UNCONFIRMED_MSG result]
    /\ tempValue_of default_objectTemp = 2500
    /\ (F32.to_Q default_objectTemp == 25)%Q
    /\ let sent := CInt.decode_s16 (nth 2 (buffer frame) 0) (nth 3 (buffer frame) 0) in
       (mlxSensorAvailable (globals w) = false ->
        filter is_temp_read pre = [] /\ sent = 2500)
       /\ (mlxSensorAvailable (globals w) = true ->
           exists temp,
             filter is_temp_read pre = [MlxGetObjectTemp temp]
             /\ (F32.is_finite temp = true
                 /\ (-40 < F32.to_Q temp)%Q /\ (F32.to_Q temp < 85)%Q ->
                 sent = F32.trunc (F32.mul temp (F32.of_int 100)))
             /\ (F32.is_finite temp = false
                 \/ (F32.to_Q temp <= -40)%Q \/ (85 <= F32.to_Q temp)%Q ->
                 sent = 2500)).
Proof.
  intros V.
  destruct (send_lora_frame_sends env w) as (w' & pre & E & H & _ & Ht).
  destruct (frame_fields env (globals w) (tick w))
    as (b0 & b1 & b2 & b3 & b4 & b5 & Eb & _ & _ & F2 & _).
  exists w', pre. eexists _, _. split; [exact E | ]. split; [exact H | ].
  split; [exact tempValue_default | ]. split; [reflexivity | ].
  cbv zeta. rewrite Eb. cbn [nth]. rewrite F2. unfold frame_objectTemp.
  split.
  - intros A. rewrite A in *. cbn [andb]. split; [exact Ht | exact tempValue_default].
  - intros A. rewrite A in *. cbn [andb].
    exists (frame_temp env (tick w)). split; [exact Ht | ].
    pose proof (temp_accepted_iff (frame_temp env (tick w)) (V _)) as Iff.
    split.
    + intros B. apply Iff in B. rewrite B.
      apply (tempValue_accepted _ (V _) B).
    + intros B.
      destruct (temp_accepted (frame_temp env (tick w))) eqn:Acc;
        [ | exact tempValue_default].
      exfalso. destruct Iff as [Iff _]. destruct (Iff eq_refl) as (Fin & L & U).
      destruct B as [B | [B | B]].
      * congruence.
      * exact (Qlt_not_le _ _ L B).
      * exact (Qlt_not_le _ _ U B).
Qed.

Lemma C4_temperature_fallback_witness :
  temperatures_valid example_env
  /\ exists w' pre frame result,
       send_lora_frame example_env initial_world = Done tt w'
       /\ hw (events w') = hw (events initial_world) ++ pre
                           ++ [LmhSend frame LMH_UNCONFIRMED_MSG result]
       /\ CInt.decode_s16 (nth 2 (buffer frame) 0) (nth 3 (buffer frame) 0) = 2500.
Proof.
  split; [exact temperatures_valid_example | ].
  destruct (C4_temperature_fallback example_env initial_world temperatures_valid_example)
    as (w' & pre & frame & result & E & H & _ & _ & U & _).
  exists w', pre, frame, result. split; [exact E | ]. split; [exact H | ].
  apply U. reflexivity.
Defined.

(** The trace of one call around the line that reports the raw value. *)
Lemma trace_after_refl (mid : list event) : exists after, mid = after ++ mid.
Proof. exists []. reflexivity. Qed.

Lemma trace_after_cons (a : event) (l mid : list event) :
  (exists after, l = after ++ mid) -> exists after, a :: l = after ++ mid.
Proof. intros (after & ->). exists (a :: after). reflexivity. Qed.

Lemma trace_after_app (evs l mid : list event) :
  (exists after, l = after ++ mid) -> exists after, evs ++ l = after ++ mid.
Proof. intros (after & ->). exists (evs ++ after). apply app_assoc. Qed.

Lemma trace_after_done (g : Globals) (t : nat) (l mid : list event) :
  (exists after, l = after ++ mid) ->
  exists after,
    Done tt {| globals := g; tick := t; trace := l |}
    = Done tt {| globals := g; tick := t; trace := after ++ mid |}.
Proof. intros (after & ->). exists after. reflexivity. Qed.

(** Walk down an explicit trace to the place where the raw value is printed. *)
Ltac trace_after_step :=
  lazymatch goal with
  | |- exists after, Serial (Int _) false :: _ = _ => apply trace_after_refl
  | |- exists after, _ :: _ = _ => apply trace_after_cons
  | |- exists after, _ ++ _ = _ => apply trace_after_app
  end.

Lemma send_lora_frame_raw_line env g t tr :
  exists t' after,
    send_lora_frame env {| globals := g; tick := t; trace := tr |}
    = Done tt
        {| globals := g; tick := t';
           trace :=
             after
             ++ Serial (Int (frame_soilRaw env t)) false
                :: Serial (Str "% (raw: ") false
                :: [ Serial (Flt (soil_moisture_of_raw (frame_soilRaw env t))) false;
                     Serial (Str "Soil: ") false;
                     DigitalWrite SOIL_POWER_PIN LOW;
                     Delay 100; AnalogRead SOIL_SENSOR_PIN (frame_sample env t 4);
                     Delay 100; AnalogRead SOIL_SENSOR_PIN (frame_sample env t 3);
                     Delay 100; AnalogRead SOIL_SENSOR_PIN (frame_sample env t 2);
                     Delay 100; AnalogRead SOIL_SENSOR_PIN (frame_sample env t 1);
                     Delay 100; AnalogRead SOIL_SENSOR_PIN (frame_sample env t 0);
                     Delay 1000;
                     DigitalWrite SOIL_POWER_PIN HIGH;
                     Serial (Str "Reading soil moisture sensor (RAK12023)...") true;
                     Serial (Str (LF ++ "--- Sending Sensor Data ---")) true ]
                   ++ tr |}.
Proof.
  unfold send_lora_frame, frame_soilRaw, frame_sample.
  cbv beta iota zeta delta [bind ret emit query gets modify println print print_int
    println_int print_float digitalWrite delay analogRead for_acc mlx_getObjectTemp
    BoardGetBatteryLevel_call lmh_send globals tick trace Nat.add].
  cbn [app].
  destruct (mlxSensorAvailable g); cbn [andb];
    [ destruct (temp_accepted (mlx_getObjectTemp_value env (S (S (S (S (S t))))))) | ];
    step_print_hex_bytes;
    cbv beta iota zeta delta [globals tick trace];
    destruct (lmh_is_success _);
    eexists; apply trace_after_done; repeat trace_after_step.
Qed.

Lemma send_lora_frame_reports_raw env w :
  exists w' before after rest,
    send_lora_frame env w = Done tt w'
    /\ events w'
       = events w ++ before
         ++ [ Serial (Str "% (raw: ") false;
              Serial (Int (frame_soilRaw env (tick w))) false ]
         ++ after
    /\ hw before
       = [ DigitalWrite SOIL_POWER_PIN HIGH; Delay 1000;
           AnalogRead SOIL_SENSOR_PIN (frame_sample env (tick w) 0); Delay 100;
           AnalogRead SOIL_SENSOR_PIN (frame_sample env (tick w) 1); Delay 100;
           AnalogRead SOIL_SENSOR_PIN (frame_sample env (tick w) 2); Delay 100;
           AnalogRead SOIL_SENSOR_PIN (frame_sample env (tick w) 3); Delay 100;
           AnalogRead SOIL_SENSOR_PIN (frame_sample env (tick w) 4); Delay 100;
           DigitalWrite SOIL_POWER_PIN LOW ]
    /\ hw (events w')
       = hw (events w) ++ hw before ++ rest
         ++ [ LmhSend (frame_app_data env (globals w) (tick w)) LMH_UNCONFIRMED_MSG
                      (lmh_send_result env (S (frame_battery_tick (globals w) (tick w)))) ]
    /\ hw after
       = rest
         ++ [ LmhSend (frame_app_data env (globals w) (tick w)) LMH_UNCONFIRMED_MSG
                      (lmh_send_result env (S (frame_battery_tick (globals w) (tick w)))) ]
    /\ filter is_analog_read rest = [].
Proof.
  destruct (send_lora_frame_run env w) as (w' & E & _ & _ & H).
  destruct (frame_hw_shape env (globals w) (tick w)) as (rest & S & Ha & _ & _).
  destruct w as [g t tr]. cbn [globals tick] in *.
  destruct (send_lora_frame_raw_line env g t tr) as (t' & after & E').
  match type of E' with
  | context [Serial (Str "% (raw: ") false :: ?b ++ tr] =>
      set (before := b) in E';
      assert (Hb : hw (rev before)
                   = [ DigitalWrite SOIL_POWER_PIN HIGH; Delay 1000;
                       AnalogRead SOIL_SENSOR_PIN (frame_sample env t 0); Delay 100;
                       AnalogRead SOIL_SENSOR_PIN (frame_sample env t 1); Delay 100;
                       AnalogRead SOIL_SENSOR_PIN (frame_sample env t 2); Delay 100;
                       AnalogRead SOIL_SENSOR_PIN (frame_sample env t 3); Delay 100;
                       AnalogRead SOIL_SENSOR_PIN (frame_sample env t 4); Delay 100;
                       DigitalWrite SOIL_POWER_PIN LOW ]) by reflexivity;
      clearbody before
  end.
  rewrite E' in E. injection E as <-.
  assert (Ev : rev (after ++ Serial (Int (frame_soilRaw env t)) false
                          :: Serial (Str "% (raw: ") false :: before ++ tr)
               = rev tr ++ rev before
                 ++ [ Serial (Str "% (raw: ") false;
                      Serial (Int (frame_soilRaw env t)) false ]
                 ++ rev after).
  { rewrite rev_app_distr. cbn [rev]. rewrite rev_app_distr, <- !app_assoc. reflexivity. }
  unfold events in *. unfold trace in H |- *.
  exists {| globals := g; tick := t';
            trace := after ++ Serial (Int (frame_soilRaw env t)) false
                     :: Serial (Str "% (raw: ") false :: before ++ tr |}.
  exists (rev before), (rev after), rest.
  split; [exact E' | ]. unfold trace.
  split; [exact Ev | ]. split; [exact Hb | ].
  rewrite S in H. rewrite Hb. split; [exact H | ]. split; [ | exact Ha].
  rewrite Ev in H. rewrite !hw_app in H.
  apply app_inv_head in H. rewrite Hb in H. apply app_inv_head in H.
  exact H.
Qed.

(** The soil field as a function of the raw value, in whole percents. *)
Lemma soil_field_of_raw raw :
  0 <= raw < 2 ^ 24 ->
  exists p,
    soilValue_of (soil_moisture_of_raw raw) = 100 * p
    /\ (3000 <= raw -> p = 0)
    /\ (raw <= 1300 -> p = 100)
    /\ (1300 < raw < 3000 -> 1700 * p <= 100 * (3000 - raw) < 1700 * (p + 1)).
Proof.
  intros H. destruct (soil_moisture_regimes raw H) as (Hd & Hw & Hm).
  destruct (Z_le_gt_dec 3000 raw) as [L | L].
  - exists 0. rewrite (Hd L). split; [apply (percent_checked 0); lia | ].
    repeat split; intros; lia.
  - destruct (Z_le_gt_dec raw 1300) as [L' | L'].
    + exists 100. rewrite (Hw L'). split; [apply (percent_checked 100); lia | ].
      repeat split; intros; lia.
    + destruct (Hm ltac:(lia)) as [E B]. exists ((3000 - raw) * 100 / 1700).
      rewrite E. split; [apply percent_checked; lia | ].
      split; [intros; lia | ]. split; [intros; lia | ].
      intros _. Z.div_mod_to_equations. lia.
Qed.

(** C8. Each call of [send_lora_frame] powers the soil sensor, waits, takes
    exactly five analog readings of the soil pin, each followed by a 100 ms
    delay, and powers the sensor off. The raw soil value is the average of
    the five readings: it is the number the sketch then prints as the raw
    value, and the soil field of the frame sent afterwards is the whole
    percentage that the calibration line assigns to that average (0 at or
    above 3000, 100 at or below 1300, the truncated point of the line in
    between), in hundredths. *)
Theorem C8_five_spaced_readings_averaged (env : Env) (w : World) :
  adc_in_range env ->
  exists w' a0 a1 a2 a3 a4 rest frame result,
    send_lora_frame env w = Done tt w'
    /\ hw (events w')
       = hw (events w)
         ++ [ DigitalWrite SOIL_POWER_PIN HIGH; Delay 1000;
              AnalogRead SOIL_SENSOR_PIN a0; Delay 100;
              AnalogRead SOIL_SENSOR_PIN a1; Delay 100;
              AnalogRead SOIL_SENSOR_PIN a2; Delay 100;
              AnalogRead SOIL_SENSOR_PIN a3; Delay 100;
              AnalogRead SOIL_SENSOR_PIN a4; Delay 100;
              DigitalWrite SOIL_POWER_PIN LOW ]
         ++ rest ++ [LmhSend frame LMH_UNCONFIRMED_MSG result]
    /\ filter is_analog_read rest = []
    /\ CInt.decode_u16 (nth 0 (buffer frame) 0) (nth 1 (buffer frame) 0)
       = soilValue_of (soil_moisture_of_raw ((a0 + a1 + a2 + a3 + a4) / 5))
    /\ (exists before after,
          events w'
          = events w ++ before
            ++ [ Serial (Str "% (raw: ") false;
                 Serial (Int ((a0 + a1 + a2 + a3 + a4) / 5)) false ]
            ++ after
          /\ hw before
             = [ DigitalWrite SOIL_POWER_PIN HIGH; Delay 1000;
                 AnalogRead SOIL_SENSOR_PIN a0; Delay 100;
                 AnalogRead SOIL_SENSOR_PIN a1; Delay 100;
                 AnalogRead SOIL_SENSOR_PIN a2; Delay 100;
                 AnalogRead SOIL_SENSOR_PIN a3; Delay 100;
                 AnalogRead SOIL_SENSOR_PIN a4; Delay 100;
                 DigitalWrite SOIL_POWER_PIN LOW ]
          /\ hw after = rest ++ [LmhSend frame LMH_UNCONFIRMED_MSG result])
    /\ (exists p,
          CInt.decode_u16 (nth 0 (buffer frame) 0) (nth 1 (buffer frame) 0) = 100 * p
          /\ (3000 <= (a0 + a1 + a2 + a3 + a4) / 5 -> p = 0)
          /\ ((a0 + a1 + a2 + a3 + a4) / 5 <= 1300 -> p = 100)
          /\ (1300 < (a0 + a1 + a2 + a3 + a4) / 5 < 3000 ->
              1700 * p <= 100 * (3000 - (a0 + a1 + a2 + a3 + a4) / 5) < 1700 * (p + 1))).
Proof.
  intros Hadc.
  destruct (send_lora_frame_reports_raw env w)
    as (w' & before & after & rest & E & Ev & Hb & H & Hafter & Ha).
  destruct (frame_fields env (globals w) (tick w))
    as (b0 & b1 & b2 & b3 & b4 & b5 & Eb & _ & F1 & _ & _).
  destruct (frame_soilRaw_average env (tick w) Hadc) as (Es & Eavg & Hr).
  destruct (soil_field_of_raw _ Hr) as (p & Hp & P0 & P100 & Pmid).
  rewrite Eavg in Ev, P0, P100, Pmid. rewrite <- !Es in Ev, P0, P100, Pmid.
  exists w'. do 5 eexists. exists rest. eexists _, _.
  split; [exact E | ]. split; [rewrite H, Hb; reflexivity | ].
  split; [exact Ha | ].
  assert (F : CInt.decode_u16 (nth 0 (buffer (frame_app_data env (globals w) (tick w))) 0)
                              (nth 1 (buffer (frame_app_data env (globals w) (tick w))) 0)
              = soilValue_of (soil_moisture_of_raw (frame_soilRaw env (tick w)))).
  { rewrite Eb. cbn [nth]. exact F1. }
  split; [ | split].
  - rewrite F, Eavg, !Es. reflexivity.
  - exists before, after. split; [exact Ev | ]. split; [exact Hb | exact Hafter].
  - exists p. rewrite F, Hp. split; [reflexivity | ].
    split; [exact P0 | ]. split; [exact P100 | exact Pmid].
Qed.

Lemma C8_five_spaced_readings_averaged_witness :
  adc_in_range example_env
  /\ exists w', send_lora_frame example_env initial_world = Done tt w'.
Proof.
  split; [exact adc_in_range_example | ].
  destruct (C8_five_spaced_readings_averaged example_env initial_world adc_in_range_example)
    as (w' & a0 & a1 & a2 & a3 & a4 & rest & frame & result & E & _).
  exists w'. exact E.
Defined.

(** C10. In every frame sent, the soil field read as an unsigned big-endian
    pair lies in [0, 10000], and the temperature field read as a two's
    complement big-endian pair lies strictly between -4000 and 8500. *)
Theorem C10_fields_in_range (env : Env) (w : World) :
  adc_in_range env ->
  temperatures_valid env ->
  exists w' pre frame result,
    send_lora_frame env w = Done tt w'
    /\ hw (events w') = hw (events w) ++ pre ++ [LmhSend frame LMH_UNCONFIRMED_MSG result]
    /\ filter is_send pre = []
    /\ 0 <= CInt.decode_u16 (nth 0 (buffer frame) 0) (nth 1 (buffer frame) 0) <= 10000
    /\ -4000 < CInt.decode_s16 (nth 2 (buffer frame) 0) (nth 3 (buffer frame) 0) < 8500.
Proof.
  intros Hadc V.
  destruct (send_lora_frame_sends env w) as (w' & pre & E & H & Hs & _).
  destruct (frame_fields env (globals w) (tick w))
    as (b0 & b1 & b2 & b3 & b4 & b5 & Eb & _ & F1 & F2 & _).
  exists w', pre. eexists _, _.
  split; [exact E | ]. split; [exact H | ]. split; [exact Hs | ].
  rewrite Eb. cbn [nth]. rewrite F1, F2. split.
  - destruct (frame_soilRaw_average env (tick w) Hadc) as (_ & _ & Hraw).
    destruct (soil_moisture_whole _ Hraw) as (p & Hp & ->).
    destruct (percent_checked p Hp) as [-> _]. lia.
  - unfold frame_objectTemp.
    destruct (mlxSensorAvailable (globals w)); cbn [andb];
      [ | rewrite tempValue_default; lia].
    destruct (temp_accepted (frame_temp env (tick w))) eqn:Acc;
      [ | rewrite tempValue_default; lia].
    apply (tempValue_accepted _ (V _) Acc).
Qed.

Lemma C10_fields_in_range_witness :
  adc_in_range example_env /\ temperatures_valid example_env
  /\ exists w', send_lora_frame example_env initial_world = Done tt w'.
Proof.
  split; [exact adc_in_range_example | ].
  split; [exact temperatures_valid_example | ].
  destruct (C10_fields_in_range example_env initial_world
              adc_in_range_example temperatures_valid_example)
    as (w' & pre & frame & result & E & _).
  exists w'. exact E.
Defined.

(** ** setup: probing the temperature sensor *)

Lemma filter_rev_comm (f : event -> bool) l : filter f (rev l) = rev (filter f l).
Proof.
  induction l as [ | a l IH]; [reflexivity | ].
  cbn [rev filter]. rewrite filter_app, IH. cbn [filter].
  destruct (f a); cbn [rev app]; [reflexivity | apply app_nil_r].
Qed.

Lemma filter_events_of_trace (f : event -> bool) (w w' : World) (new : list event) :
  filter f (trace w') = rev new ++ filter f (trace w) ->
  filter f (events w') = filter f (events w) ++ new.
Proof.
  intros H. unfold events.
  rewrite !filter_rev_comm, H, rev_app_distr, rev_involutive. reflexivity.
Qed.

Ltac run_setup_sensors :=
  cbv beta iota zeta delta
    [setup_sensors bind ret emit query constant gets modify println print print_int
     print_float println_hex pinMode digitalWrite delay Wire_begin Wire_setClock mlx_begin
     mlx_getObjectTemp setup_probe_attempts setup_probe_addresses globals tick trace
     set_mlxSensorAvailable mlxSensorAvailable lastSensorRead lastJoinAttempt
     joinInProgress joinAttempts lastStatusPrint
     probes_until_success probe_candidates probe_round probe_reports_success app].

(** Case analysis on the answers to the (at most [k]) probes from query [n]. *)
Ltac probe_cases env n k :=
  run_setup_sensors;
  lazymatch k with
  | O => idtac
  | S ?k' =>
      destruct (fst (mlx_begin_result env n)
                && mlx_status_is_success (snd (mlx_begin_result env n))) eqn:?;
      [ run_setup_sensors | probe_cases env (S n) k' ]
  end.

Lemma setup_sensors_trace env g t tr :
  exists g' t' tr',
    setup_sensors env {| globals := g; tick := t; trace := tr |}
    = Done tt {| globals := g'; tick := t'; trace := tr' |}
    /\ filter is_probe tr'
       = rev (probes_until_success probe_candidates env t) ++ filter is_probe tr
    /\ mlxSensorAvailable g'
       = mlxSensorAvailable g
         || existsb probe_event_succeeded (probes_until_success probe_candidates env t).
Proof.
  destruct g as [av lsr lja jip ja lsp].
  probe_cases env t 6%nat.
  all: repeat
    (match goal with
     | |- context [if ?c then _ else _] => destruct c eqn:?
     end; run_setup_sensors).
  all: do 3 eexists; (split; [reflexivity | ]).
  all: cbn [filter is_probe rev app existsb probe_event_succeeded mlxSensorAvailable].
  all: unfold probe_reports_success; cbn [fst snd].
  all: repeat match goal with H : _ && _ = _ |- _ => rewrite H; clear H end.
  all: cbn [orb]; rewrite ?orb_false_r, ?orb_true_r; split; reflexivity.
Qed.

(** Properties of the schedule itself, by induction on the candidates. *)
Lemma probes_length candidates env : forall t,
  (List.length (probes_until_success candidates env t) <= List.length candidates)%nat.
Proof.
  induction candidates as [ | a rest IH]; intros t; cbn [probes_until_success List.length].
  - lia.
  - destruct (probe_reports_success (mlx_begin_result env t)); cbn [List.length].
    + lia.
    + specialize (IH (S t)). lia.
Qed.

Lemma probes_addresses candidates env : forall t,
  List.map probe_address (probes_until_success candidates env t)
  = firstn (List.length (probes_until_success candidates env t)) candidates.
Proof.
  induction candidates as [ | a rest IH]; intros t; cbn [probes_until_success]; [reflexivity | ].
  destruct (probe_reports_success (mlx_begin_result env t));
    cbn [List.map List.length firstn probe_address]; [reflexivity | ].
  rewrite IH. reflexivity.
Qed.

Lemma probes_stop_at_success candidates env : forall t before e after,
  probes_until_success candidates env t = before ++ e :: after ->
  after <> [] ->
  probe_event_succeeded e = false.
Proof.
  induction candidates as [ | a rest IH]; intros t before e after E N;
    cbn [probes_until_success] in E.
  - destruct before; discriminate E.
  - destruct (probe_reports_success (mlx_begin_result env t)) eqn:S.
    + destruct before as [ | b before]; cbn [app] in E.
      * injection E as _ E. congruence.
      * injection E as _ E. destruct before; discriminate E.
    + destruct before as [ | b before]; cbn [app] in E.
      * injection E as <- _. cbn [probe_event_succeeded].
        destruct (mlx_begin_result env t); exact S.
      * injection E as _ E. exact (IH _ _ _ _ E N).
Qed.

Lemma probes_early_stop candidates env : forall t,
  (List.length (probes_until_success candidates env t) < List.length candidates)%nat ->
  existsb probe_event_succeeded (probes_until_success candidates env t) = true.
Proof.
  induction candidates as [ | a rest IH]; intros t; cbn [probes_until_success List.length].
  - lia.
  - destruct (probe_reports_success (mlx_begin_result env t)) eqn:S;
      cbn [List.length existsb probe_event_succeeded]; intros L.
    + destruct (mlx_begin_result env t); cbn [fst snd]. rewrite S. reflexivity.
    + rewrite IH by lia. apply orb_true_r.
Qed.

Lemma probes_at_candidates candidates env : forall t e,
  In e (probes_until_success candidates env t) ->
  exists addr ok st, e = MlxBegin addr ok st /\ In addr candidates.
Proof.
  induction candidates as [ | a rest IH]; intros t e H; cbn [probes_until_success] in H.
  - destruct H.
  - destruct H as [<- | H].
    + do 3 eexists. split; [reflexivity | left; reflexivity].
    + destruct (probe_reports_success (mlx_begin_result env t)); [destruct H | ].
      destruct (IH _ _ H) as (addr & ok & st & E & I).
      exists addr, ok, st. split; [exact E | right; exact I].
Qed.

(** C9. While the sensors are set up the temperature sensor is probed at
    0x3A and 0x3B alternately, at most six times (three rounds of two), and
    not again after a probe that reports success; the sensor is marked
    available exactly when one of these probes reports success. The rest of
    [setup] makes no probe. *)
Theorem C9_sensor_probing :
  (forall env w,
     exists w',
       setup_sensors env w = Done tt w'
       /\ let probes := probes_until_success probe_candidates env (tick w) in
          filter is_probe (events w') = filter is_probe (events w) ++ probes
          /\ (forall e, In e probes ->
                exists ok st, e = MlxBegin 0x3A ok st \/ e = MlxBegin 0x3B ok st)
          /\ List.map probe_address probes
             = firstn (List.length probes) [0x3A; 0x3B; 0x3A; 0x3B; 0x3A; 0x3B]
          /\ (List.length probes <= 6)%nat
          /\ (forall before e after,
                probes = before ++ e :: after -> after <> [] ->
                probe_event_succeeded e = false)
          /\ ((List.length probes < 6)%nat ->
              existsb probe_event_succeeded probes = true)
          /\ (mlxSensorAvailable (globals w) = false ->
              (mlxSensorAvailable (globals w') = true
               <-> exists e, In e probes /\ probe_event_succeeded e = true)))
  /\ (forall fuel, emits_only (fun e => is_probe e = false) (setup_serial fuel))
  /\ (forall fuel, emits_only (fun e => is_probe e = false) (setup_radio fuel))
  /\ emits_only (fun e => is_probe e = false) setup_join.
Proof.
  split; [ | split; [ | split] ].
  - intros env [g t tr].
    destruct (setup_sensors_trace env g t tr) as (g' & t' & tr' & E & Hp & Ha).
    eexists. split; [exact E | ]. cbv zeta. cbn [globals tick].
    split; [ | split; [ | split; [ | split; [ | split; [ | split] ] ] ] ].
    + apply filter_events_of_trace. exact Hp.
    + intros e I. destruct (probes_at_candidates _ _ _ _ I) as (addr & ok & st & -> & Ia).
      exists ok, st. cbn in Ia.
      repeat (destruct Ia as [<- | Ia]; [auto | ]). destruct Ia.
    + apply (probes_addresses probe_candidates).
    + apply (probes_length probe_candidates).
    + apply probes_stop_at_success.
    + apply (probes_early_stop probe_candidates).
    + intros A. rewrite Ha, A. cbn [orb]. rewrite existsb_exists. reflexivity.
  - intros fuel. unfold setup_serial.
    apply emits_only_bind; [emits_only_auto | intros _].
    apply emits_only_while_; emits_only_auto.
  - intros fuel. unfold setup_radio, forever.
    repeat first [apply emits_only_while_ | emits_only_step].
  - unfold setup_join. emits_only_auto.
Qed.

(** ** setup: the two halting loops *)

Lemma forever_halt msg fuel : forall env w,
  forever fuel (println msg ;; delay 10000) env w
  = Spin {| globals := globals w; tick := tick w;
            trace := halt_trace msg fuel ++ trace w |}.
Proof.
  unfold forever. induction fuel as [ | fuel IH]; intros env [g t tr].
  - reflexivity.
  - cbn [while_ halt_trace].
    cbv beta iota zeta delta [bind ret println delay emit globals tick trace].
    rewrite IH. cbn [globals tick trace]. rewrite <- app_assoc. reflexivity.
Qed.

Lemma halt_trace_lines msg fuel : lines_printed msg (halt_trace msg fuel) = fuel.
Proof.
  unfold lines_printed. induction fuel as [ | fuel IH]; [reflexivity | ].
  cbn [halt_trace]. rewrite filter_app, length_app, IH.
  cbn [filter is_line]. rewrite String.eqb_refl. cbn [List.length]. lia.
Qed.

Lemma halt_trace_no_traffic msg fuel :
  Forall (fun e => is_loop_or_radio_traffic e = false) (halt_trace msg fuel).
Proof.
  induction fuel as [ | fuel IH]; [constructor | ].
  cbn [halt_trace]. apply Forall_app. split; [exact IH | ].
  repeat constructor.
Qed.

Lemma lines_printed_app msg l1 l2 :
  lines_printed msg (l1 ++ l2) = (lines_printed msg l1 + lines_printed msg l2)%nat.
Proof. unfold lines_printed. rewrite filter_app, length_app. reflexivity. Qed.

Lemma lines_printed_rev msg l : lines_printed msg (rev l) = lines_printed msg l.
Proof. unfold lines_printed. rewrite filter_rev_comm, length_rev. reflexivity. Qed.

(** The events in front of [tr] in an explicit trace. *)
Ltac strip_trace l tr :=
  lazymatch l with
  | tr => constr:(@nil event)
  | ?a :: ?l' => let r := strip_trace l' tr in constr:(a :: r)
  end.

Ltac prefix_witness tr :=
  lazymatch goal with
  | |- exists new, Spin {| globals := _; tick := _; trace := ?h ++ ?l |} = _ /\ _ =>
      let p := strip_trace l tr in exists (h ++ p)
  end.

(** When the radio chip or the stack fails to initialise, [setup_radio]
    never returns: it prints its halting line once per round for ever. *)
Lemma setup_radio_halts fuel env w :
  lora_rak4630_init_result env <> 0 \/ lmh_is_success (lmh_init_result env) = false ->
  exists new,
    setup_radio fuel env w
    = Spin {| globals := globals w; tick := tick w; trace := new ++ trace w |}
    /\ Forall (fun e => is_loop_or_radio_traffic e = false) new
    /\ (fuel <= lines_printed (halt_message env) new)%nat.
Proof.
  intros F. destruct w as [g t tr]. unfold setup_radio, halt_message.
  set (halt_lora := forever fuel (println halt_message_lora ;; delay 10000)).
  set (halt_stack := forever fuel (println halt_message_stack ;; delay 10000)).
  cbv beta iota zeta delta [bind ret println print println_int emit constant
    lora_rak4630_init lmh_init globals tick trace].
  subst halt_lora halt_stack.
  destruct (lora_rak4630_init_result env =? 0) eqn:L.
  - destruct F as [F | F]; [apply Z.eqb_eq in L; contradiction | ].
    rewrite F. rewrite forever_halt. cbn [globals tick trace].
    prefix_witness tr. split.
    + rewrite <- app_assoc. reflexivity.
    + split.
      * apply Forall_app. split; [apply halt_trace_no_traffic | repeat constructor].
      * rewrite lines_printed_app, halt_trace_lines. lia.
  - rewrite forever_halt. cbn [globals tick trace].
    prefix_witness tr. split.
    + rewrite <- app_assoc. reflexivity.
    + split.
      * apply Forall_app. split; [apply halt_trace_no_traffic | repeat constructor].
      * rewrite lines_printed_app, halt_trace_lines. lia.
Qed.

(** The wait for the serial port ends as soon as a poll finds it ready. *)
Lemma wait_serial_done fuel : forall env w k,
  (k < fuel)%nat -> Serial_ready env (k + tick w)%nat = true ->
  exists w',
    while_ fuel (ready <- Serial_operator_bool ;; ret (negb ready)) (delay 10) env w
    = Done tt w'.
Proof.
  induction fuel as [ | fuel IH]; intros env [g t tr] k Hk R; [lia | ].
  cbn [while_ tick] in *.
  cbv beta iota zeta delta [bind ret Serial_operator_bool query delay emit globals tick trace].
  destruct (Serial_ready env t) eqn:S0; cbn [negb].
  - eexists. reflexivity.
  - destruct k as [ | k]; [cbn in R; congruence | ].
    apply (IH env _ k); [lia | ]. cbn [tick].
    rewrite Nat.add_succ_r. exact R.
Qed.

Lemma setup_serial_done fuel env w k :
  (k < fuel)%nat -> Serial_ready env (k + tick w)%nat = true ->
  exists w', setup_serial fuel env w = Done tt w'.
Proof.
  intros Hk R. unfold setup_serial, bind, Serial_begin, emit.
  apply (wait_serial_done fuel env _ k Hk). exact R.
Qed.

Lemma emits_only_setup_serial P fuel :
  (forall e, is_loop_or_radio_traffic e = false -> P e) ->
  emits_only P (setup_serial fuel).
Proof.
  intros HP. unfold setup_serial.
  apply emits_only_bind; [ | intros _].
  - apply emits_only_emit. apply HP. reflexivity.
  - apply emits_only_while_.
    + apply emits_only_bind; [apply emits_only_query | intros ?; apply emits_only_ret].
    + apply emits_only_emit. apply HP. reflexivity.
Qed.

Lemma setup_sensors_no_traffic :
  emits_only (fun e => is_loop_or_radio_traffic e = false) setup_sensors.
Proof.
  unfold setup_sensors. cbn [setup_probe_attempts setup_probe_addresses]. emits_only_auto.
Qed.

(** C7. If the radio chip returns a nonzero code, or the LoRaWAN stack does
    not return success, [setup] never returns, however long it runs: for
    every amount of fuel it is still spinning. So the sketch never reaches
    [loop], never joins and never sends; and once the serial-port wait is
    over, the halting line has been printed at least once per round. *)
Theorem C7_init_failure_halts (fuel : nat) (env : Env) (w : World) :
  lora_rak4630_init_result env <> 0 \/ lmh_is_success (lmh_init_result env) = false ->
  exists w' new,
    setup fuel env w = Spin w'
    /\ sketch fuel env w = Spin w'
    /\ events w' = events w ++ new
    /\ Forall (fun e => is_loop_or_radio_traffic e = false) new
    /\ ((exists k, (k < fuel)%nat /\ Serial_ready env (k + tick w)%nat = true) ->
        (fuel <= lines_printed (halt_message env) new)%nat).
Proof.
  intros F.
  assert (R : exists w' new,
             setup fuel env w = Spin w'
             /\ trace w' = new ++ trace w
             /\ Forall (fun e => is_loop_or_radio_traffic e = false) new
             /\ ((exists k, (k < fuel)%nat /\ Serial_ready env (k + tick w)%nat = true) ->
                 (fuel <= lines_printed (halt_message env) new)%nat)).
  { unfold setup.
    destruct (emits_only_setup_serial (fun e => is_loop_or_radio_traffic e = false) fuel
                ltac:(auto) env w) as (n1 & E1 & F1).
    unfold bind at 1.
    destruct (setup_serial fuel env w) as [[] w1 | w1] eqn:S1; cbn [world_of] in E1.
    - destruct (setup_sensors_no_traffic env w1) as (n2 & E2 & F2).
      destruct (terminates_setup_sensors env w1) as ([] & w2 & S2).
      unfold bind at 1. rewrite S2 in *. cbn [world_of] in E2.
      destruct (setup_radio_halts fuel env w2 F) as (n3 & S3 & F3 & L3).
      unfold bind at 1. rewrite S3.
      eexists _, (n3 ++ n2 ++ n1). split; [reflexivity | ]. cbn [trace].
      split; [rewrite E2, E1, <- !app_assoc; reflexivity | ].
      split; [repeat (apply Forall_app; split); assumption | ].
      intros _. rewrite lines_printed_app. lia.
    - exists w1, n1. split; [reflexivity | ]. split; [exact E1 | ]. split; [exact F1 | ].
      intros (k & Hk & Rk).
      destruct (setup_serial_done fuel env w k Hk Rk) as (w1' & S1').
      congruence. }
  destruct R as (w' & new & E & T & Fa & L).
  exists w', (rev new). split; [exact E | ]. split.
  - unfold sketch, bind. rewrite E. reflexivity.
  - split; [apply events_of_trace; exact T | ].
    split; [apply Forall_rev; exact Fa | ].
    intros K. rewrite lines_printed_rev. exact (L K).
Qed.

Lemma C7_init_failure_halts_witness :
  (lora_rak4630_init_result failing_env <> 0
   \/ lmh_is_success (lmh_init_result failing_env) = false)
  /\ exists w', setup 5 failing_env initial_world = Spin w'
                /\ sketch 5 failing_env initial_world = Spin w'.
Proof.
  assert (F : lora_rak4630_init_result failing_env <> 0
              \/ lmh_is_success (lmh_init_result failing_env) = false)
    by (left; discriminate).
  split; [exact F | ].
  destruct (C7_init_failure_halts 5 failing_env initial_world F) as (w' & new & E & S & _).
  exists w'. split; assumption.
Defined.

(** ** loop and the join callbacks *)

Lemma emits_only_filter (f : event -> bool) {A} (p : M A) :
  emits_only (fun e => f e = false) p ->
  forall env w, filter f (trace (world_of (p env w))) = filter f (trace w).
Proof.
  intros H env w. destruct (H env w) as (new & E & F). rewrite E, filter_app.
  replace (filter f new) with (@nil event); [reflexivity | ].
  clear E. induction new as [ | e new IH]; [reflexivity | ].
  inversion F as [ | ? ? He Hnew]; subst. cbn [filter]. rewrite He. apply IH. exact Hnew.
Qed.

Lemma filter_is_send_hw l : filter is_send (hw l) = filter is_send l.
Proof.
  unfold hw. induction l as [ | e l IH]; [reflexivity | ].
  destruct e; cbn [filter is_serial negb is_send]; rewrite ?IH; reflexivity.
Qed.

Ltac run_loop :=
  cbv beta iota zeta delta
    [loop_join_retry loop_send and_then when bind ret emit query gets modify
     lmh_join_status_get millis lmh_join println print print_int
     set_joinAttempts set_joinInProgress set_lastJoinAttempt set_lastSensorRead
     mlxSensorAvailable lastSensorRead lastJoinAttempt joinInProgress joinAttempts
     lastStatusPrint globals tick trace retry_due].

(** Lines 234-247 return; they call [lmh_join] exactly when the stack
    reports not joined, no join is in progress and more than the retry
    interval has passed since [lastJoinAttempt]. *)
Lemma loop_join_retry_run env g t tr :
  exists g' t' tr',
    loop_join_retry env {| globals := g; tick := t; trace := tr |}
    = Done tt {| globals := g'; tick := t'; trace := tr' |}
    /\ filter is_join tr'
       = (if retry_due env {| globals := g; tick := t; trace := tr |}
          then [LmhJoin] else []) ++ filter is_join tr
    /\ filter is_send tr' = filter is_send tr
    /\ lastSensorRead g' = lastSensorRead g
    /\ mlxSensorAvailable g' = mlxSensorAvailable g
    /\ (retry_due env {| globals := g; tick := t; trace := tr |} = true ->
        joinInProgress g' = true
        /\ lastJoinAttempt g' = CInt.to_uint32 (millis_value env (S (S t))))
    /\ (retry_due env {| globals := g; tick := t; trace := tr |} = false -> g' = g)
    /\ (lmh_join_status env t = true -> t' = S t).
Proof.
  destruct g as [av lsr lja jip ja lsp]. run_loop.
  destruct (lmh_join_status env t); cbn [negb andb]; run_loop;
    [ | destruct jip; cbn [negb andb]; run_loop;
        [ | destruct (JOIN_RETRY_INTERVAL
                      <? CInt.to_uint32 (CInt.to_uint32 (millis_value env (S t)) - lja));
            run_loop ] ].
  all: do 3 eexists; (split; [reflexivity | ]).
  all: cbn [filter is_join is_send app].
  all: repeat split; try reflexivity; try discriminate.
Qed.

Lemma filter_is_send_frame env g t :
  filter is_send (rev (frame_hw env g t))
  = [LmhSend (frame_app_data env g t) LMH_UNCONFIRMED_MSG
             (lmh_send_result env (S (frame_battery_tick g t)))].
Proof. unfold frame_hw. destruct (mlxSensorAvailable g); reflexivity. Qed.

(** Lines 249-253 when the stack reports joined and the interval has
    passed: one frame is sent and [lastSensorRead] is set to the clock. *)
Lemma loop_send_fires env g t tr :
  lmh_join_status env t = true ->
  (SENSOR_INTERVAL
   <=? CInt.to_uint32 (CInt.to_uint32 (millis_value env (S t)) - lastSensorRead g)) = true ->
  exists g' t' tr',
    loop_send env {| globals := g; tick := t; trace := tr |}
    = Done tt {| globals := g'; tick := t'; trace := tr' |}
    /\ filter is_send tr'
       = LmhSend (frame_app_data env g (S (S t))) LMH_UNCONFIRMED_MSG
                 (lmh_send_result env (S (frame_battery_tick g (S (S t)))))
         :: filter is_send tr
    /\ lastSensorRead g'
       = CInt.to_uint32 (millis_value env (S (S (frame_battery_tick g (S (S t)))))).
Proof.
  intros J D. destruct g as [av lsr lja jip ja lsp]. cbn [lastSensorRead] in D.
  run_loop. rewrite J. run_loop. rewrite D. run_loop.
  match goal with
  | |- context [send_lora_frame env {| globals := ?g; tick := ?n; trace := ?l |}] =>
      destruct (send_lora_frame_trace env g n l) as (tr' & E & H); rewrite E
  end.
  run_loop. do 3 eexists. split; [reflexivity | ].
  split; [ | reflexivity].
  cbn [filter is_send]. rewrite <- (filter_is_send_hw tr'), H, filter_app.
  rewrite filter_is_send_frame, filter_is_send_hw. reflexivity.
Qed.

Lemma loop_status_no_send_no_join :
  emits_only (fun e => is_send e = false) (loop_status ;; delay 100)
  /\ emits_only (fun e => is_join e = false) (loop_send ;; loop_status ;; delay 100)
  /\ terminates (loop_send ;; loop_status ;; delay 100).
Proof.
  split; [ | split].
  - unfold loop_status. emits_only_auto.
  - unfold loop_send, loop_status, send_lora_frame. emits_only_auto.
  - unfold loop_send, loop_status, send_lora_frame. terminates_auto.
Qed.

Lemma loop_tail_keeps_join_state :
  keeps joinInProgress (loop_send ;; loop_status ;; delay 100)
  /\ keeps lastJoinAttempt (loop_send ;; loop_status ;; delay 100).
Proof.
  split; unfold loop_send, loop_status, send_lora_frame; keeps_auto.
Qed.

Lemma retry_due_iff env w :
  retry_due env w = true
  <-> lmh_join_status env (tick w) = false
      /\ joinInProgress (globals w) = false
      /\ JOIN_RETRY_INTERVAL
         < CInt.to_uint32 (CInt.to_uint32 (millis_value env (S (tick w)))
                           - lastJoinAttempt (globals w)).
Proof.
  unfold retry_due. rewrite !andb_true_iff, !negb_true_iff, Z.ltb_lt. tauto.
Qed.

Ltac run_handler :=
  cbv beta iota zeta delta
    [lorawan_join_failed_handler lorawan_has_joined_handler bind ret emit query gets modify
     println print print_int millis lmh_class_request globals tick trace].

Lemma join_failed_handler_run env g t tr :
  exists tr',
    lorawan_join_failed_handler env {| globals := g; tick := t; trace := tr |}
    = Done tt {| globals := set_joinInProgress false g; tick := t; trace := tr' |}
    /\ hw tr' = hw tr.
Proof.
  run_handler. eexists. split; [reflexivity | ]. hw_norm. reflexivity.
Qed.

(** C5. The join-failure callback clears [joinInProgress] and calls nothing:
    no join request leaves it (nor any other callback). One iteration of
    [loop] calls [lmh_join] exactly when the stack reports not joined, no
    join is in progress and the 32-bit clock has advanced by more than
    120000 ms since [lastJoinAttempt]; it then marks the join in progress and
    restarts the interval. *)
Theorem C5_join_retry_supervision :
  JOIN_RETRY_INTERVAL = 120000
  /\ (forall env w,
        exists w',
          lorawan_join_failed_handler env w = Done tt w'
          /\ joinInProgress (globals w') = false
          /\ lastJoinAttempt (globals w') = lastJoinAttempt (globals w)
          /\ tick w' = tick w
          /\ hw (events w') = hw (events w))
  /\ (forall cb, emits_only (fun e => is_join e = false) (g_lora_callbacks cb))
  /\ (forall env w,
        retry_due env w = true
        <-> lmh_join_status env (tick w) = false
            /\ joinInProgress (globals w) = false
            /\ JOIN_RETRY_INTERVAL
               < CInt.to_uint32 (CInt.to_uint32 (millis_value env (S (tick w)))
                                 - lastJoinAttempt (globals w)))
  /\ (forall env w,
        exists w',
          loop env w = Done tt w'
          /\ filter is_join (events w')
             = filter is_join (events w) ++ (if retry_due env w then [LmhJoin] else [])
          /\ (retry_due env w = true ->
              joinInProgress (globals w') = true
              /\ lastJoinAttempt (globals w')
                 = CInt.to_uint32 (millis_value env (S (S (tick w)))))
          /\ (retry_due env w = false ->
              joinInProgress (globals w') = joinInProgress (globals w)
              /\ lastJoinAttempt (globals w') = lastJoinAttempt (globals w))).
Proof.
  split; [reflexivity | ]. split; [ | split; [ | split; [exact retry_due_iff | ] ] ].
  - intros env [g t tr].
    destruct (join_failed_handler_run env g t tr) as (tr' & E & H).
    eexists. split; [exact E | ]. cbn [globals tick].
    split; [reflexivity | ]. split; [reflexivity | ]. split; [reflexivity | ].
    unfold events. cbn [trace]. rewrite !hw_rev, H. reflexivity.
  - intros cb. destruct cb; cbn [g_lora_callbacks];
      unfold lorawan_rx_handler, lorawan_has_joined_handler,
        lorawan_confirm_class_handler, lorawan_join_failed_handler;
      emits_only_auto.
  - intros env [g t tr].
    destruct (loop_join_retry_run env g t (RadioIrqProcess :: tr))
      as (g1 & t1 & tr1 & E1 & J1 & _ & _ & _ & D1 & N1 & _).
    destruct loop_status_no_send_no_join as (_ & NJ & T).
    destruct loop_tail_keeps_join_state as [KP KA].
    set (w1 := {| globals := g1; tick := t1; trace := tr1 |}) in *.
    destruct (T env w1) as ([] & w2 & E2).
    pose proof (emits_only_filter is_join _ NJ env w1) as J2.
    pose proof (KP env w1) as P2. pose proof (KA env w1) as A2.
    rewrite E2 in J2, P2, A2. cbn [world_of] in J2, P2, A2.
    exists w2. split.
    + unfold loop. unfold bind at 1. cbn [Radio_IrqProcess emit globals tick trace].
      rewrite (bind_done _ _ _ _ _ _ E1). exact E2.
    + cbn [globals tick].
      change (retry_due env {| globals := g; tick := t; trace := RadioIrqProcess :: tr |})
        with (retry_due env {| globals := g; tick := t; trace := tr |}) in *.
      split; [ | split].
      * apply filter_events_of_trace. rewrite J2. subst w1. cbn [trace].
        rewrite J1. cbn [filter is_join].
        destruct (retry_due env {| globals := g; tick := t; trace := tr |}); reflexivity.
      * intros R. rewrite P2, A2. subst w1. cbn [globals]. exact (D1 R).
      * intros R. rewrite P2, A2. subst w1. cbn [globals]. rewrite (N1 R).
        split; reflexivity.
Qed.

Lemma has_joined_handler_run env g t tr :
  exists tr',
    lorawan_has_joined_handler env {| globals := g; tick := t; trace := tr |}
    = Done tt {| globals :=
                   set_lastSensorRead
                     (CInt.to_uint32 (CInt.to_uint32 (millis_value env t) - SENSOR_INTERVAL))
                     (set_joinInProgress false g);
                 tick := S t; trace := tr' |}
    /\ filter is_send tr' = filter is_send tr
    /\ filter is_join tr' = filter is_join tr.
Proof.
  run_handler. eexists. split; [reflexivity | ]. split; reflexivity.
Qed.

(** The clock test of line 250 after the back-dating of line 375, in 32-bit
    unsigned arithmetic. *)
Lemma backdated_send_is_due t0 t1 :
  t0 <= t1 < t0 + (2 ^ 32 - SENSOR_INTERVAL) ->
  (SENSOR_INTERVAL
   <=? CInt.to_uint32
         (CInt.to_uint32 t1
          - CInt.to_uint32 (CInt.to_uint32 t0 - SENSOR_INTERVAL))) = true.
Proof.
  unfold CInt.to_uint32, CInt.wrap_unsigned, SENSOR_INTERVAL.
  change (2 ^ 32) with 4294967296. intros H. apply Z.leb_le.
  Z.div_mod_to_equations. lia.
Qed.

(** C6. The join-success callback clears [joinInProgress] and sets
    [lastSensorRead] to the clock minus the 60000 ms send interval (modulo
    2^32). If the stack reports joined during the next iteration of [loop]
    and that iteration reads the clock less than 2^32 - 60000 ms after the
    callback did, the iteration sends one frame. *)
Theorem C6_join_success_triggers_send (env : Env) (w : World) :
  lmh_join_status env (S (tick w)) = true ->
  lmh_join_status env (S (S (tick w))) = true ->
  millis_value env (tick w) <= millis_value env (S (S (S (tick w))))
    < millis_value env (tick w) + (2 ^ 32 - SENSOR_INTERVAL) ->
  SENSOR_INTERVAL = 60000
  /\ exists w1 w2 frame result,
       lorawan_has_joined_handler env w = Done tt w1
       /\ joinInProgress (globals w1) = false
       /\ lastSensorRead (globals w1)
          = CInt.to_uint32 (CInt.to_uint32 (millis_value env (tick w)) - SENSOR_INTERVAL)
       /\ filter is_send (events w1) = filter is_send (events w)
       /\ loop env w1 = Done tt w2
       /\ filter is_send (events w2)
          = filter is_send (events w1) ++ [LmhSend frame LMH_UNCONFIRMED_MSG result].
Proof.
  intros J1 J2 Ht. split; [reflexivity | ].
  destruct w as [g t tr]. cbn [tick] in *.
  destruct (has_joined_handler_run env g t tr) as (tr1 & E1 & S1 & _).
  set (g1 := set_lastSensorRead
               (CInt.to_uint32 (CInt.to_uint32 (millis_value env t) - SENSOR_INTERVAL))
               (set_joinInProgress false g)) in *.
  destruct (loop_join_retry_run env g1 (S t) (RadioIrqProcess :: tr1))
    as (g2 & t2 & tr2 & E2 & _ & S2 & L2 & _ & _ & N2 & T2).
  assert (R : retry_due env {| globals := g1; tick := S t;
                               trace := RadioIrqProcess :: tr1 |} = false).
  { unfold retry_due. cbn [tick]. rewrite J1. reflexivity. }
  specialize (N2 R). specialize (T2 J1). subst g2 t2.
  destruct (loop_send_fires env g1 (S (S t)) tr2 J2) as (g3 & t3 & tr3 & E3 & S3 & _).
  { subst g1. destruct g. cbn [lastSensorRead set_lastSensorRead].
    apply backdated_send_is_due. exact Ht. }
  destruct loop_status_no_send_no_join as (NS & _ & _).
  set (w3 := {| globals := g3; tick := t3; trace := tr3 |}) in *.
  assert (T : terminates (loop_status ;; delay 100))
    by (unfold loop_status; terminates_auto).
  destruct (T env w3) as ([] & w4 & E4).
  pose proof (emits_only_filter is_send _ NS env w3) as S4.
  rewrite E4 in S4. cbn [world_of] in S4.
  eexists _, w4, _, _. split; [exact E1 | ]. cbn [globals].
  split; [subst g1; destruct g; reflexivity | ].
  split; [subst g1; destruct g; reflexivity | ].
  split; [unfold events; cbn [trace]; rewrite !filter_rev_comm, S1; reflexivity | ].
  split.
  - unfold loop. unfold bind at 1. cbn [Radio_IrqProcess emit globals tick trace].
    rewrite (bind_done _ _ _ _ _ _ E2). rewrite (bind_done _ _ _ _ _ _ E3). exact E4.
  - apply filter_events_of_trace. rewrite S4. subst w3. cbn [trace rev app].
    rewrite S3, S2. reflexivity.
Qed.

Lemma C6_join_success_triggers_send_witness :
  lmh_join_status example_env (S (tick initial_world)) = true
  /\ lmh_join_status example_env (S (S (tick initial_world))) = true
  /\ (millis_value example_env (tick initial_world)
      <= millis_value example_env (S (S (S (tick initial_world))))
      < millis_value example_env (tick initial_world) + (2 ^ 32 - SENSOR_INTERVAL))
  /\ exists w1 w2,
       lorawan_has_joined_handler example_env initial_world = Done tt w1
       /\ loop example_env w1 = Done tt w2.
Proof.
  assert (J1 : lmh_join_status example_env (S (tick initial_world)) = true) by reflexivity.
  assert (J2 : lmh_join_status example_env (S (S (tick initial_world))) = true)
    by reflexivity.
  assert (Ht : millis_value example_env (tick initial_world)
               <= millis_value example_env (S (S (S (tick initial_world))))
               < millis_value example_env (tick initial_world) + (2 ^ 32 - SENSOR_INTERVAL))
    by (vm_compute; split; [discriminate | reflexivity]).
  split; [exact J1 | ]. split; [exact J2 | ]. split; [exact Ht | ].
  destruct (C6_join_success_triggers_send example_env initial_world J1 J2 Ht)
    as (_ & w1 & w2 & frame & result & E1 & _ & _ & _ & E2 & _).
  exists w1, w2. split; assumption.
Defined.

(** * Further properties of the sketch *)

(** ** send_lora_frame: power, battery, monotone calibration *)

(** X1. One call of [send_lora_frame] powers the soil sensor 1000 ms before
    its first sample and cuts the power right after the last; it powers the
    temperature sensor only around its single reading, and when the sensor
    is marked unavailable it neither powers nor reads it. It returns and
    leaves every global as it was. *)
Theorem X1_frame_powers_sensors_only_while_reading (env : Env) (w : World) :
  exists w' sampling thermo tail,
    send_lora_frame env w = Done tt w'
    /\ globals w' = globals w
    /\ hw (events w')
       = hw (events w)
         ++ [DigitalWrite SOIL_POWER_PIN HIGH; Delay 1000] ++ sampling
         ++ [DigitalWrite SOIL_POWER_PIN LOW] ++ thermo ++ tail
    /\ Forall (fun e => is_analog_read e || is_delay e = true) sampling
    /\ (mlxSensorAvailable (globals w) = false -> thermo = [])
    /\ (mlxSensorAvailable (globals w) = true ->
        exists temp,
          thermo = [ DigitalWrite MLX_POWER_PIN LOW; Delay 500;
                     MlxGetObjectTemp temp; DigitalWrite MLX_POWER_PIN HIGH ])
    /\ Forall (fun e => is_digital_write e || is_analog_read e || is_temp_read e = false)
              tail.
Proof.
  destruct (send_lora_frame_run env w) as (w' & E & G & _ & H).
  exists w'.
  exists [ AnalogRead SOIL_SENSOR_PIN (frame_sample env (tick w) 0); Delay 100;
           AnalogRead SOIL_SENSOR_PIN (frame_sample env (tick w) 1); Delay 100;
           AnalogRead SOIL_SENSOR_PIN (frame_sample env (tick w) 2); Delay 100;
           AnalogRead SOIL_SENSOR_PIN (frame_sample env (tick w) 3); Delay 100;
           AnalogRead SOIL_SENSOR_PIN (frame_sample env (tick w) 4); Delay 100 ].
  exists (if mlxSensorAvailable (globals w)
          then [ DigitalWrite MLX_POWER_PIN LOW; Delay 500;
                 MlxGetObjectTemp (frame_temp env (tick w));
                 DigitalWrite MLX_POWER_PIN HIGH ]
          else []).
  eexists. split; [exact E | ]. split; [exact G | ].
  split; [rewrite H; unfold frame_hw; reflexivity | ].
  split; [repeat constructor | ].
  split; [intros A; rewrite A; reflexivity | ].
  split; [intros A; rewrite A; eexists; reflexivity | ].
  repeat constructor.
Qed.

Lemma frame_hw_battery env g t :
  exists pre,
    frame_hw env g t
    = pre ++ [ BoardGetBatteryLevel (frame_battery env g t);
               LmhSend (frame_app_data env g t) LMH_UNCONFIRMED_MSG
                       (lmh_send_result env (S (frame_battery_tick g t))) ]
    /\ filter is_battery_read pre = [].
Proof.
  unfold frame_hw. destruct (mlxSensorAvailable g); eexists; split;
    try (rewrite app_assoc; reflexivity); reflexivity.
Qed.

(** X2. The battery level is asked for once per frame, just before the
    send; with [level] the board's answer (a [uint8_t]), bytes 4 and 5 of
    the frame are the high and the low byte of [100 * level], which always
    fits 16 bits. *)
Theorem X2_battery_bytes (env : Env) (w : World) :
  exists w' pre level frame result,
    send_lora_frame env w = Done tt w'
    /\ hw (events w')
       = hw (events w) ++ pre
         ++ [BoardGetBatteryLevel level; LmhSend frame LMH_UNCONFIRMED_MSG result]
    /\ filter is_battery_read pre = []
    /\ 0 <= level < 256
    /\ nth 4 (buffer frame) 0 = (100 * level) / 256
    /\ nth 5 (buffer frame) 0 = (100 * level) mod 256
    /\ CInt.decode_u16 (nth 4 (buffer frame) 0) (nth 5 (buffer frame) 0) = 100 * level.
Proof.
  destruct (send_lora_frame_run env w) as (w' & E & _ & _ & H).
  destruct (frame_hw_battery env (globals w) (tick w)) as (pre & S & Hb).
  exists w', pre. eexists _, _, _. split; [exact E | ].
  split; [rewrite H, S; reflexivity | ]. split; [exact Hb | ].
  pose proof (to_uint8_range
                (BoardGetBatteryLevel_value env (frame_battery_tick (globals w) (tick w))))
    as R.
  fold (frame_battery env (globals w) (tick w)) in R.
  split; [exact R | ].
  cbn [buffer frame_app_data]. unfold payload_bytes. cbv zeta. cbn [nth].
  rewrite high_byte, low_byte, (battery_checked _ R).
  assert (Hh : (100 * frame_battery env (globals w) (tick w) / 256) mod 256
               = 100 * frame_battery env (globals w) (tick w) / 256).
  { apply Z.mod_small. split; [apply Z.div_pos | apply Z.div_lt_upper_bound]; lia. }
  rewrite Hh. split; [reflexivity | ]. split; [reflexivity | ].
  rewrite <- Hh at 1. apply decode_u16_bytes. lia.
Qed.

(** X3. The calibration is monotone: of two raw readings the lower one (the
    wetter soil) never gets the smaller percentage. *)
Theorem X3_soil_moisture_monotone (raw1 raw2 : Z) :
  0 <= raw1 <= raw2 -> raw2 < 2 ^ 24 ->
  exists p1 p2,
    soil_moisture_of_raw raw1 = F32.of_int p1
    /\ soil_moisture_of_raw raw2 = F32.of_int p2
    /\ 0 <= p2 <= p1 /\ p1 <= 100.
Proof.
  intros H1 H2.
  assert (R1 : 0 <= raw1 < 2 ^ 24) by lia.
  assert (R2 : 0 <= raw2 < 2 ^ 24) by lia.
  destruct (soil_moisture_regimes raw1 R1) as (D1 & W1 & M1).
  destruct (soil_moisture_regimes raw2 R2) as (D2 & W2 & M2).
  destruct (Z_le_gt_dec 3000 raw2) as [A2 | A2].
  - destruct (soil_moisture_whole raw1 R1) as (p1 & Hp1 & E1).
    exists p1, 0. rewrite (D2 A2). repeat split; try assumption; lia.
  - destruct (Z_le_gt_dec raw1 1300) as [A1 | A1].
    + destruct (soil_moisture_whole raw2 R2) as (p2 & Hp2 & E2).
      exists 100, p2. rewrite (W1 A1). repeat split; try assumption; lia.
    + destruct (M1 ltac:(lia)) as [E1 B1].
      destruct (M2 ltac:(lia)) as [E2 B2].
      exists ((3000 - raw1) * 100 / 1700), ((3000 - raw2) * 100 / 1700).
      split; [exact E1 | ]. split; [exact E2 | ].
      split; [ | lia]. split; [lia | ].
      apply Z.div_le_mono; lia.
Qed.

Lemma X3_soil_moisture_monotone_witness :
  0 <= 1500 <= 2500 /\ 2500 < 2 ^ 24
  /\ exists p1 p2,
       soil_moisture_of_raw 1500 = F32.of_int p1
       /\ soil_moisture_of_raw 2500 = F32.of_int p2
       /\ 0 <= p2 <= p1 /\ p1 <= 100.
Proof.
  assert (H1 : 0 <= 1500 <= 2500) by lia.
  assert (H2 : 2500 < 2 ^ 24) by (change (2 ^ 24) with 16777216; lia).
  split; [exact H1 | ]. split; [exact H2 | ].
  exact (X3_soil_moisture_monotone 1500 2500 H1 H2).
Defined.

(** ** loop: the send cadence and the timers *)

(** Lines 249-253 in full: what is sent and what becomes of the globals. *)
Lemma loop_send_run env g t tr :
  exists g' t' tr',
    loop_send env {| globals := g; tick := t; trace := tr |}
    = Done tt {| globals := g'; tick := t'; trace := tr' |}
    /\ filter is_send tr'
       = (if send_due env g t
          then [LmhSend (frame_app_data env g (S (S t))) LMH_UNCONFIRMED_MSG
                        (lmh_send_result env (S (frame_battery_tick g (S (S t)))))]
          else []) ++ filter is_send tr
    /\ g' = (if send_due env g t
             then set_lastSensorRead
                    (CInt.to_uint32
                       (millis_value env (S (S (frame_battery_tick g (S (S t))))))) g
             else g).
Proof.
  unfold send_due. destruct g as [av lsr lja jip ja lsp]. cbn [lastSensorRead].
  run_loop.
  destruct (lmh_join_status env t); cbn [andb]; run_loop;
    [ destruct (SENSOR_INTERVAL
                <=? CInt.to_uint32 (CInt.to_uint32 (millis_value env (S t)) - lsr));
      run_loop | ].
  - match goal with
    | |- context [send_lora_frame env {| globals := ?g; tick := ?n; trace := ?l |}] =>
        destruct (send_lora_frame_trace env g n l) as (tr' & E & H); rewrite E
    end.
    run_loop. do 3 eexists. split; [reflexivity | ].
    split; [ | reflexivity].
    cbn [filter is_send app]. rewrite <- (filter_is_send_hw tr'), H, filter_app.
    rewrite filter_is_send_frame, filter_is_send_hw. reflexivity.
  - do 3 eexists. split; [reflexivity | ]. split; reflexivity.
  - do 3 eexists. split; [reflexivity | ]. split; reflexivity.
Qed.

Lemma send_due_iff env g t :
  send_due env g t = true
  <-> lmh_join_status env t = true
      /\ SENSOR_INTERVAL
         <= CInt.to_uint32 (CInt.to_uint32 (millis_value env (S t)) - lastSensorRead g).
Proof. unfold send_due. rewrite andb_true_iff, Z.leb_le. tauto. Qed.

Lemma filter_events_same (f : event -> bool) (w w' : World) :
  filter f (trace w') = filter f (trace w) ->
  filter f (events w') = filter f (events w).
Proof. intros H. unfold events. rewrite !filter_rev_comm, H. reflexivity. Qed.

(** The frame's last call is the send; it reads no clock. *)
Lemma frame_hw_last env g t :
  frame_hw env g t
  = removelast (frame_hw env g t)
    ++ [ LmhSend (frame_app_data env g t) LMH_UNCONFIRMED_MSG
                 (lmh_send_result env (S (frame_battery_tick g t))) ]
  /\ filter is_send (removelast (frame_hw env g t)) = []
  /\ filter is_clock_read (removelast (frame_hw env g t)) = [].
Proof. unfold frame_hw. destruct (mlxSensorAvailable g); repeat split; reflexivity. Qed.

(** Lines 249-253 when a frame is due: the calls in their order. *)
Lemma loop_send_due_hw env g t tr :
  send_due env g t = true ->
  exists t' tr',
    loop_send env {| globals := g; tick := t; trace := tr |}
    = Done tt
        {| globals :=
             set_lastSensorRead
               (CInt.to_uint32
                  (millis_value env (S (S (frame_battery_tick g (S (S t))))))) g;
           tick := t'; trace := tr' |}
    /\ hw tr'
       = Millis (CInt.to_uint32
                   (millis_value env (S (S (frame_battery_tick g (S (S t)))))))
         :: rev (frame_hw env g (S (S t)))
         ++ Millis (CInt.to_uint32 (millis_value env (S t)))
         :: LmhJoinStatusGet true :: hw tr.
Proof.
  intros D. apply send_due_iff in D. destruct D as [J D]. apply Z.leb_le in D.
  destruct g as [av lsr lja jip ja lsp]. cbn [lastSensorRead] in D.
  run_loop. rewrite J. run_loop. rewrite D. run_loop.
  match goal with
  | |- context [send_lora_frame env {| globals := ?g; tick := ?n; trace := ?l |}] =>
      destruct (send_lora_frame_trace env g n l) as (tr' & E & H); rewrite E
  end.
  run_loop. do 2 eexists. split; [reflexivity | ].
  unfold hw in *. cbn [filter is_serial negb]. rewrite H.
  cbn [filter is_serial negb]. reflexivity.
Qed.

(** X4. Lines 249-253 of [loop] send a frame exactly when the stack reports
    joined and the 32-bit clock is at least 60000 ms past [lastSensorRead].
    When they do, the frame is built and sent without reading the clock,
    the call that follows [lmh_send] is a new reading of the clock, and
    [lastSensorRead] becomes the value of that reading, whatever [lmh_send]
    returned (a failed send is not repeated before the next interval); no
    other global changes. When they do not, nothing is sent
    and no global changes. *)
Theorem X4_send_cadence (env : Env) (w : World) :
  exists w',
    loop_send env w = Done tt w'
    /\ (send_due env (globals w) (tick w) = true
        <-> lmh_join_status env (tick w) = true
            /\ 60000 <= CInt.to_uint32 (CInt.to_uint32 (millis_value env (S (tick w)))
                                        - lastSensorRead (globals w)))
    /\ (send_due env (globals w) (tick w) = false ->
        globals w' = globals w
        /\ filter is_send (events w') = filter is_send (events w))
    /\ (send_due env (globals w) (tick w) = true ->
        exists now pre frame result later n,
          hw (events w')
          = hw (events w)
            ++ [LmhJoinStatusGet true; Millis now] ++ pre
            ++ [LmhSend frame LMH_UNCONFIRMED_MSG result; Millis later]
          /\ filter is_send pre = []
          /\ filter is_clock_read pre = []
          /\ filter is_send (events w')
             = filter is_send (events w) ++ [LmhSend frame LMH_UNCONFIRMED_MSG result]
          /\ later = CInt.to_uint32 (millis_value env n)
          /\ (S (tick w) < n)%nat
          /\ globals w' = set_lastSensorRead later (globals w)).
Proof.
  destruct w as [g t tr].
  destruct (loop_send_run env g t tr) as (g' & t' & tr' & E & S & G).
  eexists. split; [exact E | ]. cbn [globals tick].
  split; [exact (send_due_iff env g t) | ].
  split.
  - intros D. rewrite D in *. split; [exact G | ].
    apply filter_events_same. exact S.
  - intros D. rewrite D in *.
    destruct (loop_send_due_hw env g t tr D) as (t2 & tr2 & E2 & H2).
    rewrite E in E2. injection E2 as _ _ ->.
    destruct (frame_hw_last env g (Datatypes.S (Datatypes.S t))) as (Sh & Hs & Hc).
    eexists _, (removelast (frame_hw env g (Datatypes.S (Datatypes.S t)))), _, _, _, _.
    split; [ | split; [exact Hs | split; [exact Hc | split; [ | split; [reflexivity | split ] ] ] ] ].
    + unfold events. cbn [trace]. rewrite !hw_rev, H2. rewrite Sh at 1. cbn [rev].
      rewrite !rev_app_distr, !rev_involutive. cbn [rev app].
      rewrite <- !app_assoc. cbn [app]. reflexivity.
    + apply filter_events_of_trace. cbn [trace rev app]. exact S.
    + unfold frame_battery_tick. destruct (mlxSensorAvailable g); lia.
    + exact G.
Qed.

Lemma retry_due_trace_irrelevant env g t tr tr' :
  retry_due env {| globals := g; tick := t; trace := tr |}
  = retry_due env {| globals := g; tick := t; trace := tr' |}.
Proof. reflexivity. Qed.

(** One iteration of [loop], phase by phase. *)
Lemma loop_phases env g t tr :
  exists g1 t1 tr1 g2 t2 tr2 w',
    loop_join_retry env {| globals := g; tick := t; trace := RadioIrqProcess :: tr |}
    = Done tt {| globals := g1; tick := t1; trace := tr1 |}
    /\ loop_send env {| globals := g1; tick := t1; trace := tr1 |}
       = Done tt {| globals := g2; tick := t2; trace := tr2 |}
    /\ (loop_status ;; delay 100) env {| globals := g2; tick := t2; trace := tr2 |}
       = Done tt w'
    /\ loop env {| globals := g; tick := t; trace := tr |} = Done tt w'.
Proof.
  destruct (loop_join_retry_run env g t (RadioIrqProcess :: tr))
    as (g1 & t1 & tr1 & E1 & _).
  destruct (loop_send_run env g1 t1 tr1) as (g2 & t2 & tr2 & E2 & _).
  assert (T : terminates (loop_status ;; delay 100))
    by (unfold loop_status; terminates_auto).
  destruct (T env {| globals := g2; tick := t2; trace := tr2 |}) as ([] & w' & E3).
  exists g1, t1, tr1, g2, t2, tr2, w'.
  split; [exact E1 | ]. split; [exact E2 | ]. split; [exact E3 | ].
  unfold loop. unfold bind at 1. cbn [Radio_IrqProcess emit globals tick trace].
  rewrite (bind_done _ _ _ _ _ _ E1). rewrite (bind_done _ _ _ _ _ _ E2). exact E3.
Qed.

(** X5. While the stack reports that the network is not joined, an
    iteration of [loop] sends nothing and leaves [lastSensorRead] alone. *)
Theorem X5_no_uplink_before_join (env : Env) (w : World) :
  (forall n, lmh_join_status env n = false) ->
  exists w',
    loop env w = Done tt w'
    /\ filter is_send (events w') = filter is_send (events w)
    /\ lastSensorRead (globals w') = lastSensorRead (globals w).
Proof.
  intros Off. destruct w as [g t tr].
  destruct (loop_phases env g t tr)
    as (g1 & t1 & tr1 & g2 & t2 & tr2 & w' & E1 & E2 & E3 & E).
  destruct (loop_join_retry_run env g t (RadioIrqProcess :: tr))
    as (g1' & t1' & tr1' & E1' & _ & S1 & L1 & _).
  rewrite E1 in E1'. injection E1' as <- <- <-.
  destruct (loop_send_run env g1 t1 tr1) as (g2' & t2' & tr2' & E2' & S2 & G2).
  rewrite E2 in E2'. injection E2' as <- <- <-.
  assert (D : send_due env g1 t1 = false) by (unfold send_due; rewrite Off; reflexivity).
  rewrite D in S2, G2. cbn [app] in S2. subst g2.
  destruct loop_status_no_send_no_join as (NS & _ & _).
  pose proof (emits_only_filter is_send _ NS env
                {| globals := g1; tick := t2; trace := tr2 |}) as S3.
  assert (K : keeps lastSensorRead (loop_status ;; delay 100))
    by (unfold loop_status; keeps_auto).
  pose proof (K env {| globals := g1; tick := t2; trace := tr2 |}) as L3.
  rewrite E3 in S3, L3. cbn [world_of trace globals] in S3, L3.
  exists w'. split; [exact E | ]. split.
  - apply filter_events_same. cbn [trace]. rewrite S3, S2, S1. reflexivity.
  - cbn [globals]. rewrite L3. exact L1.
Qed.

Lemma X5_no_uplink_before_join_witness :
  (forall n, lmh_join_status offline_env n = false)
  /\ exists w',
       loop offline_env initial_world = Done tt w'
       /\ filter is_send (events w') = filter is_send (events initial_world).
Proof.
  assert (Off : forall n, lmh_join_status offline_env n = false) by (intros n; reflexivity).
  split; [exact Off | ].
  destruct (X5_no_uplink_before_join offline_env initial_world Off) as (w' & E & S & _).
  exists w'. split; assumption.
Defined.

Lemma uint32_elapsed T0 T1 :
  T0 <= T1 < T0 + 2 ^ 32 ->
  CInt.to_uint32 (CInt.to_uint32 T1 - CInt.to_uint32 T0) = T1 - T0.
Proof.
  unfold CInt.to_uint32, CInt.wrap_unsigned. change (2 ^ 32) with 4294967296.
  intros H. Z.div_mod_to_equations. lia.
Qed.

(** X6. Both timers survive the roll-over of the 32-bit clock: if the
    stored time stamp is the clock at true time [T0] and the clock is now
    read at true time [T1], less than 2^32 ms later, the retry test compares
    the true elapsed time [T1 - T0] with 120000 and the send test compares
    it with 60000, even when the clock wrapped in between. *)
Theorem X6_timers_survive_clock_rollover (T0 T1 : Z) :
  T0 <= T1 < T0 + 2 ^ 32 ->
  (forall env w,
     lastJoinAttempt (globals w) = CInt.to_uint32 T0 ->
     millis_value env (S (tick w)) = T1 ->
     (retry_due env w = true
      <-> lmh_join_status env (tick w) = false
          /\ joinInProgress (globals w) = false
          /\ 120000 < T1 - T0))
  /\ (forall env g t,
        lastSensorRead g = CInt.to_uint32 T0 ->
        millis_value env (S t) = T1 ->
        (send_due env g t = true
         <-> lmh_join_status env t = true /\ 60000 <= T1 - T0)).
Proof.
  intros H. split.
  - intros env w L M. rewrite retry_due_iff, L, M, (uint32_elapsed T0 T1 H).
    reflexivity.
  - intros env g t L M. rewrite send_due_iff, L, M, (uint32_elapsed T0 T1 H).
    reflexivity.
Qed.

Lemma X6_timers_survive_clock_rollover_witness :
  4294966296 <= 4295167296 < 4294966296 + 2 ^ 32
  /\ CInt.to_uint32 4295167296 < CInt.to_uint32 4294966296
  /\ forall env g t,
       lastSensorRead g = CInt.to_uint32 4294966296 ->
       millis_value env (S t) = 4295167296 ->
       (send_due env g t = true
        <-> lmh_join_status env t = true /\ 60000 <= 4295167296 - 4294966296).
Proof.
  assert (H : 4294966296 <= 4295167296 < 4294966296 + 2 ^ 32)
    by (change (2 ^ 32) with 4294967296; lia).
  split; [exact H | ]. split; [reflexivity | ].
  exact (proj2 (X6_timers_survive_clock_rollover 4294966296 4295167296 H)).
Defined.

Lemma emits_only_trace {A} (P : event -> Prop) (p : M A) env w a w' :
  emits_only P p -> p env w = Done a w' ->
  exists new, trace w' = new ++ trace w /\ Forall P new.
Proof.
  intros H E. destruct (H env w) as (new & T & F). rewrite E in T. eauto.
Qed.

Lemma hw_no_irq l :
  Forall (fun e => is_irq e = false) l -> filter is_irq (hw l) = [].
Proof.
  unfold hw. induction 1 as [ | e l He _ IH]; [reflexivity | ].
  cbn [filter]. destruct (negb (is_serial e)); cbn [filter]; rewrite ?He; exact IH.
Qed.

(** X7. Every iteration of [loop] returns; it services the radio exactly
    once, first of all, and ends with the 100 ms delay. *)
Theorem X7_loop_iteration_shape (env : Env) (w : World) :
  exists w' middle,
    loop env w = Done tt w'
    /\ hw (events w') = hw (events w) ++ [RadioIrqProcess] ++ middle ++ [Delay 100]
    /\ filter is_irq middle = [].
Proof.
  destruct w as [g t tr].
  destruct (loop_phases env g t tr)
    as (g1 & t1 & tr1 & g2 & t2 & tr2 & w' & E1 & E2 & E3 & E).
  assert (N1 : emits_only (fun e => is_irq e = false) loop_join_retry)
    by (unfold loop_join_retry; emits_only_auto).
  assert (N2 : emits_only (fun e => is_irq e = false) loop_send)
    by (unfold loop_send, send_lora_frame; emits_only_auto).
  assert (N3 : emits_only (fun e => is_irq e = false) loop_status)
    by (unfold loop_status; emits_only_auto).
  assert (T3 : terminates loop_status) by (unfold loop_status; terminates_auto).
  destruct (emits_only_trace _ _ _ _ _ _ N1 E1) as (n1 & H1 & F1).
  destruct (emits_only_trace _ _ _ _ _ _ N2 E2) as (n2 & H2 & F2).
  destruct (T3 env {| globals := g2; tick := t2; trace := tr2 |}) as ([] & w3 & E3').
  destruct (emits_only_trace _ _ _ _ _ _ N3 E3') as (n3 & H3 & F3).
  rewrite (bind_done _ _ _ _ _ _ E3') in E3. unfold delay, emit in E3.
  injection E3 as <-. cbn [trace] in H1, H2, H3.
  exists {| globals := globals w3; tick := tick w3; trace := Delay 100 :: trace w3 |}.
  exists (hw (rev (n3 ++ n2 ++ n1))).
  split; [exact E | ]. split.
  - unfold events. cbn [trace]. rewrite H3, H2, H1.
    cbn [rev]. rewrite !rev_app_distr. cbn [rev app].
    rewrite !hw_app. cbn [hw filter is_serial negb app].
    rewrite <- !app_assoc. cbn [app]. reflexivity.
  - apply hw_no_irq. apply Forall_rev. repeat (apply Forall_app; split); assumption.
Qed.

Ltac run_retry :=
  cbv beta iota zeta delta
    [loop_join_retry and_then when bind ret emit query gets modify
     lmh_join_status_get millis lmh_join println print print_int
     set_joinAttempts set_joinInProgress set_lastJoinAttempt
     mlxSensorAvailable lastSensorRead lastJoinAttempt joinInProgress joinAttempts
     lastStatusPrint globals tick trace retry_due].

(** Lines 234-247: the globals after them. *)
Lemma loop_join_retry_globals env g t tr :
  exists t' tr',
    loop_join_retry env {| globals := g; tick := t; trace := tr |}
    = Done tt {| globals :=
                   (if retry_due env {| globals := g; tick := t; trace := tr |}
                    then set_lastJoinAttempt
                           (CInt.to_uint32 (millis_value env (S (S t))))
                           (set_joinInProgress true
                              (set_joinAttempts (CInt.to_int32 (joinAttempts g + 1)) g))
                    else g);
                 tick := t'; trace := tr' |}.
Proof.
  destruct g as [av lsr lja jip ja lsp]. run_retry.
  destruct (lmh_join_status env t); cbn [negb andb]; run_retry;
    [ | destruct jip; cbn [negb andb]; run_retry;
        [ | destruct (JOIN_RETRY_INTERVAL
                      <? CInt.to_uint32 (CInt.to_uint32 (millis_value env (S t)) - lja));
            run_retry ] ].
  all: do 2 eexists; reflexivity.
Qed.

(** X8. [joinAttempts] counts the join requests: an iteration of [loop]
    raises it by one when it calls [lmh_join] and leaves it alone when it
    does not, and it calls [lmh_join] at most once. *)
Theorem X8_join_attempts_count_requests (env : Env) (w : World) :
  - 2 ^ 31 <= joinAttempts (globals w) < 2 ^ 31 - 1 ->
  exists w' joins,
    loop env w = Done tt w'
    /\ filter is_join (events w') = filter is_join (events w) ++ joins
    /\ (List.length joins <= 1)%nat
    /\ joinAttempts (globals w') = joinAttempts (globals w) + Z.of_nat (List.length joins).
Proof.
  intros R. destruct w as [g t tr]. cbn [globals] in R.
  destruct (loop_phases env g t tr)
    as (g1 & t1 & tr1 & g2 & t2 & tr2 & w' & E1 & E2 & E3 & E).
  destruct (loop_join_retry_globals env g t (RadioIrqProcess :: tr)) as (t1' & tr1' & G1).
  rewrite E1 in G1. injection G1 as G1 _ _.
  rewrite (retry_due_trace_irrelevant env g t _ tr) in G1.
  destruct (loop_join_retry_run env g t (RadioIrqProcess :: tr))
    as (g1' & t1'' & tr1'' & E1' & J1 & _).
  rewrite E1 in E1'. injection E1' as _ _ <-.
  rewrite (retry_due_trace_irrelevant env g t _ tr) in J1.
  assert (NJ2 : emits_only (fun e => is_join e = false) loop_send)
    by (unfold loop_send, send_lora_frame; emits_only_auto).
  assert (NJ3 : emits_only (fun e => is_join e = false) (loop_status ;; delay 100))
    by (unfold loop_status; emits_only_auto).
  assert (K2 : keeps joinAttempts loop_send)
    by (unfold loop_send, send_lora_frame; keeps_auto).
  assert (K3 : keeps joinAttempts (loop_status ;; delay 100))
    by (unfold loop_status; keeps_auto).
  pose proof (emits_only_filter is_join _ NJ2 env
                {| globals := g1; tick := t1; trace := tr1 |}) as J2.
  pose proof (K2 env {| globals := g1; tick := t1; trace := tr1 |}) as A2.
  rewrite E2 in J2, A2. cbn [world_of trace globals] in J2, A2.
  pose proof (emits_only_filter is_join _ NJ3 env
                {| globals := g2; tick := t2; trace := tr2 |}) as J3.
  pose proof (K3 env {| globals := g2; tick := t2; trace := tr2 |}) as A3.
  rewrite E3 in J3, A3. cbn [world_of trace globals] in J3, A3.
  exists w', (if retry_due env {| globals := g; tick := t; trace := tr |}
              then [LmhJoin] else []).
  split; [exact E | ]. split; [ | split].
  - apply filter_events_of_trace. cbn [trace]. rewrite J3, J2, J1.
    cbn [filter is_join].
    destruct (retry_due env {| globals := g; tick := t; trace := tr |}); reflexivity.
  - destruct (retry_due env {| globals := g; tick := t; trace := tr |}); cbn; lia.
  - cbn [globals]. rewrite A3, A2, G1.
    destruct (retry_due env {| globals := g; tick := t; trace := tr |});
      destruct g as [av lsr lja jip ja lsp]; cbn in *; [ | lia].
    rewrite to_int32_small by lia. lia.
Qed.

Lemma X8_join_attempts_count_requests_witness :
  - 2 ^ 31 <= joinAttempts (globals initial_world) < 2 ^ 31 - 1
  /\ exists w' (joins : list event),
       loop offline_env initial_world = Done tt w'
       /\ joinAttempts (globals w')
          = joinAttempts (globals initial_world) + Z.of_nat (List.length joins).
Proof.
  assert (R : - 2 ^ 31 <= joinAttempts (globals initial_world) < 2 ^ 31 - 1)
    by (cbn; lia).
  split; [exact R | ].
  destruct (X8_join_attempts_count_requests offline_env initial_world R)
    as (w' & joins & E & _ & _ & A).
  exists w', joins. split; assumption.
Defined.

(** X9. Whether the temperature sensor is available is decided in [setup]
    and never again: neither [loop], nor any of the four handlers registered
    in [g_lora_callbacks], nor [lorawan_unconfirm_class_handler] probes the
    sensor or changes [mlxSensorAvailable]. *)
Theorem X9_sensor_availability_is_final :
  keeps mlxSensorAvailable loop
  /\ emits_only (fun e => is_probe e = false) loop
  /\ (forall cb, keeps mlxSensorAvailable (g_lora_callbacks cb))
  /\ (forall cb, emits_only (fun e => is_probe e = false) (g_lora_callbacks cb))
  /\ (forall c, keeps mlxSensorAvailable (lorawan_unconfirm_class_handler c))
  /\ (forall c, emits_only (fun e => is_probe e = false)
                           (lorawan_unconfirm_class_handler c)).
Proof.
  split; [ | split; [ | split; [ | split; [ | split] ] ] ].
  - unfold loop, loop_join_retry, loop_send, loop_status, send_lora_frame. keeps_auto.
  - unfold loop, loop_join_retry, loop_send, loop_status, send_lora_frame.
    emits_only_auto.
  - intros cb. destruct cb; cbn [g_lora_callbacks];
      unfold lorawan_rx_handler, lorawan_has_joined_handler,
        lorawan_confirm_class_handler, lorawan_join_failed_handler;
      keeps_auto.
  - intros cb. destruct cb; cbn [g_lora_callbacks];
      unfold lorawan_rx_handler, lorawan_has_joined_handler,
        lorawan_confirm_class_handler, lorawan_join_failed_handler;
      emits_only_auto.
  - intros c. unfold lorawan_unconfirm_class_handler. keeps_auto.
  - intros c. unfold lorawan_unconfirm_class_handler. emits_only_auto.
Qed.

(** X10. The downlink callback and the two class callbacks are diagnostics
    only: whatever the downlink holds, they return, call nothing but
    [Serial], and change neither the globals nor the query counter. *)
Theorem X10_informational_callbacks_are_inert :
  (forall app_data, quiet (lorawan_rx_handler app_data))
  /\ (forall c, quiet (lorawan_confirm_class_handler c))
  /\ (forall c, quiet (lorawan_unconfirm_class_handler c)).
Proof.
  split; [ | split].
  - intros d. unfold lorawan_rx_handler, println, print, print_int, println_int.
    repeat first
      [ apply quiet_print_hex_bytes
      | apply quiet_serial
      | apply quiet_when
      | apply quiet_seq ].
  - intros c. unfold lorawan_confirm_class_handler, println, print.
    apply quiet_seq; apply quiet_serial.
  - intros c. unfold lorawan_unconfirm_class_handler, println, print.
    apply quiet_seq; apply quiet_serial.
Qed.

(** ** setup: the path to the first join request, and the serial wait *)

Ltac step_print_credential :=
  match goal with
  | |- context [print_credential ?d ?e ?w] =>
      let evs := fresh "evs" in
      let E := fresh "E" in
      let Q := fresh "Q" in
      destruct (quiet_print_credential d e w) as (evs & E & Q); rewrite E; clear E
  end.

Ltac run_setup_join :=
  cbv beta iota zeta delta
    [setup_join bind ret emit query gets modify println print millis lmh_setDevEui
     lmh_setAppEui lmh_setAppKey lmh_join globals tick trace].

(** Lines 170-227: the credentials, then one join request. *)
Lemma setup_join_run env g t tr :
  exists tr',
    setup_join env {| globals := g; tick := t; trace := tr |}
    = Done tt {| globals :=
                   set_lastJoinAttempt (CInt.to_uint32 (millis_value env t))
                     (set_joinAttempts 1 (set_joinInProgress true g));
                 tick := S t; trace := tr' |}
    /\ hw tr'
       = rev [ LmhSetDevEui nodeDeviceEUI; LmhSetAppEui nodeAppEUI;
               LmhSetAppKey nodeAppKey;
               Millis (CInt.to_uint32 (millis_value env t)); LmhJoin ]
         ++ hw tr.
Proof.
  run_setup_join.
  step_print_credential. run_setup_join.
  step_print_credential. run_setup_join.
  step_print_credential. run_setup_join.
  eexists. split; [reflexivity | ]. hw_norm. reflexivity.
Qed.

Ltac run_setup_radio :=
  cbv beta iota zeta delta
    [setup_radio bind ret println print println_int emit constant
     lora_rak4630_init lmh_init globals tick trace].

(** Lines 137-168 when both initialisations succeed. *)
Lemma setup_radio_succeeds fuel env g t tr :
  lora_rak4630_init_result env = 0 ->
  lmh_is_success (lmh_init_result env) = true ->
  exists tr',
    setup_radio fuel env {| globals := g; tick := t; trace := tr |}
    = Done tt {| globals := g; tick := t; trace := tr' |}
    /\ hw tr' = rev [LoraRak4630Init 0; LmhInit (lmh_init_result env)] ++ hw tr.
Proof.
  intros L S. unfold setup_radio.
  set (halt_lora := forever fuel (println halt_message_lora ;; delay 10000)).
  set (halt_stack := forever fuel (println halt_message_stack ;; delay 10000)).
  run_setup_radio. rewrite L. cbn [Z.eqb]. run_setup_radio. rewrite S. run_setup_radio.
  eexists. split; [reflexivity | ]. hw_norm. reflexivity.
Qed.

(** Up to the initialisation of the radio, [setup] leaves the radio alone. *)
Lemma setup_serial_no_radio fuel :
  emits_only (fun e => is_radio_request e = false) (setup_serial fuel).
Proof.
  unfold setup_serial.
  apply emits_only_bind; [ | intros _].
  - apply emits_only_emit. reflexivity.
  - apply emits_only_while_.
    + apply emits_only_bind; [apply emits_only_query | intros ?; apply emits_only_ret].
    + apply emits_only_emit. reflexivity.
Qed.

Lemma setup_sensors_no_radio :
  emits_only (fun e => is_radio_request e = false) setup_sensors.
Proof.
  unfold setup_sensors. cbn [setup_probe_attempts setup_probe_addresses]. emits_only_auto.
Qed.

Lemma hw_Forall (P : event -> Prop) l : Forall P l -> Forall P (hw l).
Proof.
  unfold hw. induction 1 as [ | e l He _ IH]; [constructor | ].
  cbn [filter]. destruct (negb (is_serial e)); [constructor; assumption | exact IH].
Qed.

(** X11. When the serial port becomes ready, the radio chip returns 0 and
    the stack returns success, [setup] returns. Before the two
    initialisations it makes no call at all to the radio driver or the
    LoRaWAN stack; after them it hands the three credentials to the stack,
    reads the clock into [lastJoinAttempt], and makes exactly one join
    request, its last call, with [joinInProgress] set and [joinAttempts]
    equal to 1. *)
Theorem X11_setup_ends_with_one_join_request
    (fuel k : nat) (env : Env) (w : World) :
  (k < fuel)%nat ->
  Serial_ready env (k + tick w)%nat = true ->
  lora_rak4630_init_result env = 0 ->
  lmh_is_success (lmh_init_result env) = true ->
  exists w' before clock,
    setup fuel env w = Done tt w'
    /\ hw (events w')
       = hw (events w) ++ before
         ++ [ LoraRak4630Init 0; LmhInit (lmh_init_result env);
              LmhSetDevEui nodeDeviceEUI; LmhSetAppEui nodeAppEUI;
              LmhSetAppKey nodeAppKey; Millis clock; LmhJoin ]
    /\ Forall (fun e => is_radio_request e = false) before
    /\ joinInProgress (globals w') = true
    /\ joinAttempts (globals w') = 1
    /\ lastJoinAttempt (globals w') = clock.
Proof.
  intros Hk R L S.
  destruct (setup_serial_done fuel env w k Hk R) as (w1 & E1).
  destruct (emits_only_trace _ _ _ _ _ _ (setup_serial_no_radio fuel) E1)
    as (n1 & T1 & F1).
  destruct (terminates_setup_sensors env w1) as ([] & w2 & E2).
  destruct (emits_only_trace _ _ _ _ _ _ setup_sensors_no_radio E2) as (n2 & T2 & F2).
  destruct w2 as [g2 t2 tr2]. cbn [trace] in T2.
  destruct (setup_radio_succeeds fuel env g2 t2 tr2 L S) as (tr3 & E3 & H3).
  destruct (setup_join_run env g2 t2 tr3) as (tr4 & E4 & H4).
  eexists _, (hw (rev (n2 ++ n1))), _. split.
  - unfold setup. rewrite (bind_done _ _ _ _ _ _ E1), (bind_done _ _ _ _ _ _ E2),
      (bind_done _ _ _ _ _ _ E3). exact E4.
  - cbn [globals]. split; [ | split; [ | destruct g2; repeat split] ].
    + unfold events. cbn [trace]. rewrite !hw_rev, H4, H3, T2, T1.
      rewrite !hw_app, !rev_app_distr, !rev_involutive. cbn [rev app].
      rewrite <- !app_assoc. cbn [app]. reflexivity.
    + apply hw_Forall, Forall_rev. apply Forall_app. split; assumption.
Qed.

Lemma X11_setup_ends_with_one_join_request_witness :
  (2 < 5)%nat
  /\ Serial_ready example_env (2 + tick initial_world)%nat = true
  /\ lora_rak4630_init_result example_env = 0
  /\ lmh_is_success (lmh_init_result example_env) = true
  /\ exists w',
       setup 5 example_env initial_world = Done tt w'
       /\ joinInProgress (globals w') = true
       /\ joinAttempts (globals w') = 1.
Proof.
  assert (Hk : (2 < 5)%nat) by lia.
  assert (R : Serial_ready example_env (2 + tick initial_world)%nat = true) by reflexivity.
  assert (L : lora_rak4630_init_result example_env = 0) by reflexivity.
  assert (S : lmh_is_success (lmh_init_result example_env) = true) by reflexivity.
  split; [exact Hk | ]. split; [exact R | ]. split; [exact L | ]. split; [exact S | ].
  destruct (X11_setup_ends_with_one_join_request 5 2 example_env initial_world Hk R L S)
    as (w' & before & clock & E & _ & _ & P & A & _).
  exists w'. repeat split; assumption.
Defined.

(** The wait of lines 58-60 while the port is not ready. *)
Lemma wait_serial_spins fuel : forall env w,
  (forall n, Serial_ready env n = false) ->
  exists t',
    while_ fuel (ready <- Serial_operator_bool ;; ret (negb ready)) (delay 10) env w
    = Spin {| globals := globals w; tick := t';
              trace := serial_wait_trace fuel ++ trace w |}.
Proof.
  induction fuel as [ | fuel IH]; intros env [g t tr] Off.
  - eexists. reflexivity.
  - cbn [while_ serial_wait_trace].
    set (rest := while_ fuel _ _).
    cbv beta iota zeta delta [bind ret Serial_operator_bool query delay emit globals tick trace].
    rewrite Off. cbn [negb]. subst rest.
    destruct (IH env {| globals := g; tick := S t; trace := Delay 10 :: tr |} Off)
      as (t' & E).
    rewrite E. cbn [globals trace]. exists t'. rewrite <- app_assoc. reflexivity.
Qed.

Lemma serial_wait_trace_delays fuel :
  Forall (fun e => e = Delay 10) (serial_wait_trace fuel)
  /\ List.length (serial_wait_trace fuel) = fuel.
Proof.
  induction fuel as [ | fuel [IH1 IH2]]; [split; [constructor | reflexivity] | ].
  cbn [serial_wait_trace]. split.
  - apply Forall_app. split; [exact IH1 | repeat constructor].
  - rewrite length_app, IH2. cbn [List.length]. lia.
Qed.

(** X12. Without a serial monitor the node never starts: if [Serial] never
    becomes ready, [setup] is still in its first loop however long it runs,
    having only opened the port and waited 10 ms once per round; no pin is
    configured, no sensor probed, no radio initialised, and the globals are
    untouched. *)
Theorem X12_setup_waits_for_serial_forever (fuel : nat) (env : Env) (w : World) :
  (forall n, Serial_ready env n = false) ->
  exists w' waits,
    setup fuel env w = Spin w'
    /\ sketch fuel env w = Spin w'
    /\ globals w' = globals w
    /\ events w' = events w ++ SerialBegin 115200 :: waits
    /\ Forall (fun e => e = Delay 10) waits
    /\ List.length waits = fuel.
Proof.
  intros Off. destruct w as [g t tr].
  destruct (wait_serial_spins fuel env
              {| globals := g; tick := t; trace := SerialBegin 115200 :: tr |} Off)
    as (t' & E).
  assert (S : setup fuel env {| globals := g; tick := t; trace := tr |}
              = Spin {| globals := g; tick := t';
                        trace := serial_wait_trace fuel ++ SerialBegin 115200 :: tr |}).
  { unfold setup, setup_serial. unfold bind at 1. unfold bind at 1.
    cbn [Serial_begin emit globals tick trace]. rewrite E. reflexivity. }
  destruct (serial_wait_trace_delays fuel) as [F Len].
  eexists _, (rev (serial_wait_trace fuel)).
  split; [exact S | ]. split; [unfold sketch, bind; rewrite S; reflexivity | ].
  split; [reflexivity | ]. split; [ | split].
  - unfold events. cbn [trace]. rewrite rev_app_distr. cbn [rev].
    rewrite <- app_assoc. reflexivity.
  - apply Forall_rev. exact F.
  - rewrite length_rev. exact Len.
Qed.

Lemma X12_setup_waits_for_serial_forever_witness :
  (forall n, Serial_ready headless_env n = false)
  /\ exists w', setup 7 headless_env initial_world = Spin w'
                /\ globals w' = globals initial_world.
Proof.
  assert (Off : forall n, Serial_ready headless_env n = false) by (intros n; reflexivity).
  split; [exact Off | ].
  destruct (X12_setup_waits_for_serial_forever 7 headless_env initial_world Off)
    as (w' & waits & E & _ & G & _).
  exists w'. split; assumption.
Defined.

(** ** setup: the sensors' power lines *)

Lemma setup_sensors_activity env g t tr :
  exists g' t' tr',
    setup_sensors env {| globals := g; tick := t; trace := tr |}
    = Done tt {| globals := g'; tick := t'; trace := tr' |}
    /\ filter is_sensor_activity tr'
       = rev ([ DigitalWrite SOIL_POWER_PIN LOW; DigitalWrite MLX_POWER_PIN HIGH;
                DigitalWrite MLX_POWER_PIN LOW ]
              ++ probes_until_success probe_candidates env t
              ++ (if mlxSensorAvailable g'
                  then [ MlxGetObjectTemp
                           (mlx_getObjectTemp_value env
                              (List.length (probes_until_success probe_candidates env t)
                               + t)) ]
                  else [])
              ++ [ DigitalWrite MLX_POWER_PIN HIGH ])
         ++ filter is_sensor_activity tr
    /\ set_mlxSensorAvailable (mlxSensorAvailable g) g' = g.
Proof.
  destruct g as [av lsr lja jip ja lsp].
  probe_cases env t 6%nat.
  all: repeat
    (match goal with
     | |- context [if ?c then _ else _] => destruct c eqn:?
     end; run_setup_sensors).
  all: do 3 eexists; (split; [reflexivity | ]).
  all: unfold probe_reports_success; cbn [fst snd].
  all: repeat match goal with H : _ && _ = _ |- _ => rewrite H; clear H end.
  all: cbn [filter is_sensor_activity is_digital_write is_probe is_temp_read orb rev app
            List.length Nat.add mlxSensorAvailable set_mlxSensorAvailable].
  all: split; reflexivity.
Qed.

(** X13. [setup_sensors] always returns, and its power switching is the
    same on every path: the soil probe is switched off, the temperature
    sensor is first off, then on; every probe of the sensor, and the single
    test reading made exactly when a sensor was found, happen while it is
    on; its last act is to switch the sensor off again. Nothing but the
    availability flag changes in the globals. *)
Theorem X13_setup_sensors_power_sequence (env : Env) (w : World) :
  exists w',
    setup_sensors env w = Done tt w'
    /\ filter is_sensor_activity (events w')
       = filter is_sensor_activity (events w)
         ++ [ DigitalWrite SOIL_POWER_PIN LOW; DigitalWrite MLX_POWER_PIN HIGH;
              DigitalWrite MLX_POWER_PIN LOW ]
         ++ probes_until_success probe_candidates env (tick w)
         ++ (if mlxSensorAvailable (globals w')
             then [ MlxGetObjectTemp
                      (mlx_getObjectTemp_value env
                         (List.length (probes_until_success probe_candidates env (tick w))
                          + tick w)) ]
             else [])
         ++ [ DigitalWrite MLX_POWER_PIN HIGH ]
    /\ set_mlxSensorAvailable (mlxSensorAvailable (globals w)) (globals w') = globals w.
Proof.
  destruct w as [g t tr].
  destruct (setup_sensors_activity env g t tr) as (g' & t' & tr' & E & A & G).
  eexists. split; [exact E | ]. cbn [globals tick]. split; [ | exact G].
  unfold events. cbn [trace]. rewrite !filter_rev_comm, A, rev_app_distr, rev_involutive.
  reflexivity.
Qed.
